(** * PageNode backend: chunker, ingestion pipeline, task registry, SM-2 review

    A shallow embedding of the Python backend (package [app]) and the
    properties of its specification.  Each Rocq module below carries the name
    of the Python module it embeds; the definitions keep the names of the
    Python functions.

    Conventions of the embedding:
    - a Python [int] is a [Z]; a Python [float] is an exact rational [Q]
      (binary64 rounding error is not represented; module [binary64] is
      there to check a scenario in binary64 itself);
    - a [date] is its day number, a [Z], without the bounds of the calendar
      (where the code raises OverflowError, past 9999-12-31, the embedding
      returns a day number; what is stated of a review is stated of the
      results it returns); [today] is an argument of the functions that
      read the clock;
    - a Python [str] holding document text is the list of its code points
      ([list N]); identifiers (uuid strings) are [string]s;
    - a SQLite table with a primary key is a [gmap] from the key to the row;
      a table read with ORDER BY is a list of rows;
    - an exception is a result [Raise]; the store a coroutine has written
      before raising stays written;
    - a coroutine is a function on the store: its awaits are run in order,
      without another coroutine writing the rows of the same document in
      between. *)

From Stdlib Require Import ZArith QArith Qround Lia List Bool SpecFloat.
From stdpp Require Import gmap strings list fin_maps sorting pretty.

(** ** Python built-ins used by the backend *)
Module py.

(** [max(a, b)] returns [b] only when [b > a]; [min(a, b)] returns [b] only
    when [b < a]. *)
Definition max (a b : Z) : Z := if (a <? b)%Z then b else a.

Definition Qltb (a b : Q) : bool := negb (Qle_bool b a).

Definition fmax (a b : Q) : Q := if Qltb a b then b else a.

Definition fmin (a b : Q) : Q := if Qltb b a then b else a.

(** [round(x)] with one argument: nearest integer, ties to the even one. *)
Definition round (x : Q) : Z :=
  let f := Qfloor x in
  let r := (x - inject_Z f)%Q in
  if Qltb r 0.5 then f
  else if Qltb 0.5 r then (f + 1)%Z
  else if Z.even f then f else (f + 1)%Z.

(** [l[i]] on a list: a negative index counts from the end, an index out of
    range raises IndexError ([None]). *)
Definition getitem {A} (l : list A) (i : Z) : option A :=
  let n := Z.of_nat (length l) in
  if (0 <=? i)%Z then l !! Z.to_nat i
  else if (0 <=? n + i)%Z then l !! Z.to_nat (n + i)
  else None.

(** Code points for which [str.isspace] holds; [str.strip()] removes them
    from both ends. *)
Definition isspace (c : N) : bool :=
  ((9 <=? c) && (c <=? 13) || (28 <=? c) && (c <=? 32) || (c =? 133)
   || (c =? 160) || (c =? 5760) || (8192 <=? c) && (c <=? 8202)
   || (c =? 8232) || (c =? 8233) || (c =? 8239) || (c =? 8287)
   || (c =? 12288))%N.

Fixpoint lstrip (s : list N) : list N :=
  match s with
  | c :: s' => if isspace c then lstrip s' else s
  | [] => []
  end.

Definition rstrip (s : list N) : list N := rev (lstrip (rev s)).

Definition strip (s : list N) : list N := rstrip (lstrip s).

Definition len {A} (s : list A) : Z := Z.of_nat (length s).

(** [s[a:]]: a negative start counts from the end; the start is clamped
    into the string. *)
Definition slice_from {A} (s : list A) (a : Z) : list A :=
  let n := len s in
  let a' := if (a <? 0)%Z then Z.max 0 (n + a) else Z.min a n in
  drop (Z.to_nat a') s.

(** [s[a:b]] for [0 <= a], [0 <= b]. *)
Definition slice {A} (s : list A) (a b : Z) : list A :=
  take (Z.to_nat b - Z.to_nat a) (drop (Z.to_nat a) s).

End py.

(** ** IEEE 754 binary64, the format of a Python [float]

    Used only to check, on the inputs of a scenario, that the rounding of
    binary64 arithmetic does not change what the exact arithmetic of the
    embedding gives. *)
Module binary64.

Definition prec : Z := 53.
Definition emax : Z := 1024.

(** [float(z)] for an integer, and the literal [n / 10^k] (the double
    nearest to the decimal number, which is what the correctly rounded
    division gives). *)
Definition of_int (z : Z) : spec_float := binary_normalize prec emax z 0 false.

Definition mul : spec_float -> spec_float -> spec_float := SFmul prec emax.
Definition sub : spec_float -> spec_float -> spec_float := SFsub prec emax.
Definition div : spec_float -> spec_float -> spec_float := SFdiv prec emax.

Definition decimal (n : Z) (k : nat) : spec_float :=
  div (of_int n) (of_int (10 ^ Z.of_nat k)).

(** The exact value of a finite double. *)
Definition to_Q (x : spec_float) : option Q :=
  match x with
  | S754_zero _ => Some 0%Q
  | S754_finite s m e =>
      let v := (inject_Z (Z.pos m) * (2 ^ e))%Q in
      Some (if s then (- v)%Q else v)
  | _ => None
  end.

End binary64.

(** ** app/db/kuzu_.py: the concept graph *)
Module kuzu_.

Record Concept := mkConcept {
  name : string;
  mastery : Q;
  review_count : Z
}.

(** An EXTRACTED_FROM edge: concept id, document id, chunk id. *)
Record ExtractedFrom := mkExtractedFrom {
  ef_concept : string;
  ef_doc : string;
  ef_chunk : string
}.

Record Graph := mkGraph {
  concepts : gmap string Concept;
  extracted_from : list ExtractedFrom
}.

(** Rows of
    [MATCH (c:Concept)-[r:EXTRACTED_FROM]->() WHERE r.chunk_id = ...
     RETURN c.id, c.mastery, c.review_count]: one row per matching edge. *)
Definition match_rows (g : Graph) (chunk_id : string)
  : list (string * Q * Z) :=
  omap (fun e =>
          if decide (ef_chunk e = chunk_id) then
            c ← concepts g !! ef_concept e;
            Some (ef_concept e, mastery c, review_count c)
          else None)
       (extracted_from g).

(** [new_mastery = max(0.0, min(1.0, mastery + delta))] and
    [review_count + 1], computed for every row before any write. *)
Definition new_values (delta : Q) (row : string * Q * Z) : string * Q * Z :=
  let '(cid, mastery, review_count) := row in
  (cid, py.fmax 0 (py.fmin 1 (mastery + delta)), (review_count + 1)%Z).

(** [MATCH (c:Concept) WHERE c.id = cid SET c.mastery = ..., c.review_count = ...] *)
Definition set_concept (cs : gmap string Concept) (u : string * Q * Z)
  : gmap string Concept :=
  let '(cid, new_mastery, new_rc) := u in
  alter (fun c => mkConcept (name c) new_mastery new_rc) cid cs.

(** [fault = Some k]: the statement number [k] sent to Kuzu raises (number 0
    is the MATCH query, number [j+1] the [j]-th SET); the statements before
    it have been executed.  [fault = None]: no statement raises. *)
Definition update_concept_mastery_from_chunk
    (fault : option nat) (chunk_id : string) (delta : Q) (g : Graph)
  : bool * Graph :=
  let updates := new_values delta <$> match_rows g chunk_id in
  match fault with
  | Some O => (false, g)
  | Some (S j) =>
      if decide (j < length updates)%nat then
        (false, mkGraph (foldl set_concept (concepts g) (take j updates))
                        (extracted_from g))
      else
        (true, mkGraph (foldl set_concept (concepts g) updates)
                       (extracted_from g))
  | None =>
      (true, mkGraph (foldl set_concept (concepts g) updates)
                     (extracted_from g))
  end.

End kuzu_.

(** ** app/routers/quiz.py and the flashcard rows of app/db/sqlite.py *)
Module quiz.

Record Flashcard := mkFlashcard {
  document_id : string;
  chunk_id : option string;
  question : string;
  answer : string;
  difficulty : Q;
  interval : Z;
  repetitions : Z;
  next_review : option Z;
  updated_at : Z
}.

Record ReviewResult := mkReviewResult {
  r_id : string;
  r_interval : Z;
  r_next_review : Z;
  r_repetitions : Z;
  r_difficulty : Q
}.

Inductive Response :=
| HTTPException (status_code : Z)
| Ok (r : ReviewResult).

Record Store := mkStore {
  flashcards : gmap string Flashcard;
  graph : kuzu_.Graph;
  (** the calls made to [update_concept_mastery_from_chunk], latest first *)
  mastery_calls : list (string * Q)
}.

Definition _GRADE_QUALITY : list Z := [0; 2; 4; 5]%Z.

Definition _MASTERY_DELTA : gmap Z Q :=
  list_to_map [(0%Z, (-0.05)%Q); (1%Z, 0%Q); (2%Z, 0.05%Q); (3%Z, 0.10%Q)].

(** Returns [(new_repetitions, new_interval, new_difficulty, next_review)];
    [None] when [_GRADE_QUALITY[grade]] raises IndexError. *)
Definition _compute_sm2 (today : Z) (grade repetitions interval : Z)
    (difficulty : Q) : option (Z * Z * Q * Z) :=
  q ← py.getitem _GRADE_QUALITY grade;
  let '(new_reps, new_interval) :=
    if (q <? 3)%Z then (0, 1)%Z
    else
      let new_interval :=
        if (repetitions =? 0)%Z then 1%Z
        else if (repetitions =? 1)%Z then 6%Z
        else py.max 1 (py.round (inject_Z interval * (2.5 - difficulty * 1.2)))
      in ((repetitions + 1)%Z, new_interval) in
  let ef_delta :=
    (0.1 - inject_Z (5 - q) * (0.08 + inject_Z (5 - q) * 0.02))%Q in
  let new_difficulty :=
    py.fmax 0.1 (py.fmin 0.9 (difficulty - ef_delta * 0.2)) in
  let next_review := (today + new_interval)%Z in
  Some (new_reps, new_interval, new_difficulty, next_review).

Definition get_flashcard (st : Store) (card_id : string) : option Flashcard :=
  flashcards st !! card_id.

(** [UPDATE flashcards SET repetitions, interval, difficulty, next_review,
    updated_at WHERE id = card_id], then the row is read back. *)
Definition update_flashcard_sm2 (now : Z) (card_id : string)
    (repetitions interval : Z) (difficulty : Q) (next_review : Z) (st : Store)
  : option Flashcard * Store :=
  let st' :=
    mkStore
      (alter (fun c => mkFlashcard (document_id c) (chunk_id c) (question c)
                         (answer c) difficulty interval repetitions
                         (Some next_review) now)
             card_id (flashcards st))
      (graph st) (mastery_calls st) in
  (get_flashcard st' card_id, st').

(** [if card.chunk_id:] holds for a chunk id that is neither None nor empty. *)
Definition truthy_id (o : option string) : option string :=
  match o with
  | Some s => if decide (s = EmptyString) then None else Some s
  | None => None
  end.

(** POST /quiz/{card_id}/review.  [today] and [now] are the clock readings,
    [kuzu_fault] tells whether (and where) the graph store raises. *)
Definition review_card (today now : Z) (kuzu_fault : option nat)
    (card_id : string) (grade : Z) (st : Store) : Response * Store :=
  if negb (bool_decide (grade ∈ [0; 1; 2; 3]%Z)) then (HTTPException 422, st)
  else
    match get_flashcard st card_id with
    | None => (HTTPException 404, st)
    | Some card =>
        match _compute_sm2 today grade (repetitions card) (interval card)
                (difficulty card) with
        | None => (HTTPException 500, st)
        | Some (new_reps, new_interval, new_diff, next_review) =>
            match update_flashcard_sm2 now card_id new_reps new_interval
                    new_diff next_review st with
            | (None, st1) => (HTTPException 500, st1)
            | (Some _, st1) =>
                let result :=
                  Ok (mkReviewResult card_id new_interval next_review new_reps
                        new_diff) in
                match truthy_id (chunk_id card) with
                | Some ch =>
                    match _MASTERY_DELTA !! grade with
                    | Some delta =>
                        (* the try/except absorbs a failure of the update *)
                        let '(_, g) :=
                          kuzu_.update_concept_mastery_from_chunk
                            kuzu_fault ch delta (graph st1) in
                        (result,
                         mkStore (flashcards st1) g
                                 ((ch, delta) :: mastery_calls st1))
                    | None => (HTTPException 500, st1)
                    end
                | None => (result, st1)
                end
            end
        end
    end.

End quiz.

(** ** app/services/pdf_extractor.py (data only) and app/services/chunker.py *)
Module chunker.

Record PageText := mkPageText {
  page_number : Z;
  text : list N
}.

Record ChunkData := mkChunkData {
  chunk_index : Z;
  content : list N;
  c_page_number : option Z;
  char_start : Z;
  char_end : Z;
  token_count : Z
}.

Definition TARGET_CHARS : Z := 2000.
Definition OVERLAP_CHARS : Z := 200.

(** The newline character. *)
Definition nl : N := 10%N.

(** The loop that builds [full_text] and [page_offsets]. *)
Definition add_page (acc : list N * list (Z * Z)) (p : PageText)
  : list N * list (Z * Z) :=
  let '(full_text, page_offsets) := acc in
  (full_text ++ text p ++ [nl],
   page_offsets ++ [(py.len full_text, page_number p)]).

Definition build_full_text (pages : list PageText) : list N * list (Z * Z) :=
  foldl add_page ([], []) pages.

(** [re.split(r"(\n\n+)", text)]: the pieces between the maximal runs of two
    or more newlines, the runs themselves in between.  [txt] is the piece
    read so far, [nls] the number of newlines read after it. *)
Fixpoint re_split_aux (txt : list N) (nls : nat) (s : list N)
  : list (list N) :=
  match s with
  | [] =>
      if (2 <=? nls)%nat then [txt; replicate nls nl; []]
      else [txt ++ replicate nls nl]
  | c :: s' =>
      if (c =? nl)%N then re_split_aux txt (S nls) s'
      else if (2 <=? nls)%nat then
        txt :: replicate nls nl :: re_split_aux [c] 0 s'
      else re_split_aux (txt ++ replicate nls nl ++ [c]) 0 s'
  end.

Definition re_split (s : list N) : list (list N) := re_split_aux [] 0 s.

(** [re.match(r"\n\n+", part)]: the part starts with two newlines. *)
Definition re_match_delim (part : list N) : bool :=
  match part with
  | a :: b :: _ => (a =? nl)%N && (b =? nl)%N
  | _ => false
  end.

(** The [while i < len(parts)] loop of [_split_paragraphs]. *)
Fixpoint merge_parts (parts : list (list N)) : list (list N * Z) :=
  match parts with
  | [] => []
  | part :: rest =>
      match rest with
      | next :: rest' =>
          if re_match_delim next then
            let combined := part ++ next in
            (combined, py.len combined) :: merge_parts rest'
          else (part, py.len part) :: merge_parts rest
      | [] => [(part, py.len part)]
      end
  end.

Definition _split_paragraphs (text : list N) : list (list N * Z) :=
  merge_parts (re_split text).

(** The [for ... else: break] loop of [_lookup_page]. *)
Fixpoint _lookup_page_loop (result : option Z) (char_offset : Z)
    (page_offsets : list (Z * Z)) : option Z :=
  match page_offsets with
  | [] => result
  | (offset, page_num) :: rest =>
      if (offset <=? char_offset)%Z then
        _lookup_page_loop (Some page_num) char_offset rest
      else result
  end.

Definition _lookup_page (char_offset : Z) (page_offsets : list (Z * Z))
  : option Z :=
  _lookup_page_loop None char_offset page_offsets.

(** [_emit_chunk] appends to [chunks] in place; here it returns the list. *)
Definition _emit_chunk (chunks : list ChunkData) (text : list N)
    (char_start : Z) (page_offsets : list (Z * Z)) : list ChunkData :=
  let content := py.strip text in
  match content with
  | [] => chunks
  | _ =>
      let char_end := (char_start + py.len text)%Z in
      let page_number := _lookup_page char_start page_offsets in
      chunks ++ [mkChunkData (py.len chunks) content page_number char_start
                   char_end (py.len content / 4)%Z]
  end.

(** The variables of the paragraph loop of [chunk_pages]. *)
Record LoopState := mkLoopState {
  chunks : list ChunkData;
  buf : list N;
  buf_start : Z;
  text_cursor : Z
}.

Definition blank (s : list N) : bool :=
  match py.strip s with [] => true | _ => false end.

(** One iteration of [for para, para_len in paragraphs]. *)
Definition para_step (target_chars overlap_chars : Z)
    (page_offsets : list (Z * Z)) (st : LoopState) (p : list N * Z)
  : LoopState :=
  let '(para, para_len) := p in
  let text_cursor' := (text_cursor st + para_len)%Z in
  if blank para then
    mkLoopState (chunks st) (buf st ++ para) (buf_start st) text_cursor'
  else if negb (bool_decide (buf st = []))
          && (target_chars <? py.len (buf st) + py.len para)%Z then
    let chunks' := _emit_chunk (chunks st) (buf st) (buf_start st) page_offsets in
    let overlap_text :=
      if (overlap_chars <? py.len (buf st))%Z
      then py.slice_from (buf st) (- overlap_chars)
      else buf st in
    let buf_start' :=
      (buf_start st + py.len (buf st) - py.len overlap_text)%Z in
    mkLoopState chunks' (overlap_text ++ para) buf_start' text_cursor'
  else
    mkLoopState (chunks st) (buf st ++ para) (buf_start st) text_cursor'.

Definition chunk_pages (pages : list PageText)
    (target_chars overlap_chars : Z) : list ChunkData :=
  match pages with
  | [] => []
  | _ =>
      let '(full_text, page_offsets) := build_full_text pages in
      if blank full_text then []
      else
        let paragraphs := _split_paragraphs full_text in
        let st :=
          foldl (para_step target_chars overlap_chars page_offsets)
                (mkLoopState [] [] 0 0) paragraphs in
        if blank (buf st) then chunks st
        else _emit_chunk (chunks st) (buf st) (buf_start st) page_offsets
  end.

End chunker.

(** ** app/db/sqlite.py: the relational store, as far as the pipeline uses it

    SQLite statements are taken to succeed.  What the external collaborators
    do (PDF library, vector store, graph store, LLM) is an input, [Env]. *)
Module sqlite.

(** models/document.py, [DocumentStatus]. *)
Inductive DocumentStatus :=
| PENDING | EXTRACTING | CHUNKING | EMBEDDING | EXTRACTING_CONCEPTS
| CONCEPTS_READY | READY | NEEDS_OCR | ERROR.

#[global] Instance DocumentStatus_eq_dec : EqDecision DocumentStatus.
Proof. solve_decision. Defined.

Record Document := mkDocument {
  title : string;
  author : string;
  file_path : string;
  page_count : Z;
  status : DocumentStatus;
  concept_count : Z
}.

Record ChunkRow := mkChunkRow {
  id : string;
  document_id : string;
  data : chunker.ChunkData;
  has_embedding : bool
}.

Record TocItem := mkTocItem {
  level : Z;
  toc_title : string;
  toc_page_number : Z
}.

(** The sub-stages of the LLM stage. *)
Inductive SubStage := CONCEPTS | FLASHCARDS.

Record DB := mkDB {
  documents : gmap string Document;
  chunks : list ChunkRow;                   (* in insertion order *)
  toc_entries : list (string * Z * TocItem);  (* document id, sort_order, item *)
  flashcards : list (string * string);      (* document id, chunk id *)
  settings : gmap string string;
  (* outside SQLite *)
  chroma : list (string * string);          (* vector store: chunk id, document id *)
  uuid_counter : nat;                       (* number of uuid4() calls so far *)
  (* observation only: every status written, every chunk sent to the LLM,
     oldest first *)
  status_log : list (string * DocumentStatus);
  llm_calls : list (SubStage * string)
}.

(** A coroutine working on the store: it returns or raises, and leaves a
    store behind in both cases. *)
Inductive Result (A : Type) :=
| Return (a : A)
| Raise.
Arguments Return {A} a.
Arguments Raise {A}.

Definition M (A : Type) : Type := DB -> Result A * DB.

Definition ret {A} (a : A) : M A := fun db => (Return a, db).

Definition raise {A} : M A := fun db => (Raise, db).

Definition bind {A B} (m : M A) (k : A -> M B) : M B :=
  fun db =>
    match m db with
    | (Return a, db') => k a db'
    | (Raise, db') => (Raise, db')
    end.

(** [try: m  except Exception: h] *)
Definition try_except {A} (m : M A) (h : M A) : M A :=
  fun db =>
    match m db with
    | (Return a, db') => (Return a, db')
    | (Raise, db') => h db'
    end.

Definition gets {A} (f : DB -> A) : M A := fun db => (Return (f db), db).

Definition modify (f : DB -> DB) : M unit := fun db => (Return tt, f db).

Declare Scope coro_scope.
Delimit Scope coro_scope with coro.
Notation "x <- m ;; k" := (bind m (fun x => k))
  (at level 100, m at next level, right associativity) : coro_scope.
Notation "m ;; k" := (bind m (fun _ => k))
  (at level 100, right associativity) : coro_scope.
Local Open Scope coro_scope.

Definition set_documents (f : gmap string Document -> gmap string Document)
    (db : DB) : DB :=
  mkDB (f (documents db)) (chunks db) (toc_entries db) (flashcards db)
       (settings db) (chroma db) (uuid_counter db) (status_log db)
       (llm_calls db).

Definition set_chunks (f : list ChunkRow -> list ChunkRow) (db : DB) : DB :=
  mkDB (documents db) (f (chunks db)) (toc_entries db) (flashcards db)
       (settings db) (chroma db) (uuid_counter db) (status_log db)
       (llm_calls db).

Definition log_status (doc_id : string) (s : DocumentStatus) (db : DB) : DB :=
  mkDB (documents db) (chunks db) (toc_entries db) (flashcards db)
       (settings db) (chroma db) (uuid_counter db)
       (status_log db ++ [(doc_id, s)]) (llm_calls db).

Definition log_llm_call (stage : SubStage) (chunk_id : string) (db : DB) : DB :=
  mkDB (documents db) (chunks db) (toc_entries db) (flashcards db)
       (settings db) (chroma db) (uuid_counter db) (status_log db)
       (llm_calls db ++ [(stage, chunk_id)]).

Definition get_document (doc_id : string) : M (option Document) :=
  gets (fun db => documents db !! doc_id).

(** [update_document(db, doc_id, DocumentUpdate(status=status))]:
    [UPDATE documents SET status = ?, updated_at = ? WHERE id = ?]. *)
Definition update_document_status (doc_id : string) (s : DocumentStatus)
  : M unit :=
  modify (fun db =>
    log_status doc_id s
      (set_documents
         (alter (fun d => mkDocument (title d) (author d) (file_path d)
                            (page_count d) s (concept_count d)) doc_id) db)).

(** [SELECT * FROM documents WHERE status IN (...)]. *)
Definition find_documents_by_status (statuses : list DocumentStatus) (db : DB)
  : list (string * Document) :=
  map_to_list (filter (fun kd => status kd.2 ∈ statuses) (documents db)).

Definition get_setting (key : string) : M (option string) :=
  gets (fun db => settings db !! key).

(** [str(uuid.uuid4())]: the [n]-th identifier drawn is [uuid4 n]. *)
Definition fresh_uuid (uuid4 : nat -> string) : M string :=
  fun db =>
    (Return (uuid4 (uuid_counter db)),
     mkDB (documents db) (chunks db) (toc_entries db) (flashcards db)
          (settings db) (chroma db) (S (uuid_counter db)) (status_log db)
          (llm_calls db)).

(** [insert_chunks]: one row per chunk, [has_embedding = 0]; returns the
    generated ids. *)
Fixpoint insert_chunks (uuid4 : nat -> string) (doc_id : string)
    (cs : list chunker.ChunkData) : M (list string) :=
  match cs with
  | [] => ret []
  | c :: cs' =>
      chunk_id <- fresh_uuid uuid4 ;;
      modify (set_chunks (fun rows =>
                rows ++ [mkChunkRow chunk_id doc_id c false])) ;;
      ids <- insert_chunks uuid4 doc_id cs' ;;
      ret (chunk_id :: ids)
  end.

(** [UPDATE chunks SET has_embedding = 1 WHERE document_id = ?]. *)
Definition update_chunks_embedding (doc_id : string) : M unit :=
  modify (set_chunks (fmap (fun r =>
    if decide (document_id r = doc_id)
    then mkChunkRow (id r) (document_id r) (data r) true
    else r))).

Fixpoint insert_toc_loop (doc_id : string) (i : Z) (items : list TocItem)
    (acc : list (string * Z * TocItem)) : list (string * Z * TocItem) :=
  match items with
  | [] => acc
  | item :: rest =>
      insert_toc_loop doc_id (i + 1) rest (acc ++ [(doc_id, i, item)])
  end.

Definition insert_toc_entries (doc_id : string) (toc_items : list TocItem)
  : M unit :=
  modify (fun db =>
    mkDB (documents db) (chunks db)
         (insert_toc_loop doc_id 0 toc_items (toc_entries db))
         (flashcards db) (settings db) (chroma db) (uuid_counter db)
         (status_log db) (llm_calls db)).

(** The order of [ORDER BY chunk_index]. *)
Definition index_le (a b : ChunkRow) : Prop :=
  (chunker.chunk_index (data a) <= chunker.chunk_index (data b))%Z.

#[global] Instance index_le_dec : RelDecision index_le.
Proof. intros a b. unfold index_le. apply _. Defined.

(** [SELECT id, content FROM chunks WHERE document_id = ? AND
    has_embedding = 1 ORDER BY chunk_index LIMIT ?]. *)
Definition select_embedded_chunks (doc_id : string) (limit : nat) (db : DB)
  : list ChunkRow :=
  take limit
    (merge_sort index_le
       (filter (fun r => document_id r = doc_id ∧ has_embedding r = true)
               (chunks db))).

End sqlite.

(** ** app/services/pdf_extractor.py *)
Module pdf_extractor.

Definition _OCR_THRESHOLD_CHARS_PER_PAGE : Z := 50.

(** What PyMuPDF reads from a file: metadata, the text of every page, the
    table of contents. *)
Record FitzDoc := mkFitzDoc {
  meta_title : string;
  meta_author : string;
  page_texts : list (list N);
  get_toc : list sqlite.TocItem
}.

Record PdfExtraction := mkPdfExtraction {
  title : string;
  author : string;
  page_count : Z;
  pages : list chunker.PageText;
  toc : list sqlite.TocItem;
  needs_ocr : bool
}.

(** [PageText(page_number=i + 1, text=text)] for [i, page in enumerate(doc)]. *)
Fixpoint enumerate_pages (i : Z) (texts : list (list N))
  : list chunker.PageText :=
  match texts with
  | [] => []
  | t :: rest => chunker.mkPageText (i + 1) t :: enumerate_pages (i + 1) rest
  end.

Definition extract_pdf (doc : FitzDoc) : PdfExtraction :=
  let pages := enumerate_pages 0 (page_texts doc) in
  let total_chars :=
    foldr Z.add 0%Z ((fun p => py.len (py.strip (chunker.text p))) <$> pages) in
  let avg_chars :=
    (inject_Z total_chars / inject_Z (py.max (py.len pages) 1))%Q in
  let needs_ocr :=
    (0 <? py.len pages)%Z
    && py.Qltb avg_chars (inject_Z _OCR_THRESHOLD_CHARS_PER_PAGE) in
  mkPdfExtraction (meta_title doc) (meta_author doc)
    (py.len (page_texts doc)) pages (get_toc doc) needs_ocr.

End pdf_extractor.

(** ** The external collaborators of the pipeline *)
Module external.

(** What [chat_json] does for one chunk, together with what the code after
    the call makes of the reply. *)
Inductive LLMReply :=
| LLMUnavailableError      (* chat_json raises LLMUnavailableError *)
| LLMException             (* chat_json raises another exception *)
| LLMItems (n : nat)       (* a reply of the requested shape; [n] of its items
                              (concepts, cards) end up stored *)
| LLMMalformed.            (* a reply on which an unguarded access raises *)

Record Env := mkEnv {
  fitz_open : string -> option pdf_extractor.FitzDoc;  (* None: raises *)
  path_stem : string -> string;                        (* Path(p).stem *)
  uuid4 : nat -> string;
  chroma_delete : string -> bool;                      (* false: raises *)
  chroma_add : list string -> bool;                    (* false: raises *)
  ensure_doc_node : string -> bool;                    (* false: raises *)
  chat_concepts : string -> LLMReply;                  (* by chunk id *)
  chat_cards : string -> LLMReply                      (* by chunk id *)
}.

End external.

(** ** app/services/concept_extractor.py *)
Module concept_extractor.
Import sqlite external.
Local Open Scope coro_scope.

Definition MAX_CHUNKS : nat := 20.
Definition MIN_CHUNK_CHARS : Z := 100.

(** [for row in rows]: [continue] goes on with the rest, [break] returns. *)
Fixpoint chunk_loop (env : Env) (rows : list ChunkRow) (total_concepts : Z)
  : M Z :=
  match rows with
  | [] => ret total_concepts
  | row :: rest =>
      if (py.len (chunker.content (data row)) <? MIN_CHUNK_CHARS)%Z then
        chunk_loop env rest total_concepts
      else
        modify (log_llm_call CONCEPTS (id row)) ;;
        match chat_concepts env (id row) with
        | LLMUnavailableError => ret total_concepts
        | LLMException => chunk_loop env rest total_concepts
        | LLMItems n => chunk_loop env rest (total_concepts + Z.of_nat n)%Z
        | LLMMalformed => raise
        end
  end.

Definition extract_concepts_for_document (env : Env) (doc_id : string)
    (doc_title doc_author : string) : M Z :=
  rows <- gets (select_embedded_chunks doc_id MAX_CHUNKS) ;;
  match rows with
  | [] => ret 0%Z
  | _ =>
      (if ensure_doc_node env doc_id then ret tt else raise) ;;
      total_concepts <- chunk_loop env rows 0 ;;
      (if (0 <? total_concepts)%Z then
         modify (set_documents
                   (alter (fun d => mkDocument (title d) (author d)
                                      (file_path d) (page_count d) (status d)
                                      total_concepts) doc_id))
       else ret tt) ;;
      ret total_concepts
  end.

End concept_extractor.

(** ** app/services/flashcard_generator.py *)
Module flashcard_generator.
Import sqlite external.
Local Open Scope coro_scope.

Definition MAX_CHUNKS : nat := 10.
Definition MIN_CHUNK_CHARS : Z := 100.

Definition insert_cards (doc_id chunk_id : string) (n : nat) (db : DB) : DB :=
  mkDB (documents db) (chunks db) (toc_entries db)
       (flashcards db ++ replicate n (doc_id, chunk_id))
       (settings db) (chroma db) (uuid_counter db) (status_log db)
       (llm_calls db).

Fixpoint chunk_loop (env : Env) (doc_id : string) (rows : list ChunkRow)
    (total_cards : Z) : M Z :=
  match rows with
  | [] => ret total_cards
  | row :: rest =>
      if (py.len (chunker.content (data row)) <? MIN_CHUNK_CHARS)%Z then
        chunk_loop env doc_id rest total_cards
      else
        modify (log_llm_call FLASHCARDS (id row)) ;;
        match chat_cards env (id row) with
        | LLMUnavailableError => ret total_cards
        | LLMException => chunk_loop env doc_id rest total_cards
        | LLMItems n =>
            modify (insert_cards doc_id (id row) n) ;;
            chunk_loop env doc_id rest (total_cards + Z.of_nat n)%Z
        | LLMMalformed => raise
        end
  end.

Definition generate_flashcards_for_document (env : Env) (doc_id : string)
  : M Z :=
  rows <- gets (select_embedded_chunks doc_id MAX_CHUNKS) ;;
  match rows with
  | [] => ret 0%Z
  | _ => chunk_loop env doc_id rows 0
  end.

End flashcard_generator.

(** ** app/services/ingestion.py *)
Module ingestion.
Import sqlite external.
Local Open Scope coro_scope.

Definition CHROMA_BATCH_SIZE : nat := 100.

Definition _set_status (doc_id : string) (s : DocumentStatus) : M unit :=
  update_document_status doc_id s.

(** Status always advances to [concepts_ready] at the end. *)
Definition _run_llm_stage (env : Env) (doc_id doc_title doc_author : string)
  : M unit :=
  _set_status doc_id EXTRACTING_CONCEPTS ;;
  try_except
    (n_concepts <- concept_extractor.extract_concepts_for_document
                     env doc_id doc_title doc_author ;;
     ret tt)
    (ret tt) ;;
  try_except
    (n_cards <- flashcard_generator.generate_flashcards_for_document
                  env doc_id ;;
     ret tt)
    (ret tt) ;;
  _set_status doc_id CONCEPTS_READY.

(** [for i in range(0, len(chunks), CHROMA_BATCH_SIZE)]; [fuel] bounds the
    number of iterations, [length chunks] is enough. *)
Fixpoint embed_batches (fuel : nat) (env : Env) (doc_id : string)
    (chunks : list chunker.ChunkData) (chunk_ids : list string) : M unit :=
  match fuel with
  | O => ret tt
  | S fuel' =>
      match chunks with
      | [] => ret tt
      | _ =>
          let batch_ids := take CHROMA_BATCH_SIZE chunk_ids in
          if chroma_add env batch_ids then
            modify (fun db =>
              mkDB (documents db) (sqlite.chunks db) (toc_entries db)
                   (flashcards db) (settings db)
                   (chroma db ++ ((fun i => (i, doc_id)) <$> batch_ids))
                   (uuid_counter db) (status_log db) (llm_calls db)) ;;
            embed_batches fuel' env doc_id (drop CHROMA_BATCH_SIZE chunks)
              (drop CHROMA_BATCH_SIZE chunk_ids)
          else raise
      end
  end.

Definition update_metadata (env : Env) (doc_id : string) (doc : Document)
    (extraction : pdf_extractor.PdfExtraction) : M unit :=
  let new_title :=
    if negb (bool_decide (pdf_extractor.title extraction = EmptyString))
       && bool_decide (title doc = path_stem env (file_path doc))
    then pdf_extractor.title extraction else title doc in
  let new_author :=
    if negb (bool_decide (pdf_extractor.author extraction = EmptyString))
       && bool_decide (author doc = EmptyString)
    then pdf_extractor.author extraction else author doc in
  modify (set_documents
            (alter (fun d => mkDocument new_title new_author (file_path d)
                               (pdf_extractor.page_count extraction)
                               (status d) (concept_count d)) doc_id)).

Definition non_empty_setting (o : option string) : bool :=
  match o with
  | Some v => negb (bool_decide (v = EmptyString))
  | None => false
  end.

(** The body of the [try] of [process_document]. *)
Definition process_document_body (env : Env) (doc_id : string) : M unit :=
  _set_status doc_id EXTRACTING ;;
  doc <- get_document doc_id ;;
  match doc with
  | None => ret tt
  | Some doc =>
      fitz <- (match fitz_open env (file_path doc) with
               | Some f => ret f
               | None => raise
               end) ;;
      let extraction := pdf_extractor.extract_pdf fitz in
      update_metadata env doc_id doc extraction ;;
      (match pdf_extractor.toc extraction with
       | [] => ret tt
       | _ :: _ => insert_toc_entries doc_id (pdf_extractor.toc extraction)
       end) ;;
      if pdf_extractor.needs_ocr extraction then
        _set_status doc_id NEEDS_OCR
      else
        _set_status doc_id CHUNKING ;;
        let chunks :=
          chunker.chunk_pages (pdf_extractor.pages extraction)
            chunker.TARGET_CHARS chunker.OVERLAP_CHARS in
        match chunks with
        | [] => _set_status doc_id READY
        | _ =>
            chunk_ids <- insert_chunks (uuid4 env) doc_id chunks ;;
            _set_status doc_id EMBEDDING ;;
            (if chroma_delete env doc_id then
               modify (fun db =>
                 mkDB (documents db) (sqlite.chunks db) (toc_entries db)
                      (flashcards db) (settings db)
                      (filter (fun e => e.2 <> doc_id) (chroma db))
                      (uuid_counter db) (status_log db) (llm_calls db))
             else ret tt) ;;
            embed_batches (length chunks) env doc_id chunks chunk_ids ;;
            update_chunks_embedding doc_id ;;
            llm_model_id <- get_setting "llm_model_id" ;;
            llm_model_path <- get_setting "llm_model_path" ;;
            doc' <- get_document doc_id ;;
            let doc := default doc doc' in
            if non_empty_setting llm_model_id
               || non_empty_setting llm_model_path then
              _run_llm_stage env doc_id (title doc) (author doc)
            else _set_status doc_id READY
        end
  end.

Definition process_document (env : Env) (doc_id : string) : M unit :=
  try_except (process_document_body env doc_id)
    (try_except (_set_status doc_id ERROR) (ret tt)).

(** Standalone LLM stage, used by crash recovery. *)
Definition run_llm_stage_for_doc (env : Env) (doc_id : string) : M unit :=
  try_except
    (doc <- get_document doc_id ;;
     match doc with
     | None => ret tt
     | Some doc => _run_llm_stage env doc_id (title doc) (author doc)
     end)
    (try_except (_set_status doc_id READY) (ret tt)).

End ingestion.

(** ** app/services/task_registry.py *)
Module task_registry.
Import sqlite.

(** The coroutines handed to [start_task]. *)
Inductive Coroutine :=
| process_document (doc_id : string)
| run_llm_stage_for_doc (doc_id : string).

(** An asyncio task: the document id it was registered under, its coroutine,
    whether it is done. *)
Record Task := mkTask {
  task_doc : string;
  coro : Coroutine;
  done : bool
}.

(** The event loop and the module variable [_running_tasks].  A task is
    identified by its position in [tasks], the order of creation. *)
Record Registry := mkRegistry {
  tasks : list Task;
  _running_tasks : gmap string nat
}.

Definition empty_registry : Registry := mkRegistry [] ∅.

(** Create an asyncio task and register it by document ID. *)
Definition start_task (doc_id : string) (c : Coroutine) (r : Registry)
  : Registry :=
  mkRegistry (tasks r ++ [mkTask doc_id c false])
             (<[doc_id := length (tasks r)]> (_running_tasks r)).

(** Task number [t] finishes: its done-callback runs
    [_running_tasks.pop(doc_id, None)]. *)
Definition finish_task (t : nat) (r : Registry) : Registry :=
  match tasks r !! t with
  | Some task =>
      mkRegistry (<[t := mkTask (task_doc task) (coro task) true]> (tasks r))
                 (delete (task_doc task) (_running_tasks r))
  | None => r
  end.

Definition get_task (doc_id : string) (r : Registry) : option Task :=
  t ← _running_tasks r !! doc_id; tasks r !! t.

Definition is_processing (doc_id : string) (r : Registry) : bool :=
  match get_task doc_id r with
  | Some task => negb (done task)
  | None => false
  end.

(** Re-queue documents stuck in processing state from a previous crash. *)
Definition recover_stuck_documents (db : DB) (r : Registry) : Registry :=
  let stuck_pipeline :=
    find_documents_by_status [EXTRACTING; CHUNKING; EMBEDDING] db in
  let r1 :=
    foldl (fun r doc => start_task doc.1 (process_document doc.1) r)
          r stuck_pipeline in
  let stuck_llm := find_documents_by_status [EXTRACTING_CONCEPTS] db in
  foldl (fun r doc => start_task doc.1 (run_llm_stage_for_doc doc.1) r)
        r1 stuck_llm.

(** What a task runs. *)
Definition run_coroutine (env : external.Env) (c : Coroutine) : M unit :=
  match c with
  | process_document doc_id => ingestion.process_document env doc_id
  | run_llm_stage_for_doc doc_id => ingestion.run_llm_stage_for_doc env doc_id
  end.

End task_registry.

From Stdlib Require Import Lqa.

(** ** The other endpoints of app/routers/quiz.py, with the flashcard
    helpers of app/db/sqlite.py they call *)
Module quiz_cards.
Import quiz.

(** [FlashcardUpdate]: the fields left out of the request are [None]. *)
Record FlashcardUpdate := mkFlashcardUpdate {
  u_question : option string;
  u_answer : option string
}.

(** [next_review <= date('now') OR next_review IS NULL]; [today] is the
    date SQLite reads. *)
Definition is_due (today : Z) (c : Flashcard) : bool :=
  match next_review c with
  | None => true
  | Some d => (d <=? today)%Z
  end.

(** The order of [ORDER BY COALESCE(next_review, '0000') ASC]: a card never
    reviewed comes before every dated one. *)
Definition due_le (a b : string * Flashcard) : Prop :=
  match next_review a.2, next_review b.2 with
  | None, _ => True
  | Some _, None => False
  | Some x, Some y => (x <= y)%Z
  end.

#[global] Instance due_le_dec : RelDecision due_le.
Proof.
  intros a b. unfold due_le.
  destruct (next_review a.2), (next_review b.2); apply _.
Defined.

(** The WHERE clause of [get_due_flashcards]; [if doc_id:] holds for a
    document id that is neither None nor empty. *)
Definition due_row (today : Z) (doc_id : option string)
    (kc : string * Flashcard) : bool :=
  is_due today kc.2
  && match truthy_id doc_id with
     | Some d => bool_decide (document_id kc.2 = d)
     | None => true
     end.

Definition get_due_flashcards (today : Z) (limit : nat)
    (doc_id : option string) (st : Store) : list (string * Flashcard) :=
  take limit
    (merge_sort due_le
       (filter (fun kc => due_row today doc_id kc = true)
               (map_to_list (flashcards st)))).

(** GET /quiz/due: the items and their number. *)
Definition get_due (today : Z) (limit : nat) (doc_id : option string)
    (st : Store) : list (string * Flashcard) * Z :=
  let items := get_due_flashcards today limit doc_id st in
  (items, py.len items).

(** [update_flashcard_content]: [None] when the card does not exist. *)
Definition update_flashcard_content (now : Z) (card_id : string)
    (update : FlashcardUpdate) (st : Store) : option Flashcard * Store :=
  match get_flashcard st card_id with
  | None => (None, st)
  | Some card =>
      let new_q := default (question card) (u_question update) in
      let new_a := default (answer card) (u_answer update) in
      let st' :=
        mkStore
          (alter (fun c => mkFlashcard (document_id c) (chunk_id c) new_q
                             new_a (difficulty c) (interval c)
                             (repetitions c) (next_review c) now)
                 card_id (flashcards st))
          (graph st) (mastery_calls st) in
      (get_flashcard st' card_id, st')
  end.

(** [delete_flashcard]: whether a row was deleted. *)
Definition delete_flashcard (card_id : string) (st : Store) : bool * Store :=
  (bool_decide (is_Some (flashcards st !! card_id)),
   mkStore (delete card_id (flashcards st)) (graph st) (mastery_calls st)).

(** A response that carries a card, no content (204), or an error. *)
Inductive CardResponse :=
| CardError (status_code : Z)
| CardOk (c : Flashcard)
| NoContent.

(** GET /quiz/{card_id} *)
Definition get_card (card_id : string) (st : Store) : CardResponse :=
  match get_flashcard st card_id with
  | None => CardError 404
  | Some card => CardOk card
  end.

(** PATCH /quiz/{card_id} *)
Definition edit_card (now : Z) (card_id : string) (body : FlashcardUpdate)
    (st : Store) : CardResponse * Store :=
  match update_flashcard_content now card_id body st with
  | (None, st') => (CardError 404, st')
  | (Some updated, st') => (CardOk updated, st')
  end.

(** DELETE /quiz/{card_id} *)
Definition remove_card (card_id : string) (st : Store)
  : CardResponse * Store :=
  match delete_flashcard card_id st with
  | (false, st') => (CardError 404, st')
  | (true, st') => (NoContent, st')
  end.

End quiz_cards.

(** ** Properties named by the specification, and the inputs of its scenarios *)
Module spec.
Import sqlite.

(** *** Scheduler *)

(** A rational within [[lo, hi]]. *)
Definition within (lo hi x : Q) : Prop := (lo <= x)%Q /\ (x <= hi)%Q.

(** A graph with one concept, linked to chunk [ch1], whose stored mastery is
    close to the upper bound. *)
Definition graph1 : kuzu_.Graph :=
  kuzu_.mkGraph {[ "k1" := kuzu_.mkConcept "Monads" 0.97 4 ]}
                [kuzu_.mkExtractedFrom "k1" "d1" "ch1"].

Definition card1 : quiz.Flashcard :=
  quiz.mkFlashcard "d1" (Some "ch1") "Q?" "A." 0.3 6 1 None 0.

Definition store1 : quiz.Store :=
  quiz.mkStore {[ "card1" := card1 ]} graph1 [].

(** *** Pipeline statuses *)

(** The position of a status in the pipeline order
    pending, extracting, chunking, embedding, extracting_concepts,
    concepts_ready, ready; [needs_ocr] and [error] are outside it. *)
Definition rank (s : DocumentStatus) : option nat :=
  match s with
  | PENDING => Some 0
  | EXTRACTING => Some 1
  | CHUNKING => Some 2
  | EMBEDDING => Some 3
  | EXTRACTING_CONCEPTS => Some 4
  | CONCEPTS_READY => Some 5
  | READY => Some 6
  | NEEDS_OCR | ERROR => None
  end.

(** The status moves backwards in the pipeline order. *)
Definition moves_backwards (s s' : DocumentStatus) : bool :=
  match rank s, rank s' with
  | Some i, Some j => bool_decide (j < i)
  | _, _ => false
  end.

(** A transition the pipeline makes in a run: forward in the pipeline order
    (or a rewrite of the same status), or into one of the two terminal
    classifications. *)
Definition forward_or_terminal (s s' : DocumentStatus) : bool :=
  match s' with
  | ERROR | NEEDS_OCR => true
  | _ =>
      match rank s, rank s' with
      | Some i, Some j => bool_decide (i <= j)
      | _, _ => false
      end
  end.

(** The status sequences the body of [process_document] can write, each
    with whether the body then returns ([true]) or raises ([false]). *)
Definition body_traces : list (bool * list DocumentStatus) :=
  [ (false, [EXTRACTING]);
    (true, [EXTRACTING; NEEDS_OCR]);
    (true, [EXTRACTING; CHUNKING; READY]);
    (false, [EXTRACTING; CHUNKING; EMBEDDING]);
    (true, [EXTRACTING; CHUNKING; EMBEDDING; READY]);
    (true, [EXTRACTING; CHUNKING; EMBEDDING; EXTRACTING_CONCEPTS;
            CONCEPTS_READY]) ].

(** The status sequences of [process_document]: its handler writes [error]
    after a body that raised. *)
Definition run_traces : list (list DocumentStatus) :=
  (fun t : bool * list DocumentStatus =>
     if t.1 then t.2 else t.2 ++ [ERROR]) <$> body_traces.

(** The status of document [doc_id] in the store. *)
Definition status_of (doc_id : string) (db : DB) : option DocumentStatus :=
  status <$> documents db !! doc_id.

(** What a coroutine has appended to the status log. *)
Definition new_log (before after : DB) : list (string * DocumentStatus) :=
  drop (length (status_log before)) (status_log after).

(** The statuses written for one document. *)
Definition statuses_written (doc_id : string) (before after : DB)
  : list DocumentStatus :=
  snd <$> filter (fun e => e.1 = doc_id) (new_log before after).

(** The transitions of a document whose status was [s0] and for which the
    statuses [ws] were then written, in this order. *)
Fixpoint transitions (s0 : DocumentStatus) (ws : list DocumentStatus)
  : list (DocumentStatus * DocumentStatus) :=
  match ws with
  | [] => []
  | s :: ws' => (s0, s) :: transitions s ws'
  end.

(** The move recovery makes when it restarts a document that was stuck in
    chunking or embedding. *)
Definition restart (s s' : DocumentStatus) : bool :=
  bool_decide (s' = EXTRACTING)
  && (bool_decide (s = CHUNKING) || bool_decide (s = EMBEDDING)).

(** The transitions of a run the recovery sweep has started: the first may
    be the restart, the others are forward or terminal. *)
Definition forward_after_restart (s0 : DocumentStatus)
    (ws : list DocumentStatus) : Prop :=
  match transitions s0 ws with
  | [] => True
  | t :: ts =>
      (forward_or_terminal t.1 t.2 = true \/ restart t.1 t.2 = true)
      /\ Forall (fun t => forward_or_terminal t.1 t.2 = true) ts
  end.

Definition never_backwards (s0 : DocumentStatus) (ws : list DocumentStatus)
  : Prop :=
  Forall (fun t => moves_backwards t.1 t.2 = false) (transitions s0 ws).

Definition all_forward_or_terminal (s0 : DocumentStatus)
    (ws : list DocumentStatus) : Prop :=
  Forall (fun t => forward_or_terminal t.1 t.2 = true) (transitions s0 ws).

(** The store [db] after the LLM sub-stages have inserted [cards] and sent
    [calls]. *)
Definition with_llm (cards : list (string * string))
    (calls : list (SubStage * string)) (db : DB) : DB :=
  mkDB (documents db) (chunks db) (toc_entries db) (flashcards db ++ cards)
       (settings db) (chroma db) (uuid_counter db) (status_log db)
       (llm_calls db ++ calls).

(** What the LLM sub-stages leave alone: everything but the flashcard rows,
    the log of LLM calls and the fields of a document other than its
    status. *)
Definition llm_frame (db db' : DB) : Prop :=
  chunks db' = chunks db
  /\ toc_entries db' = toc_entries db
  /\ settings db' = settings db
  /\ chroma db' = chroma db
  /\ uuid_counter db' = uuid_counter db
  /\ status_log db' = status_log db
  /\ (status <$> documents db') = (status <$> documents db).

(** *** Task registry *)

(** The executions that are active (created, not done) for a document id. *)
Definition active (doc_id : string) (r : task_registry.Registry)
  : list task_registry.Task :=
  filter (fun t => task_registry.task_doc t = doc_id
                   /\ task_registry.done t = false)
         (task_registry.tasks r).

(** *** LLM sub-stages *)

(** A reply after which the loop over the chunks is left. *)
Definition stops (reply : external.LLMReply) : bool :=
  match reply with
  | external.LLMUnavailableError | external.LLMMalformed => true
  | _ => false
  end.

(** The chunks long enough to be sent to the LLM. *)
Definition eligible (min_chars : Z) (rows : list ChunkRow) : list ChunkRow :=
  filter (fun r => (min_chars <= py.len (chunker.content (data r)))%Z) rows.

(** The rows up to and including the first whose reply leaves the loop. *)
Fixpoint until_stop (chat : string -> external.LLMReply)
    (rows : list ChunkRow) : list ChunkRow :=
  match rows with
  | [] => []
  | r :: rest =>
      if stops (chat (id r)) then [r] else r :: until_stop chat rest
  end.

(** The chunks the concept sub-stage sends to the LLM: none when the graph
    store refuses the document node, otherwise the eligible ones among the
    selected rows, in their order, until a reply leaves the loop. *)
Definition concept_rows (env : external.Env) (doc_id : string) (db : DB)
  : list ChunkRow :=
  if external.ensure_doc_node env doc_id then
    until_stop (external.chat_concepts env)
      (eligible concept_extractor.MIN_CHUNK_CHARS
         (select_embedded_chunks doc_id concept_extractor.MAX_CHUNKS db))
  else [].

(** The chunks the flashcard sub-stage sends to the LLM. *)
Definition card_rows (env : external.Env) (doc_id : string) (db : DB)
  : list ChunkRow :=
  until_stop (external.chat_cards env)
    (eligible flashcard_generator.MIN_CHUNK_CHARS
       (select_embedded_chunks doc_id flashcard_generator.MAX_CHUNKS db)).

Definition calls_of (stage : SubStage) (rows : list ChunkRow)
  : list (SubStage * string) :=
  (fun r => (stage, id r)) <$> rows.

(** What a coroutine has appended to the log of LLM calls. *)
Definition new_calls (before after : DB) : list (SubStage * string) :=
  drop (length (llm_calls before)) (llm_calls after).

(** The chunk indices of the chunks with the given ids, in the order of the
    ids. *)
Definition indices_of (db : DB) (ids : list string) : list Z :=
  omap (fun i =>
          (fun r => chunker.chunk_index (data r))
            <$> list_find (fun r => id r = i) (chunks db) ≫= (fun p => Some p.2))
       ids.

(** "Most recent chunk first": the chunk indices decrease. *)
Definition most_recent_first (db : DB) (ids : list string) : Prop :=
  Sorted Z.gt (indices_of db ids).

(** *** Chunker *)

(** The text of the ranges [[char_start, char_end)] of the chunks, taken from
    [full] in the order of the chunks; where a range overlaps what came
    before, the overlap is taken once.  [pos] is the end of what has been
    taken so far. *)
Fixpoint stitch_from (full : list N) (pos : Z) (cs : list chunker.ChunkData)
  : list N :=
  match cs with
  | [] => []
  | c :: cs' =>
      py.slice full (Z.max pos (chunker.char_start c)) (chunker.char_end c)
      ++ stitch_from full (Z.max pos (chunker.char_end c)) cs'
  end.

Definition stitch (full : list N) (cs : list chunker.ChunkData) : list N :=
  stitch_from full 0 cs.

(** The end of what [stitch_from] has taken after the chunks [cs]. *)
Definition end_pos (pos : Z) (cs : list chunker.ChunkData) : Z :=
  foldl (fun pos c => Z.max pos (chunker.char_end c)) pos cs.

(** Only whitespace. *)
Definition all_space (s : list N) : bool := forallb py.isspace s.

(** The chunk indices count up from 0. *)
Definition contiguous_from_0 (cs : list chunker.ChunkData) : Prop :=
  chunker.chunk_index <$> cs = Z.of_nat <$> seq 0 (length cs).

(** What holds of the variables of the paragraph loop of [chunk_pages] when
    the first [k] characters of [full] have been read: the buffer is the
    text from [buf_start] to [k]; as long as no chunk has been emitted the
    text before the buffer is whitespace; afterwards the buffer is not
    blank and the chunks cover the text from some [s], after leading
    whitespace, to some [e] between [buf_start] and [k]. *)
Definition loop_inv (full : list N) (k : nat) (st : chunker.LoopState)
  : Prop :=
  chunker.text_cursor st = Z.of_nat k
  /\ contiguous_from_0 (chunker.chunks st)
  /\ exists n : nat,
      chunker.buf_start st = Z.of_nat n
      /\ n <= k
      /\ chunker.buf st = drop n (take k full)
      /\ ((chunker.chunks st = [] /\ all_space (take n full) = true)
          \/ (chunker.blank (chunker.buf st) = false
              /\ exists s e : nat,
                  s <= e /\ n <= e /\ e <= k
                  /\ all_space (take s full) = true
                  /\ stitch full (chunker.chunks st) = drop s (take e full)
                  /\ end_pos 0 (chunker.chunks st) = Z.of_nat e)).

(** The concatenated document text the offsets refer to. *)
Definition full_text (pages : list chunker.PageText) : list N :=
  (chunker.build_full_text pages).1.

(** *** Inputs of the scenarios *)

Definition A : N := 65%N.
Definition B : N := 66%N.

(** One page that starts with four newlines. *)
Definition pages_leading_newlines : list chunker.PageText :=
  [chunker.mkPageText 1 [chunker.nl; chunker.nl; chunker.nl; chunker.nl;
                         A; B; B]].

(** A first page of 300 blank lines, a second page of 2000 letters. *)
Definition pages_blank_first : list chunker.PageText :=
  [chunker.mkPageText 1 (replicate 300 chunker.nl);
   chunker.mkPageText 2 (replicate 2000 A)].

(** One page without text. *)
Definition pages_blank : list chunker.PageText := [chunker.mkPageText 1 []].

(** A page of 120 letters: above the OCR threshold, and one chunk that is
    long enough for the LLM. *)
Definition fitz1 : pdf_extractor.FitzDoc :=
  pdf_extractor.mkFitzDoc "" "" [replicate 120 A] [].

Definition doc_in (s : DocumentStatus) : Document :=
  mkDocument "paper" "" "/files/d1.pdf" 1 s 0.

Definition row (chunk_id doc_id : string) (index : Z) (n : nat)
    (embedded : bool) : ChunkRow :=
  mkChunkRow chunk_id doc_id
    (chunker.mkChunkData index (replicate n A) (Some 1%Z) 0 (Z.of_nat n)
       (Z.of_nat n / 4)) embedded.

(** A store with one document [d1] in status [s], two embedded chunks of it
    (indices 0 and 1, 120 characters each) and an LLM configured. *)
Definition db_with (s : DocumentStatus) : DB :=
  mkDB {[ "d1" := doc_in s ]}
       [row "c0" "d1" 0 120 true; row "c1" "d1" 1 120 true]
       [] [] {[ "llm_model_id" := "qwen" ]} [] 0 [] [].

(** The same store with eleven embedded chunks of [d1], of indices 0 to 10
    and 120 characters each, inserted in the order of their indices. *)
Definition db_eleven_chunks : DB :=
  mkDB {[ "d1" := doc_in EXTRACTING_CONCEPTS ]}
       ((fun i => row (String.append "c" (pretty i)) "d1" (Z.of_nat i) 120 true)
          <$> seq 0 11)
       [] [] {[ "llm_model_id" := "qwen" ]} [] 0 [] [].

(** Collaborators that all work; every LLM reply stores one item. *)
Definition env_ok : external.Env :=
  external.mkEnv (fun _ => Some fitz1) (fun _ => "paper")
    (fun n => String.append "u" (pretty n))
    (fun _ => true) (fun _ => true) (fun _ => true)
    (fun _ => external.LLMItems 1) (fun _ => external.LLMItems 1).

(** Collaborators with which both LLM sub-stages raise: the graph store
    refuses the document node, the card replies are malformed. *)
Definition env_llm_fails : external.Env :=
  external.mkEnv (fun _ => Some fitz1) (fun _ => "paper")
    (fun n => String.append "u" (pretty n))
    (fun _ => true) (fun _ => true) (fun _ => false)
    (fun _ => external.LLMItems 1) (fun _ => external.LLMMalformed).

End spec.

(** ** Definitions for the statements about the card endpoints *)
Module spec_cards.

(** Two rows of a card that agree on everything an edit of its text must
    leave alone: the SM-2 state, the date of the next review, the document
    and the chunk. *)
Definition same_schedule (c c' : quiz.Flashcard) : Prop :=
  quiz.document_id c' = quiz.document_id c
  /\ quiz.chunk_id c' = quiz.chunk_id c
  /\ quiz.difficulty c' = quiz.difficulty c
  /\ quiz.interval c' = quiz.interval c
  /\ quiz.repetitions c' = quiz.repetitions c
  /\ quiz.next_review c' = quiz.next_review c.

(** The chunk [chunk_id] has an EXTRACTED_FROM edge from concept [cid]. *)
Definition linked (g : kuzu_.Graph) (chunk_id cid : string) : Prop :=
  exists e, e ∈ kuzu_.extracted_from g
            /\ kuzu_.ef_chunk e = chunk_id /\ kuzu_.ef_concept e = cid.

End spec_cards.

(** ** Definitions for the statements about the chunker *)
Module spec_chunker.

(** The page offsets the chunker builds. *)
Definition page_offsets (pages : list chunker.PageText) : list (Z * Z) :=
  (chunker.build_full_text pages).2.

(** A chunk as [_emit_chunk] should leave it, for the text [full] and the
    page offsets [offs]: a non-empty range inside the text, the content is
    the text of the range without the whitespace at its ends and is not
    empty, the token count is a quarter of its length, and the page is the
    one looked up for the start of the range. *)
Definition well_formed (full : list N) (offs : list (Z * Z))
    (c : chunker.ChunkData) : Prop :=
  (0 <= chunker.char_start c < chunker.char_end c)%Z
  /\ (chunker.char_end c <= py.len full)%Z
  /\ chunker.content c
     = py.strip (py.slice full (chunker.char_start c) (chunker.char_end c))
  /\ chunker.content c <> []
  /\ chunker.token_count c = (py.len (chunker.content c) / 4)%Z
  /\ chunker.c_page_number c
     = chunker._lookup_page (chunker.char_start c) offs.

(** The length of the text up to the end of the pages [pre]. *)
Definition offset_after (pre : list chunker.PageText) : Z :=
  py.len (spec.full_text pre).

(** The offsets of the pages [pages] when the text before them has length
    [start]: each page is followed by one newline. *)
Fixpoint offsets_from (start : Z) (pages : list chunker.PageText)
  : list (Z * Z) :=
  match pages with
  | [] => []
  | p :: ps =>
      (start, chunker.page_number p)
      :: offsets_from (start + py.len (chunker.text p) + 1) ps
  end.

(** The text of the pages, each followed by a newline. *)
Definition pages_text (pages : list chunker.PageText) : list N :=
  concat ((fun p => chunker.text p ++ [chunker.nl]) <$> pages).

(** Each chunk after the first starts where the one before it started or
    [overlap_chars] characters before its end, whichever is later, and
    ends after it. *)
Definition adjacent_ok (overlap_chars : Z) (cs : list chunker.ChunkData)
  : Prop :=
  forall (i : nat) (a b : chunker.ChunkData),
    cs !! i = Some a -> cs !! S i = Some b ->
    chunker.char_start b
    = Z.max (chunker.char_start a) (chunker.char_end a - overlap_chars)
    /\ (chunker.char_end a < chunker.char_end b)%Z.

(** The buffer that follows the last chunk emitted starts as the next
    chunk will, and extends beyond that chunk. *)
Definition follows_last (overlap_chars : Z) (k : nat)
    (st : chunker.LoopState) : Prop :=
  match last (chunker.chunks st) with
  | None => True
  | Some c =>
      chunker.buf_start st
      = Z.max (chunker.char_start c) (chunker.char_end c - overlap_chars)
      /\ (chunker.char_end c < Z.of_nat k)%Z
  end.

(** A page with two paragraphs of four letters. *)
Definition pages_two_paragraphs : list chunker.PageText :=
  [chunker.mkPageText 1
     [spec.A; spec.A; spec.A; spec.A; chunker.nl; chunker.nl;
      spec.B; spec.B; spec.B; spec.B]].

End spec_chunker.

(** ** Definitions for the statements about the ingestion pipeline *)
Module spec_pipeline.
Import sqlite.

(** The next [n] identifiers [uuid4()] gives in the store [db]. *)
Definition new_ids (uuid4 : nat -> string) (db : DB) (n : nat)
  : list string :=
  uuid4 <$> seq (uuid_counter db) n.

(** The rows [insert_chunks] writes for the chunks [cs], with the given
    value of [has_embedding]. *)
Definition new_rows (uuid4 : nat -> string) (doc_id : string) (db : DB)
    (cs : list chunker.ChunkData) (flag : bool) : list ChunkRow :=
  zip_with (fun i c => mkChunkRow i doc_id c flag)
    (new_ids uuid4 db (length cs)) cs.

(** The rows after [UPDATE chunks SET has_embedding = 1 WHERE
    document_id = doc_id]. *)
Definition flagged (doc_id : string) (rows : list ChunkRow)
  : list ChunkRow :=
  (fun r => if decide (document_id r = doc_id)
            then mkChunkRow (id r) (document_id r) (data r) true
            else r) <$> rows.

(** The entries of the vector store for the chunk ids [ids]. *)
Definition vectors (doc_id : string) (ids : list string)
  : list (string * string) :=
  (fun i => (i, doc_id)) <$> ids.

(** The vector store after the attempt to delete the entries of the
    document, which is dropped when it raises. *)
Definition purged (env : external.Env) (doc_id : string)
    (v : list (string * string)) : list (string * string) :=
  if external.chroma_delete env doc_id
  then filter (fun e => e.2 <> doc_id) v
  else v.

(** The store with the rows of [cs] added. *)
Definition add_rows (uuid4 : nat -> string) (doc_id : string)
    (cs : list chunker.ChunkData) (db : DB) : DB :=
  mkDB (documents db) (chunks db ++ new_rows uuid4 doc_id db cs false)
       (toc_entries db) (flashcards db) (settings db) (chroma db)
       (uuid_counter db + length cs) (status_log db) (llm_calls db).

(** The store with the vectors of [ids] added. *)
Definition add_vectors (doc_id : string) (ids : list string) (db : DB) : DB :=
  mkDB (documents db) (chunks db) (toc_entries db) (flashcards db)
       (settings db) (chroma db ++ vectors doc_id ids) (uuid_counter db)
       (status_log db) (llm_calls db).

(** The number of characters of the page texts, without the whitespace at
    the ends of each page. *)
Definition stripped_chars (texts : list (list N)) : Z :=
  foldr Z.add 0%Z ((fun t => py.len (py.strip t)) <$> texts).

End spec_pipeline.

(** * Theorems *)

(** ** Python built-ins *)

Lemma Qltb_lt (a b : Q) : py.Qltb a b = true <-> (a < b)%Q.
Proof.
  unfold py.Qltb. rewrite negb_true_iff, <- not_true_iff_false, Qle_bool_iff.
  split; [apply Qnot_le_lt | apply Qlt_not_le].
Qed.

(** [max(lo, min(hi, x))] lies within [[lo, hi]], whatever [x] is. *)
Lemma clamp_within (lo hi x : Q) :
  (lo <= hi)%Q -> spec.within lo hi (py.fmax lo (py.fmin hi x)).
Proof.
  intros Hlh. unfold py.fmax, py.fmin, spec.within.
  destruct (py.Qltb x hi) eqn:Hx.
  - apply Qltb_lt in Hx. destruct (py.Qltb lo x) eqn:Hl.
    + apply Qltb_lt in Hl. split; apply Qlt_le_weak; assumption.
    + split; [apply Qle_refl | assumption].
  - destruct (py.Qltb lo hi) eqn:Hl.
    + split; [assumption | apply Qle_refl].
    + split; [apply Qle_refl | assumption].
Qed.

Lemma py_max_ge_l (a b : Z) : (a <= py.max a b)%Z.
Proof. unfold py.max. destruct (Z.ltb_spec a b); lia. Qed.

(** ** Scheduler (SM-2) *)

(** The four grades index [_GRADE_QUALITY]. *)
Lemma grade_quality_total (grade : Z) :
  (0 <= grade <= 3)%Z ->
  exists q, py.getitem quiz._GRADE_QUALITY grade = Some q /\ (0 <= q <= 5)%Z.
Proof.
  intros H.
  assert (grade = 0 \/ grade = 1 \/ grade = 2 \/ grade = 3)%Z
    as [-> | [-> | [-> | ->]]] by lia;
    eexists; (split; [reflexivity | lia]).
Qed.

(** C5. For every prior card state and every grade whose quality is below
    the pass threshold 3 (the grades 0 "fail" and 1 "hard"), [_compute_sm2]
    returns repetitions 0 and interval 1. *)
Theorem sm2_below_threshold_resets
    (today grade repetitions interval q : Z) (difficulty : Q) :
  py.getitem quiz._GRADE_QUALITY grade = Some q ->
  (q < 3)%Z ->
  exists new_difficulty,
    quiz._compute_sm2 today grade repetitions interval difficulty
    = Some (0%Z, 1%Z, new_difficulty, (today + 1)%Z).
Proof.
  intros Hq Hlt. unfold quiz._compute_sm2. rewrite Hq. simpl.
  apply Z.ltb_lt in Hlt. rewrite Hlt. eexists. reflexivity.
Qed.

Lemma sm2_below_threshold_resets_witness :
  py.getitem quiz._GRADE_QUALITY 1 = Some 2%Z /\ (2 < 3)%Z /\
  exists new_difficulty,
    quiz._compute_sm2 100 1 7 45 0.3 = Some (0%Z, 1%Z, new_difficulty, 101%Z).
Proof.
  split; [reflexivity | split; [lia |]].
  apply (sm2_below_threshold_resets 100 1 7 45 2 0.3); [reflexivity | lia].
Defined.

(** The grades below the threshold are exactly fail and hard. *)
Lemma below_threshold_grades (grade q : Z) :
  (0 <= grade <= 3)%Z ->
  py.getitem quiz._GRADE_QUALITY grade = Some q ->
  ((q < 3)%Z <-> grade = 0%Z \/ grade = 1%Z).
Proof.
  intros H.
  assert (grade = 0 \/ grade = 1 \/ grade = 2 \/ grade = 3)%Z
    as [-> | [-> | [-> | ->]]] by lia; cbn; intros [= <-]; lia.
Qed.

(** C6, as the specification states it, fails: the card has one repetition,
    so the review is its second successful one and the interval is the fixed
    6, not [round(6 * (2.5 - 0.36)) = 13]. *)
Lemma sm2_easy_scenario_counterexample :
  ~ (exists d, quiz._compute_sm2 0 3 1 6 0.3 = Some (2%Z, 13%Z, d, 13%Z)).
Proof. intros [d H]. vm_compute in H. discriminate H. Qed.

(** C6, amended. Grade "easy" (3) on a card with repetitions 1, interval 6,
    difficulty 0.3 yields repetitions 2, interval 6 and next_review =
    today + 6; the interval [round(6 * (2.5 - 0.36)) = 13] and next_review =
    today + 13 are what the same review yields once the card has
    repetitions 2. *)
Theorem sm2_easy_scenario (today : Z) :
  (exists d, quiz._compute_sm2 today 3 1 6 0.3
             = Some (2%Z, 6%Z, d, (today + 6)%Z))
  /\ py.round (6 * (2.5 - 0.36)) = 13%Z
  /\ (exists d, quiz._compute_sm2 today 3 2 6 0.3
                = Some (3%Z, 13%Z, d, (today + 13)%Z)).
Proof.
  split; [| split].
  - eexists. reflexivity.
  - reflexivity.
  - eexists. reflexivity.
Qed.

(** In binary64 arithmetic the growth factor of the scenario is a double
    slightly below 12.84, which rounds to 13 as the exact value does. *)
Lemma binary64_growth_factor_rounds_to_13 :
  let factor :=
    binary64.mul (binary64.of_int 6)
      (binary64.sub (binary64.decimal 25 1)
         (binary64.mul (binary64.decimal 3 1) (binary64.decimal 12 1))) in
  factor = S754_finite false 7228277401929646 (-49)
  /\ py.round <$> binary64.to_Q factor = Some 13%Z.
Proof. vm_compute. split; reflexivity. Qed.

(** Whenever [_compute_sm2] returns, the interval is at least 1, the
    difficulty within [[0.1, 0.9]] and the next review [interval] days
    ahead. *)
Lemma sm2_within_bounds
    (today grade repetitions interval : Z) (difficulty : Q)
    (new_reps new_interval : Z) (new_difficulty : Q) (next_review : Z) :
  quiz._compute_sm2 today grade repetitions interval difficulty
  = Some (new_reps, new_interval, new_difficulty, next_review) ->
  (1 <= new_interval)%Z
  /\ spec.within 0.1 0.9 new_difficulty
  /\ next_review = (today + new_interval)%Z.
Proof.
  unfold quiz._compute_sm2.
  destruct (py.getitem quiz._GRADE_QUALITY grade) as [q|]; [| discriminate].
  simpl. destruct (q <? 3)%Z.
  - intros [= <- <- <- <-]. split; [lia |].
    split; [apply clamp_within; discriminate | reflexivity].
  - intros [= <- <- <- <-].
    split; [| split; [apply clamp_within; discriminate | reflexivity]].
    destruct (repetitions =? 0)%Z; [lia |].
    destruct (repetitions =? 1)%Z; [lia |].
    apply py_max_ge_l.
Qed.

(** In the embedding, where the day number has no upper bound,
    [_compute_sm2] returns for each of the four grades. *)
Lemma sm2_returns (today grade repetitions interval : Z) (difficulty : Q) :
  (0 <= grade <= 3)%Z ->
  is_Some (quiz._compute_sm2 today grade repetitions interval difficulty).
Proof.
  intros Hg. destruct (grade_quality_total grade Hg) as (q & Hq & _).
  unfold quiz._compute_sm2. rewrite Hq. simpl.
  destruct (q <? 3)%Z; eexists; reflexivity.
Qed.

(** ** Concept mastery *)

Lemma set_concept_lookup (cs : gmap string kuzu_.Concept)
    (u : string * Q * Z) (cid : string) :
  kuzu_.set_concept cs u !! cid
  = if decide (u.1.1 = cid)
    then (fun c => kuzu_.mkConcept (kuzu_.name c) u.1.2 u.2) <$> cs !! cid
    else cs !! cid.
Proof.
  destruct u as [[k m] rc]. unfold kuzu_.set_concept. simpl.
  rewrite lookup_alter. case_decide; [subst k |]; reflexivity.
Qed.

(** After any number of SET statements a concept is either as it was or
    carries the mastery of one of the statements. *)
Lemma foldl_set_concept_lookup (us : list (string * Q * Z))
    (cs : gmap string kuzu_.Concept) (cid : string) (c' : kuzu_.Concept) :
  foldl kuzu_.set_concept cs us !! cid = Some c' ->
  cs !! cid = Some c'
  \/ exists u, u ∈ us /\ u.1.1 = cid /\ kuzu_.mastery c' = u.1.2.
Proof.
  revert cs. induction us as [|u us IH]; intros cs H; simpl in H.
  - left. exact H.
  - apply IH in H as [H | (u' & Hin & Hk & Hm)].
    + rewrite set_concept_lookup in H. case_decide as Hu.
      * destruct (cs !! cid) as [c|] eqn:Hc; simplify_eq/=.
        right. exists u. split; [left | split; reflexivity].
      * left. exact H.
    + right. exists u'. split; [right; exact Hin | split; assumption].
Qed.

Lemma new_values_within (delta : Q) (row : string * Q * Z) :
  spec.within 0 1 (kuzu_.new_values delta row).1.2.
Proof.
  destruct row as [[k m] rc]. simpl. apply clamp_within. discriminate.
Qed.

(** Whatever the graph store does, a concept it has written to has its
    mastery within [[0, 1]]. *)
Lemma mastery_update_within (fault : option nat) (chunk_id : string)
    (delta : Q) (g : kuzu_.Graph) (cid : string) (c' : kuzu_.Concept) :
  kuzu_.concepts
    (kuzu_.update_concept_mastery_from_chunk fault chunk_id delta g).2 !! cid
  = Some c' ->
  kuzu_.concepts g !! cid = Some c' \/ spec.within 0 1 (kuzu_.mastery c').
Proof.
  unfold kuzu_.update_concept_mastery_from_chunk.
  set (updates := kuzu_.new_values delta <$> kuzu_.match_rows g chunk_id).
  assert (Hall : forall us cs,
             us ⊆ updates ->
             foldl kuzu_.set_concept cs us !! cid = Some c' ->
             cs !! cid = Some c' \/ spec.within 0 1 (kuzu_.mastery c')).
  { intros us cs Hsub H.
    apply foldl_set_concept_lookup in H as [H | (u & Hin & _ & Hm)];
      [left; exact H | right].
    apply Hsub in Hin. unfold updates in Hin.
    apply list_elem_of_fmap in Hin as (row & -> & _).
    rewrite Hm. apply new_values_within. }
  destruct fault as [[|j]|]; simpl.
  - intros H. left. exact H.
  - case_decide; simpl; apply Hall; [| done].
    apply subseteq_take.
  - apply Hall. done.
Qed.

(** The SET statements keep the concepts in place. *)
Lemma foldl_set_concept_present (us : list (string * Q * Z))
    (cs : gmap string kuzu_.Concept) (cid : string) (c : kuzu_.Concept) :
  cs !! cid = Some c ->
  exists c0, foldl kuzu_.set_concept cs us !! cid = Some c0
             /\ kuzu_.name c0 = kuzu_.name c.
Proof.
  revert cs c. induction us as [|u us IH]; intros cs c H; simpl.
  - exists c. split; [exact H | reflexivity].
  - destruct (IH (kuzu_.set_concept cs u)
                (if decide (u.1.1 = cid)
                 then kuzu_.mkConcept (kuzu_.name c) u.1.2 u.2 else c))
      as (c0 & H0 & Hn).
    + rewrite set_concept_lookup, H. case_decide; reflexivity.
    + exists c0. split; [exact H0 |]. rewrite Hn. case_decide; reflexivity.
Qed.

(** When every statement for [cid] writes the same values, these are the
    values [cid] ends with. *)
Lemma foldl_set_concept_same (us : list (string * Q * Z))
    (cs : gmap string kuzu_.Concept) (cid : string) (c : kuzu_.Concept)
    (m : Q) (rc : Z) :
  cs !! cid = Some c ->
  (forall u, u ∈ us -> u.1.1 = cid -> u = (cid, m, rc)) ->
  (exists u, u ∈ us /\ u.1.1 = cid) ->
  foldl kuzu_.set_concept cs us !! cid
  = Some (kuzu_.mkConcept (kuzu_.name c) m rc).
Proof.
  revert cs c. induction us as [|u us IH] using rev_ind;
    intros cs c Hc Hsame (u0 & Hin & Hk).
  - inversion Hin.
  - rewrite foldl_app. simpl. rewrite set_concept_lookup.
    destruct (foldl_set_concept_present us cs cid c Hc) as (c0 & H0 & Hn).
    case_decide as Hu.
    + rewrite H0. simpl. rewrite Hn.
      rewrite (Hsame u) by (try apply elem_of_app; eauto using list_elem_of_here).
      reflexivity.
    + apply IH; [exact Hc | |].
      * intros u' Hu' Hk'. apply Hsame; [| exact Hk'].
        apply elem_of_app. left. exact Hu'.
      * apply elem_of_app in Hin as [Hin | Hin].
        -- exists u0. split; assumption.
        -- apply list_elem_of_singleton in Hin. subst u0. contradiction.
Qed.

(** With a graph store that does not raise, every concept linked to the
    chunk ends with [max(0.0, min(1.0, mastery + delta))]. *)
Lemma mastery_update_linked (chunk_id : string) (delta : Q) (g : kuzu_.Graph)
    (e : kuzu_.ExtractedFrom) (c : kuzu_.Concept) :
  e ∈ kuzu_.extracted_from g ->
  kuzu_.ef_chunk e = chunk_id ->
  kuzu_.concepts g !! kuzu_.ef_concept e = Some c ->
  kuzu_.concepts
    (kuzu_.update_concept_mastery_from_chunk None chunk_id delta g).2
    !! kuzu_.ef_concept e
  = Some (kuzu_.mkConcept (kuzu_.name c)
            (py.fmax 0 (py.fmin 1 (kuzu_.mastery c + delta)))
            (kuzu_.review_count c + 1)).
Proof.
  intros He Hch Hc. unfold kuzu_.update_concept_mastery_from_chunk. simpl.
  apply foldl_set_concept_same; [exact Hc | |].
  - intros u Hu Hk.
    apply list_elem_of_fmap in Hu as (row & -> & Hrow).
    unfold kuzu_.match_rows in Hrow.
    apply list_elem_of_omap in Hrow as (e' & _ & He').
    case_decide; [| discriminate].
    destruct (kuzu_.concepts g !! kuzu_.ef_concept e') as [c1|] eqn:Hc1;
      [| discriminate].
    injection He' as <-. simpl in Hk. rewrite Hk, Hc in Hc1.
    injection Hc1 as <-. simpl. rewrite Hk. reflexivity.
  - exists (kuzu_.new_values delta
              (kuzu_.ef_concept e, kuzu_.mastery c, kuzu_.review_count c)).
    split; [| reflexivity].
    apply list_elem_of_fmap. eexists. split; [reflexivity |].
    unfold kuzu_.match_rows. apply list_elem_of_omap.
    exists e. split; [exact He |].
    rewrite decide_True by exact Hch. rewrite Hc. reflexivity.
Qed.

(** C7. Whatever [_compute_sm2] returns, for any card state and any
    grade, has an interval of at least 1 and a difficulty within
    [[0.1, 0.9]]; every mastery value [update_concept_mastery_from_chunk]
    writes lies within [[0, 1]], also when the graph store raises part-way,
    and when the graph store does not raise every concept linked to the
    chunk is written. *)
Theorem review_outputs_within_bounds :
  (forall (today grade repetitions interval : Z) (difficulty : Q)
          new_reps new_interval new_difficulty next_review,
      quiz._compute_sm2 today grade repetitions interval difficulty
      = Some (new_reps, new_interval, new_difficulty, next_review) ->
      (1 <= new_interval)%Z /\ spec.within 0.1 0.9 new_difficulty)
  /\ (forall fault chunk_id delta g cid c',
        kuzu_.concepts
          (kuzu_.update_concept_mastery_from_chunk fault chunk_id delta g).2
          !! cid = Some c' ->
        kuzu_.concepts g !! cid = Some c'
        \/ spec.within 0 1 (kuzu_.mastery c'))
  /\ (forall chunk_id delta g e c,
        e ∈ kuzu_.extracted_from g ->
        kuzu_.ef_chunk e = chunk_id ->
        kuzu_.concepts g !! kuzu_.ef_concept e = Some c ->
        exists c',
          kuzu_.concepts
            (kuzu_.update_concept_mastery_from_chunk None chunk_id delta g).2
            !! kuzu_.ef_concept e = Some c'
          /\ kuzu_.mastery c'
             = py.fmax 0 (py.fmin 1 (kuzu_.mastery c + delta))
          /\ spec.within 0 1 (kuzu_.mastery c')).
Proof.
  split; [| split].
  - intros today grade repetitions interval difficulty r i d n H.
    destruct (sm2_within_bounds _ _ _ _ _ _ _ _ _ H) as (Hi & Hd & _).
    auto.
  - apply mastery_update_within.
  - intros chunk_id delta g e c He Hch Hc.
    eexists. split; [apply mastery_update_linked; eassumption |].
    split; [reflexivity |]. simpl. apply clamp_within. discriminate.
Qed.

(** The bounds at work: grade "easy" on a card that is already at the lower
    difficulty bound, and a mastery of 0.97 raised by 0.10. *)
Lemma review_outputs_within_bounds_witness :
  (exists d,
      quiz._compute_sm2 0 3 5 40 0.1 = Some (6%Z, 95%Z, d, 95%Z)
      /\ (1 <= 95)%Z /\ spec.within 0.1 0.9 d)
  /\ (exists c',
        kuzu_.concepts
          (kuzu_.update_concept_mastery_from_chunk None "ch1" 0.10
             spec.graph1).2 !! "k1" = Some c'
        /\ kuzu_.mastery c' = py.fmax 0 (py.fmin 1 (0.97 + 0.10))
        /\ spec.within 0 1 (kuzu_.mastery c')).
Proof.
  split.
  - eexists. split; [reflexivity |].
    apply (proj1 review_outputs_within_bounds 0%Z 3%Z 5%Z 40%Z 0.1%Q 6%Z
             95%Z _ 95%Z).
    reflexivity.
  - apply (proj2 (proj2 review_outputs_within_bounds) "ch1" 0.10%Q spec.graph1
             (kuzu_.mkExtractedFrom "k1" "d1" "ch1")
             (kuzu_.mkConcept "Monads" 0.97 4)).
    + vm_compute. left.
    + reflexivity.
    + reflexivity.
Defined.

(** What the two computations of the witness give: the interval grows from
    40 to [round(40 * 2.38) = 95], the difficulty stays at the bound 0.1, the
    mastery stops at 1. *)
Lemma review_bounds_values :
  (exists d, quiz._compute_sm2 0 3 5 40 0.1 = Some (6%Z, 95%Z, d, 95%Z)
             /\ (d == 0.1)%Q)
  /\ (py.fmax 0 (py.fmin 1 (0.97 + 0.10)) == 1)%Q.
Proof. split; [eexists; split; reflexivity | reflexivity]. Qed.

(** ** Review submission *)

(** C10. A review whose grade is not one of 0, 1, 2, 3 is answered with
    HTTP 422; the flashcard rows and the concept graph are left as they
    were and no mastery update is attempted. *)
Theorem review_invalid_grade_rejected
    (today now : Z) (kuzu_fault : option nat) (card_id : string) (grade : Z)
    (st : quiz.Store) :
  ~ (0 <= grade <= 3)%Z ->
  quiz.review_card today now kuzu_fault card_id grade st
  = (quiz.HTTPException 422, st).
Proof.
  intros Hg. unfold quiz.review_card.
  rewrite bool_decide_eq_false_2; [reflexivity |].
  intros Hin. apply Hg.
  repeat (apply elem_of_cons in Hin as [-> | Hin]; [lia |]).
  inversion Hin.
Qed.

Lemma review_invalid_grade_rejected_witness :
  ~ (0 <= 4 <= 3)%Z /\
  quiz.review_card 0 0 None "card1" 4 spec.store1
  = (quiz.HTTPException 422, spec.store1).
Proof.
  split; [lia |].
  apply (review_invalid_grade_rejected 0 0 None "card1" 4 spec.store1). lia.
Defined.

(** A valid grade on the same card does write: the rejection above is the
    guard, not an effect of the store. *)
Lemma review_valid_grade_writes :
  exists r st',
    quiz.review_card 10 0 None "card1" 3 spec.store1 = (quiz.Ok r, st')
    /\ quiz.r_interval r = 6%Z /\ quiz.r_next_review r = 16%Z
    /\ quiz.mastery_calls st' = [("ch1", 0.10%Q)]
    /\ (quiz.interval <$> quiz.flashcards st' !! "card1") = Some 6%Z
    /\ (quiz.repetitions <$> quiz.flashcards st' !! "card1") = Some 2%Z.
Proof. do 2 eexists. vm_compute. repeat split; reflexivity. Qed.

(** ** The LLM stage *)

Lemma new_log_app (before after : sqlite.DB) l :
  sqlite.status_log after = sqlite.status_log before ++ l ->
  spec.new_log before after = l.
Proof.
  intros H. unfold spec.new_log. rewrite H. apply drop_app_length.
Qed.

Lemma new_calls_app (before after : sqlite.DB) l :
  sqlite.llm_calls after = sqlite.llm_calls before ++ l ->
  spec.new_calls before after = l.
Proof.
  intros H. unfold spec.new_calls. rewrite H. apply drop_app_length.
Qed.

Lemma with_llm_nil (db : sqlite.DB) : spec.with_llm [] [] db = db.
Proof. destruct db. unfold spec.with_llm. simpl. by rewrite !app_nil_r. Qed.

Lemma with_llm_with_llm c1 k1 c2 k2 (db : sqlite.DB) :
  spec.with_llm c2 k2 (spec.with_llm c1 k1 db)
  = spec.with_llm (c1 ++ c2) (k1 ++ k2) db.
Proof. unfold spec.with_llm. simpl. by rewrite !app_assoc. Qed.

Lemma log_llm_call_with_llm stage chunk_id (db : sqlite.DB) :
  sqlite.log_llm_call stage chunk_id db
  = spec.with_llm [] [(stage, chunk_id)] db.
Proof. unfold spec.with_llm, sqlite.log_llm_call. by rewrite app_nil_r. Qed.

Lemma insert_cards_with_llm doc_id chunk_id n (db : sqlite.DB) :
  flashcard_generator.insert_cards doc_id chunk_id n db
  = spec.with_llm (replicate n (doc_id, chunk_id)) [] db.
Proof.
  unfold spec.with_llm, flashcard_generator.insert_cards.
  by rewrite app_nil_r.
Qed.

Lemma llm_frame_refl (db : sqlite.DB) : spec.llm_frame db db.
Proof. repeat split. Qed.

Lemma llm_frame_trans (a b c : sqlite.DB) :
  spec.llm_frame a b -> spec.llm_frame b c -> spec.llm_frame a c.
Proof.
  unfold spec.llm_frame. intros (?&?&?&?&?&?&?) (?&?&?&?&?&?&?).
  repeat split; congruence.
Qed.

Lemma llm_frame_with_llm cards calls (db : sqlite.DB) :
  spec.llm_frame db (spec.with_llm cards calls db).
Proof. repeat split. Qed.

(** The chunk loop of the concept extractor sends to the LLM the eligible
    rows, in the order of [rows], until a reply leaves the loop. *)
Lemma concept_chunk_loop_spec (env : external.Env)
    (rows : list sqlite.ChunkRow) (total : Z) (db : sqlite.DB) :
  exists r,
    concept_extractor.chunk_loop env rows total db
    = (r, spec.with_llm []
            ((fun row => (sqlite.CONCEPTS, sqlite.id row))
               <$> spec.until_stop (external.chat_concepts env)
                     (spec.eligible concept_extractor.MIN_CHUNK_CHARS rows))
            db).
Proof.
  revert total db. induction rows as [|row rest IH]; intros total db; simpl.
  - eexists. unfold sqlite.ret. by rewrite with_llm_nil.
  - unfold spec.eligible. rewrite filter_cons.
    destruct (Z.ltb_spec (py.len (chunker.content (sqlite.data row)))
                concept_extractor.MIN_CHUNK_CHARS) as [Hlt | Hge].
    + rewrite decide_False by lia. apply IH.
    + rewrite decide_True by lia. simpl.
      unfold sqlite.bind, sqlite.modify. simpl.
      rewrite log_llm_call_with_llm.
      destruct (external.chat_concepts env (sqlite.id row)) eqn:Hr; simpl.
      * eexists. reflexivity.
      * destruct (IH total (spec.with_llm [] [(sqlite.CONCEPTS, sqlite.id row)]
                              db)) as [r ->].
        exists r. by rewrite with_llm_with_llm.
      * destruct (IH (total + Z.of_nat n)%Z
                    (spec.with_llm [] [(sqlite.CONCEPTS, sqlite.id row)] db))
          as [r ->].
        exists r. by rewrite with_llm_with_llm.
      * eexists. reflexivity.
Qed.

(** The same for the chunk loop of the flashcard generator, which also
    inserts cards. *)
Lemma flashcard_chunk_loop_spec (env : external.Env) (doc_id : string)
    (rows : list sqlite.ChunkRow) (total : Z) (db : sqlite.DB) :
  exists r cards,
    flashcard_generator.chunk_loop env doc_id rows total db
    = (r, spec.with_llm cards
            ((fun row => (sqlite.FLASHCARDS, sqlite.id row))
               <$> spec.until_stop (external.chat_cards env)
                     (spec.eligible flashcard_generator.MIN_CHUNK_CHARS rows))
            db).
Proof.
  revert total db. induction rows as [|row rest IH]; intros total db; simpl.
  - exists (sqlite.Return total), []. unfold sqlite.ret. by rewrite with_llm_nil.
  - unfold spec.eligible. rewrite filter_cons.
    destruct (Z.ltb_spec (py.len (chunker.content (sqlite.data row)))
                flashcard_generator.MIN_CHUNK_CHARS) as [Hlt | Hge].
    + rewrite decide_False by lia. apply IH.
    + rewrite decide_True by lia. simpl.
      unfold sqlite.bind, sqlite.modify. simpl.
      rewrite log_llm_call_with_llm.
      destruct (external.chat_cards env (sqlite.id row)) eqn:Hr; simpl.
      * eexists _, []. reflexivity.
      * destruct (IH total (spec.with_llm [] [(sqlite.FLASHCARDS, sqlite.id row)]
                              db)) as (r & cards & ->).
        exists r, cards. by rewrite with_llm_with_llm.
      * rewrite insert_cards_with_llm, with_llm_with_llm. simpl.
        destruct (IH (total + Z.of_nat n)%Z
                    (spec.with_llm (replicate n (doc_id, sqlite.id row))
                       [(sqlite.FLASHCARDS, sqlite.id row)] db))
          as (r & cards & ->).
        exists r, (replicate n (doc_id, sqlite.id row) ++ cards).
        by rewrite with_llm_with_llm.
      * eexists _, []. reflexivity.
Qed.


(** The concept sub-stage returns or raises; either way it keeps to
    [llm_frame] and has sent [concept_rows] to the LLM. *)
Lemma extract_concepts_spec (env : external.Env)
    (doc_id doc_title doc_author : string) (db : sqlite.DB) :
  exists r db',
    concept_extractor.extract_concepts_for_document env doc_id doc_title
      doc_author db = (r, db')
    /\ spec.llm_frame db db'
    /\ sqlite.llm_calls db'
       = sqlite.llm_calls db
         ++ spec.calls_of sqlite.CONCEPTS (spec.concept_rows env doc_id db).
Proof.
  unfold concept_extractor.extract_concepts_for_document, spec.concept_rows.
  unfold sqlite.bind at 1. unfold sqlite.gets at 1.
  set (rows := sqlite.select_embedded_chunks doc_id
                 concept_extractor.MAX_CHUNKS db).
  destruct rows as [|row rows'] eqn:Hrows.
  - exists (sqlite.Return 0%Z), db. split; [reflexivity |].
    split; [apply llm_frame_refl |].
    destruct (external.ensure_doc_node env doc_id); simpl;
      by rewrite app_nil_r.
  - rewrite <- Hrows. clear Hrows. unfold sqlite.bind.
    destruct (external.ensure_doc_node env doc_id); simpl.
    + destruct (concept_chunk_loop_spec env rows 0 db) as [r ->].
      destruct r as [total|].
      * destruct (0 <? total)%Z; simpl; do 2 eexists;
          (split; [reflexivity |]); (split; [| reflexivity]).
        -- repeat split. simpl. apply map_eq. intros k.
           rewrite !lookup_fmap, lookup_alter.
           case_decide; [subst k |]; [| reflexivity].
           by destruct (sqlite.documents db !! doc_id).
        -- apply llm_frame_with_llm.
      * do 2 eexists. split; [reflexivity |].
        split; [apply llm_frame_with_llm | reflexivity].
    + exists sqlite.Raise, db. split; [reflexivity |].
      split; [apply llm_frame_refl | by rewrite app_nil_r].
Qed.

Lemma generate_flashcards_spec (env : external.Env) (doc_id : string)
    (db : sqlite.DB) :
  exists r db',
    flashcard_generator.generate_flashcards_for_document env doc_id db
    = (r, db')
    /\ spec.llm_frame db db'
    /\ sqlite.llm_calls db'
       = sqlite.llm_calls db
         ++ spec.calls_of sqlite.FLASHCARDS (spec.card_rows env doc_id db).
Proof.
  unfold flashcard_generator.generate_flashcards_for_document, spec.card_rows.
  unfold sqlite.bind, sqlite.gets.
  set (rows := sqlite.select_embedded_chunks doc_id
                 flashcard_generator.MAX_CHUNKS db).
  destruct rows as [|row rows'] eqn:Hrows.
  - exists (sqlite.Return 0%Z), db. split; [reflexivity |].
    split; [apply llm_frame_refl | by rewrite app_nil_r].
  - rewrite <- Hrows. clear Hrows.
    destruct (flashcard_chunk_loop_spec env doc_id rows 0 db)
      as (r & cards & ->).
    do 2 eexists. split; [reflexivity |].
    split; [apply llm_frame_with_llm | reflexivity].
Qed.

(** The selection of chunks reads the chunk rows only. *)
Lemma concept_rows_frame env doc_id (db db' : sqlite.DB) :
  sqlite.chunks db' = sqlite.chunks db ->
  spec.concept_rows env doc_id db' = spec.concept_rows env doc_id db.
Proof.
  intros H. unfold spec.concept_rows, sqlite.select_embedded_chunks.
  by rewrite H.
Qed.

Lemma card_rows_frame env doc_id (db db' : sqlite.DB) :
  sqlite.chunks db' = sqlite.chunks db ->
  spec.card_rows env doc_id db' = spec.card_rows env doc_id db.
Proof.
  intros H. unfold spec.card_rows, sqlite.select_embedded_chunks.
  by rewrite H.
Qed.

(** [try: ... except Exception: log] around a sub-stage: never raises. *)
Lemma try_except_absorbs {A} (m : sqlite.M A) (db : sqlite.DB) :
  sqlite.try_except (sqlite.bind m (fun _ => sqlite.ret tt)) (sqlite.ret tt) db
  = (sqlite.Return tt, (m db).2).
Proof.
  unfold sqlite.try_except, sqlite.bind, sqlite.ret.
  by destruct (m db) as [[a|] db'].
Qed.

(** The whole LLM stage: it returns, whatever its sub-stages do; it writes
    the statuses extracting_concepts and concepts_ready and no other. *)
Lemma run_llm_stage_spec (env : external.Env)
    (doc_id doc_title doc_author : string) (db : sqlite.DB) :
  exists db',
    ingestion._run_llm_stage env doc_id doc_title doc_author db
    = (sqlite.Return tt, db')
    /\ sqlite.status_log db'
       = sqlite.status_log db
         ++ [(doc_id, sqlite.EXTRACTING_CONCEPTS);
             (doc_id, sqlite.CONCEPTS_READY)]
    /\ sqlite.chunks db' = sqlite.chunks db
    /\ sqlite.chroma db' = sqlite.chroma db
    /\ sqlite.llm_calls db'
       = sqlite.llm_calls db
         ++ spec.calls_of sqlite.CONCEPTS (spec.concept_rows env doc_id db)
         ++ spec.calls_of sqlite.FLASHCARDS (spec.card_rows env doc_id db)
    /\ (forall d, sqlite.documents db !! doc_id = Some d ->
          sqlite.status <$> sqlite.documents db' !! doc_id
          = Some sqlite.CONCEPTS_READY).
Proof.
  unfold ingestion._run_llm_stage.
  unfold sqlite.bind at 1.
  unfold ingestion._set_status at 1, sqlite.update_document_status at 1,
    sqlite.modify at 1.
  set (db1 := sqlite.log_status doc_id sqlite.EXTRACTING_CONCEPTS _).
  unfold sqlite.bind at 1. rewrite try_except_absorbs.
  destruct (extract_concepts_spec env doc_id doc_title doc_author db1)
    as (r1 & db2 & -> & Hf1 & Hc1). simpl.
  unfold sqlite.bind at 1. rewrite try_except_absorbs.
  destruct (generate_flashcards_spec env doc_id db2)
    as (r2 & db3 & -> & Hf2 & Hc2). simpl.
  eexists. split; [reflexivity |].
  pose proof (llm_frame_trans _ _ _ Hf1 Hf2) as Hf.
  destruct Hf as (Hch & _ & _ & Hcr & _ & Hlog & Hst).
  destruct Hf1 as (Hch1 & _).
  simpl. repeat split.
  - rewrite Hlog. unfold db1. simpl. by rewrite <- app_assoc.
  - rewrite Hch. reflexivity.
  - rewrite Hcr. reflexivity.
  - rewrite Hc2, Hc1. rewrite (card_rows_frame env doc_id db1 db2 Hch1).
    rewrite <- app_assoc. reflexivity.
  - intros d Hd. rewrite lookup_alter, decide_True by reflexivity.
    assert (Hk : (sqlite.status <$> sqlite.documents db3) !! doc_id
                 = (sqlite.status <$> sqlite.documents db1) !! doc_id)
      by (by rewrite Hst).
    rewrite !lookup_fmap in Hk. unfold db1 in Hk. simpl in Hk.
    rewrite lookup_alter, decide_True, Hd in Hk by reflexivity.
    simpl in Hk.
    by destruct (sqlite.documents db3 !! doc_id).
Qed.

(** ** The ingestion pipeline *)

Lemma set_status_spec (doc_id : string) (s : sqlite.DocumentStatus)
    (db : sqlite.DB) (d : sqlite.Document) :
  sqlite.documents db !! doc_id = Some d ->
  exists db1 d1,
    ingestion._set_status doc_id s db = (sqlite.Return tt, db1)
    /\ sqlite.status_log db1 = sqlite.status_log db ++ [(doc_id, s)]
    /\ sqlite.documents db1 !! doc_id = Some d1
    /\ sqlite.status d1 = s
    /\ sqlite.chunks db1 = sqlite.chunks db
    /\ sqlite.chroma db1 = sqlite.chroma db.
Proof.
  intros Hd. do 2 eexists. split; [reflexivity |].
  simpl. rewrite lookup_alter, decide_True, Hd by reflexivity. simpl.
  repeat split.
Qed.

Lemma insert_chunks_spec (uuid4 : nat -> string) (doc_id : string)
    (cs : list chunker.ChunkData) (db : sqlite.DB) :
  exists ids db1,
    sqlite.insert_chunks uuid4 doc_id cs db = (sqlite.Return ids, db1)
    /\ sqlite.status_log db1 = sqlite.status_log db
    /\ sqlite.documents db1 = sqlite.documents db.
Proof.
  revert db. induction cs as [|c cs IH]; intros db; simpl.
  - by exists [], db.
  - unfold sqlite.bind, sqlite.fresh_uuid, sqlite.modify. simpl.
    match goal with
    | |- context [sqlite.insert_chunks uuid4 doc_id cs ?db0] =>
        destruct (IH db0) as (ids & db1 & -> & Hl & Hdoc)
    end.
    simpl. do 2 eexists. split; [reflexivity |]. by rewrite Hl, Hdoc.
Qed.

Lemma embed_batches_spec (fuel : nat) (env : external.Env) (doc_id : string)
    (cs : list chunker.ChunkData) (ids : list string) (db : sqlite.DB) :
  exists r db1,
    ingestion.embed_batches fuel env doc_id cs ids db = (r, db1)
    /\ sqlite.status_log db1 = sqlite.status_log db
    /\ sqlite.documents db1 = sqlite.documents db.
Proof.
  revert cs ids db. induction fuel as [|fuel IH]; intros cs ids db; simpl.
  - by exists (sqlite.Return tt), db.
  - destruct cs as [|c cs]; [by exists (sqlite.Return tt), db |].
    destruct (external.chroma_add env _).
    + unfold sqlite.bind, sqlite.modify.
      match goal with
      | |- context [ingestion.embed_batches fuel env doc_id ?a ?b ?db0] =>
          destruct (IH a b db0) as (r & db1 & -> & Hl & Hdoc)
      end.
      by exists r, db1.
    + by exists sqlite.Raise, db.
Qed.

Lemma set_status_step (doc_id : string) (s : sqlite.DocumentStatus)
    (db : sqlite.DB) (s0 : sqlite.DocumentStatus)
    (l : list (string * sqlite.DocumentStatus)) (db0 : sqlite.DB) :
  spec.status_of doc_id db = Some s0 ->
  sqlite.status_log db = sqlite.status_log db0 ++ l ->
  exists db1,
    ingestion._set_status doc_id s db = (sqlite.Return tt, db1)
    /\ sqlite.status_log db1 = sqlite.status_log db0 ++ l ++ [(doc_id, s)]
    /\ spec.status_of doc_id db1 = Some s.
Proof.
  unfold spec.status_of. intros Hd Hl.
  destruct (sqlite.documents db !! doc_id) as [d|] eqn:Hdoc; [| discriminate].
  destruct (set_status_spec doc_id s db d Hdoc)
    as (db1 & d1 & H1 & Hl1 & Hd1 & Hs1 & _).
  exists db1. split; [exact H1 |]. split.
  - by rewrite Hl1, Hl, <- app_assoc.
  - by rewrite Hd1; simpl; rewrite Hs1.
Qed.

Ltac in_traces :=
  rewrite list_elem_of_In; unfold spec.body_traces; simpl; tauto.

(** The body of [process_document] writes one of [body_traces]; the
    document ends in the last status written. *)
Lemma process_document_body_spec (env : external.Env) (doc_id : string)
    (db : sqlite.DB) (s0 : sqlite.DocumentStatus) :
  spec.status_of doc_id db = Some s0 ->
  exists (ok : bool) l db',
    ingestion.process_document_body env doc_id db
    = (if ok then sqlite.Return tt else sqlite.Raise, db')
    /\ (ok, l) ∈ spec.body_traces
    /\ sqlite.status_log db'
       = sqlite.status_log db ++ ((fun s => (doc_id, s)) <$> l)
    /\ spec.status_of doc_id db' = last l.
Proof.
  intros H0. unfold ingestion.process_document_body.
  destruct (set_status_step doc_id sqlite.EXTRACTING db s0 [] db H0
              (eq_sym (app_nil_r _))) as (db1 & R1 & L1 & S1).
  unfold sqlite.bind at 1. rewrite R1. cbv beta iota.
  unfold sqlite.bind at 1, sqlite.get_document at 1, sqlite.gets at 1.
  cbv beta iota.
  assert (Hd1 : exists d1, sqlite.documents db1 !! doc_id = Some d1).
  { unfold spec.status_of in S1.
    destruct (sqlite.documents db1 !! doc_id); [eauto | discriminate]. }
  destruct Hd1 as [d1 Hd1]. rewrite Hd1.
  unfold sqlite.bind at 1.
  destruct (external.fitz_open env (sqlite.file_path d1)) as [fitz|].
  2:{ exists false, [sqlite.EXTRACTING], db1. simpl.
      split; [reflexivity |]. split; [in_traces |]. split; assumption. }
  unfold sqlite.ret at 1. cbv beta iota.
  set (ex := pdf_extractor.extract_pdf fitz).
  (* metadata *)
  unfold sqlite.bind at 1, ingestion.update_metadata at 1, sqlite.modify at 1.
  cbv beta iota.
  match goal with
  | |- context [sqlite.set_documents ?f db1] =>
      set (db2 := sqlite.set_documents f db1)
  end.
  assert (L2 : sqlite.status_log db2
               = sqlite.status_log db ++ [] ++ [(doc_id, sqlite.EXTRACTING)])
    by exact L1.
  assert (S2 : spec.status_of doc_id db2 = Some sqlite.EXTRACTING).
  { unfold spec.status_of, db2. simpl.
    rewrite lookup_alter, decide_True, Hd1 by reflexivity. simpl.
    unfold spec.status_of in S1. rewrite Hd1 in S1. exact S1. }
  clearbody db2. clear R1 L1 S1 Hd1 H0.
  (* table of contents *)
  unfold sqlite.bind at 1.
  assert (Htoc : exists db3,
             (match pdf_extractor.toc ex with
              | [] => sqlite.ret tt
              | _ :: _ =>
                  sqlite.insert_toc_entries doc_id (pdf_extractor.toc ex)
              end) db2 = (sqlite.Return tt, db3)
             /\ sqlite.status_log db3 = sqlite.status_log db2
             /\ spec.status_of doc_id db3 = spec.status_of doc_id db2).
  { destruct (pdf_extractor.toc ex); eexists; (split; [reflexivity |]);
      split; reflexivity. }
  destruct Htoc as (db3 & R3 & L3 & S3). rewrite R3. cbv beta iota.
  rewrite L2 in L3. rewrite S2 in S3. clear R3 L2 S2. simpl in L3.
  destruct (pdf_extractor.needs_ocr ex).
  { destruct (set_status_step doc_id sqlite.NEEDS_OCR db3 _ _ db S3 L3)
      as (db4 & R4 & L4 & S4).
    exists true, [sqlite.EXTRACTING; sqlite.NEEDS_OCR], db4.
    split; [exact R4 |]. split; [in_traces |]. split; assumption. }
  destruct (set_status_step doc_id sqlite.CHUNKING db3 _ _ db S3 L3)
    as (db4 & R4 & L4 & S4).
  unfold sqlite.bind at 1. rewrite R4. cbv beta iota. clear R4 L3 S3.
  destruct (chunker.chunk_pages _ _ _) as [|c cs].
  { destruct (set_status_step doc_id sqlite.READY db4 _ _ db S4 L4)
      as (db5 & R5 & L5 & S5).
    exists true, [sqlite.EXTRACTING; sqlite.CHUNKING; sqlite.READY], db5.
    split; [exact R5 |]. split; [in_traces |]. split; assumption. }
  remember (c :: cs) as chunks eqn:Hchunks. clear Hchunks.
  destruct (insert_chunks_spec (external.uuid4 env) doc_id chunks db4)
    as (ids & db5 & R5 & L5 & D5).
  unfold sqlite.bind at 1. rewrite R5. cbv beta iota.
  assert (S5 : spec.status_of doc_id db5 = Some sqlite.CHUNKING)
    by (unfold spec.status_of; rewrite D5; exact S4).
  rewrite L4 in L5. clear R5 D5 L4 S4.
  destruct (set_status_step doc_id sqlite.EMBEDDING db5 _ _ db S5 L5)
    as (db6 & R6 & L6 & S6).
  unfold sqlite.bind at 1. rewrite R6. cbv beta iota. clear R6 L5 S5.
  (* purge of the vector store *)
  unfold sqlite.bind at 1.
  assert (Hdel : exists db7,
             (if external.chroma_delete env doc_id
              then sqlite.modify
                     (fun db =>
                        sqlite.mkDB (sqlite.documents db) (sqlite.chunks db)
                          (sqlite.toc_entries db) (sqlite.flashcards db)
                          (sqlite.settings db)
                          (filter (fun e => e.2 <> doc_id) (sqlite.chroma db))
                          (sqlite.uuid_counter db) (sqlite.status_log db)
                          (sqlite.llm_calls db))
              else sqlite.ret tt) db6 = (sqlite.Return tt, db7)
             /\ sqlite.status_log db7 = sqlite.status_log db6
             /\ spec.status_of doc_id db7 = spec.status_of doc_id db6).
  { destruct (external.chroma_delete env doc_id); eexists;
      (split; [reflexivity |]); split; reflexivity. }
  destruct Hdel as (db7 & R7 & L7 & S7). rewrite R7. cbv beta iota.
  rewrite L6 in L7. rewrite S6 in S7. clear R7 L6 S6.
  destruct (embed_batches_spec (length chunks) env doc_id chunks ids db7)
    as (r8 & db8 & R8 & L8 & D8).
  unfold sqlite.bind at 1. rewrite R8.
  assert (S8 : spec.status_of doc_id db8 = Some sqlite.EMBEDDING)
    by (unfold spec.status_of; rewrite D8; exact S7).
  rewrite L7 in L8. clear R8 D8 L7 S7.
  destruct r8 as [[]|].
  2:{ exists false, [sqlite.EXTRACTING; sqlite.CHUNKING; sqlite.EMBEDDING], db8.
      split; [reflexivity |]. split; [in_traces |]. split; assumption. }
  cbv beta iota.
  unfold sqlite.bind at 1, sqlite.update_chunks_embedding at 1,
    sqlite.modify at 1. cbv beta iota.
  match goal with
  | |- context [sqlite.set_chunks ?f db8] =>
      set (db9 := sqlite.set_chunks f db8)
  end.
  assert (L9 : sqlite.status_log db9
               = sqlite.status_log db
                 ++ [(doc_id, sqlite.EXTRACTING); (doc_id, sqlite.CHUNKING);
                     (doc_id, sqlite.EMBEDDING)]) by exact L8.
  assert (S9 : spec.status_of doc_id db9 = Some sqlite.EMBEDDING) by exact S8.
  clearbody db9. clear L8 S8.
  unfold sqlite.bind at 1, sqlite.get_setting at 1, sqlite.gets at 1.
  cbv beta iota.
  unfold sqlite.bind at 1, sqlite.get_setting at 1, sqlite.gets at 1.
  cbv beta iota.
  unfold sqlite.bind at 1, sqlite.get_document at 1, sqlite.gets at 1.
  cbv beta iota.
  destruct (_ || _).
  - destruct (run_llm_stage_spec env doc_id
                (sqlite.title (default d1 (sqlite.documents db9 !! doc_id)))
                (sqlite.author (default d1 (sqlite.documents db9 !! doc_id)))
                db9) as (db' & R & L & _ & _ & _ & S).
    exists true,
      [sqlite.EXTRACTING; sqlite.CHUNKING; sqlite.EMBEDDING;
       sqlite.EXTRACTING_CONCEPTS; sqlite.CONCEPTS_READY], db'.
    split; [exact R |]. split; [in_traces |]. split.
    + rewrite L, L9, <- app_assoc. reflexivity.
    + unfold spec.status_of in S9 |- *.
      destruct (sqlite.documents db9 !! doc_id) as [d9|] eqn:Hd9;
        [| discriminate].
      exact (S d9 eq_refl).
  - destruct (set_status_step doc_id sqlite.READY db9 _ _ db S9 L9)
      as (db' & R & L & S).
    exists true,
      [sqlite.EXTRACTING; sqlite.CHUNKING; sqlite.EMBEDDING; sqlite.READY],
      db'.
    split; [exact R |]. split; [in_traces |]. split; assumption.
Qed.

(** [process_document] always returns; it writes one of [run_traces]. *)
Lemma process_document_spec (env : external.Env) (doc_id : string)
    (db : sqlite.DB) (s0 : sqlite.DocumentStatus) :
  spec.status_of doc_id db = Some s0 ->
  exists l db',
    ingestion.process_document env doc_id db = (sqlite.Return tt, db')
    /\ l ∈ spec.run_traces
    /\ sqlite.status_log db'
       = sqlite.status_log db ++ ((fun s => (doc_id, s)) <$> l)
    /\ spec.status_of doc_id db' = last l.
Proof.
  intros H0.
  destruct (process_document_body_spec env doc_id db s0 H0)
    as (ok & l & db1 & R & Hin & L & S).
  unfold ingestion.process_document, sqlite.try_except. rewrite R.
  assert (Hrun : (if ok then l else l ++ [sqlite.ERROR]) ∈ spec.run_traces).
  { unfold spec.run_traces. apply list_elem_of_fmap.
    exists (ok, l). split; [reflexivity | exact Hin]. }
  destruct ok.
  - exists l, db1. auto.
  - assert (Hs : exists s1, spec.status_of doc_id db1 = Some s1).
    { rewrite S. clear -Hin. unfold spec.body_traces in Hin.
      repeat (apply elem_of_cons in Hin as [Hin | Hin];
              [first [discriminate Hin | injection Hin as ->; simpl; eauto] |]).
      inversion Hin. }
    destruct Hs as [s1 Hs].
    destruct (set_status_step doc_id sqlite.ERROR db1 s1 _ db Hs L)
      as (db2 & R2 & L2 & S2).
    rewrite R2. exists (l ++ [sqlite.ERROR]), db2.
    split; [reflexivity |]. split; [exact Hrun |]. split.
    + rewrite L2, fmap_app. reflexivity.
    + rewrite S2, last_snoc. reflexivity.
Qed.

(** The standalone LLM stage writes extracting_concepts and concepts_ready,
    and leaves the chunk rows and the vector store as they are. *)
Lemma run_llm_stage_for_doc_spec (env : external.Env) (doc_id : string)
    (db : sqlite.DB) (s0 : sqlite.DocumentStatus) :
  spec.status_of doc_id db = Some s0 ->
  exists db',
    ingestion.run_llm_stage_for_doc env doc_id db = (sqlite.Return tt, db')
    /\ sqlite.status_log db'
       = sqlite.status_log db
         ++ ((fun s => (doc_id, s))
               <$> [sqlite.EXTRACTING_CONCEPTS; sqlite.CONCEPTS_READY])
    /\ spec.status_of doc_id db' = Some sqlite.CONCEPTS_READY
    /\ sqlite.chunks db' = sqlite.chunks db
    /\ sqlite.chroma db' = sqlite.chroma db.
Proof.
  unfold spec.status_of. intros H0.
  destruct (sqlite.documents db !! doc_id) as [d|] eqn:Hd; [| discriminate].
  unfold ingestion.run_llm_stage_for_doc, sqlite.try_except.
  unfold sqlite.bind at 1, sqlite.get_document at 1, sqlite.gets at 1.
  cbv beta iota. rewrite Hd.
  destruct (run_llm_stage_spec env doc_id (sqlite.title d) (sqlite.author d)
              db) as (db' & R & L & Hch & Hcr & _ & S).
  rewrite R. exists db'. split; [reflexivity |].
  split; [exact L |]. split; [exact (S d Hd) |]. split; assumption.
Qed.

(** The statuses written for a document by a coroutine that writes for
    this document only. *)
Lemma statuses_written_own (doc_id : string) (db db' : sqlite.DB)
    (l : list sqlite.DocumentStatus) :
  sqlite.status_log db'
  = sqlite.status_log db ++ ((fun s => (doc_id, s)) <$> l) ->
  spec.statuses_written doc_id db db' = l.
Proof.
  intros H. unfold spec.statuses_written.
  rewrite (new_log_app _ _ _ H). clear H.
  induction l as [|s l IH]; [reflexivity |].
  rewrite fmap_cons, filter_cons, decide_True by reflexivity.
  rewrite fmap_cons, IH. reflexivity.
Qed.

(** Within a run every transition is forward or terminal. *)
Lemma run_traces_forward (l : list sqlite.DocumentStatus) :
  l ∈ spec.run_traces ->
  exists rest,
    l = sqlite.EXTRACTING :: rest
    /\ spec.all_forward_or_terminal sqlite.EXTRACTING rest.
Proof.
  unfold spec.run_traces, spec.body_traces. simpl. intros Hin.
  repeat (apply elem_of_cons in Hin as [-> | Hin];
          [eexists; split; [reflexivity |];
           unfold spec.all_forward_or_terminal; simpl;
           repeat constructor |]).
  inversion Hin.
Qed.

(** ** The task registry *)

Lemma foldl_start_task_tasks (f : string -> task_registry.Coroutine)
    (l : list (string * sqlite.Document)) (r : task_registry.Registry) :
  task_registry.tasks
    (foldl (fun r doc => task_registry.start_task doc.1 (f doc.1) r) r l)
  = task_registry.tasks r
    ++ ((fun doc : string * sqlite.Document =>
           task_registry.mkTask doc.1 (f doc.1) false) <$> l).
Proof.
  revert r. induction l as [|doc l IH]; intros r; simpl.
  - by rewrite app_nil_r.
  - rewrite IH. simpl. by rewrite <- app_assoc.
Qed.

Lemma recover_tasks (db : sqlite.DB) (r : task_registry.Registry) :
  task_registry.tasks (task_registry.recover_stuck_documents db r)
  = task_registry.tasks r
    ++ ((fun doc : string * sqlite.Document =>
           task_registry.mkTask doc.1 (task_registry.process_document doc.1)
             false)
          <$> sqlite.find_documents_by_status
                [sqlite.EXTRACTING; sqlite.CHUNKING; sqlite.EMBEDDING] db)
    ++ ((fun doc : string * sqlite.Document =>
           task_registry.mkTask doc.1
             (task_registry.run_llm_stage_for_doc doc.1) false)
          <$> sqlite.find_documents_by_status
                [sqlite.EXTRACTING_CONCEPTS] db).
Proof.
  unfold task_registry.recover_stuck_documents.
  rewrite !foldl_start_task_tasks, <- app_assoc. reflexivity.
Qed.

Lemma find_documents_by_status_elem (sts : list sqlite.DocumentStatus)
    (db : sqlite.DB) (k : string) (d : sqlite.Document) :
  (k, d) ∈ sqlite.find_documents_by_status sts db
  <-> sqlite.documents db !! k = Some d /\ sqlite.status d ∈ sts.
Proof.
  unfold sqlite.find_documents_by_status.
  rewrite elem_of_map_to_list, map_lookup_filter_Some. reflexivity.
Qed.

Lemma find_documents_by_status_NoDup (sts : list sqlite.DocumentStatus)
    (db : sqlite.DB) :
  NoDup (sqlite.find_documents_by_status sts db).*1.
Proof. apply NoDup_fst_map_to_list. Qed.

(** The tasks started for the rows of a query are one per row: the active
    executions of a document id are the one task of its row, if it has
    one. *)
Lemma active_of_started (f : string -> task_registry.Coroutine)
    (l : list (string * sqlite.Document)) (k : string) :
  NoDup l.*1 ->
  filter (fun t => task_registry.task_doc t = k
                   /\ task_registry.done t = false)
    ((fun doc : string * sqlite.Document =>
        task_registry.mkTask doc.1 (f doc.1) false) <$> l)
  = if decide (k ∈ l.*1) then [task_registry.mkTask k (f k) false] else [].
Proof.
  induction l as [|[k' d] l IH]; intros Hnd.
  - rewrite decide_False by (simpl; apply not_elem_of_nil). reflexivity.
  - rewrite fmap_cons in Hnd. simpl in Hnd.
    apply NoDup_cons in Hnd as [Hk' Hnd]. specialize (IH Hnd).
    rewrite !fmap_cons. cbn [fst].
    rewrite filter_cons. destruct (decide (k' = k)) as [-> | Hne].
    + rewrite decide_True by (simpl; done). rewrite IH.
      rewrite decide_False by exact Hk'.
      rewrite decide_True by apply list_elem_of_here. reflexivity.
    + rewrite decide_False by (simpl; intros [? _]; done). rewrite IH.
      destruct (decide (k ∈ l.*1)) as [Hin | Hin].
      * rewrite decide_True by (by apply list_elem_of_further). reflexivity.
      * rewrite decide_False; [reflexivity |].
        intros [? | ?]%elem_of_cons; [congruence | contradiction].
Qed.

Lemma find_documents_by_status_keys (sts : list sqlite.DocumentStatus)
    (db : sqlite.DB) (k : string) (d : sqlite.Document) :
  sqlite.documents db !! k = Some d ->
  k ∈ (sqlite.find_documents_by_status sts db).*1 <-> sqlite.status d ∈ sts.
Proof.
  intros Hd. rewrite list_elem_of_fmap. split.
  - intros ([k' d'] & -> & Hin). simpl in *.
    apply find_documents_by_status_elem in Hin as [Hd' Hs]. congruence.
  - intros Hs. exists (k, d). split; [reflexivity |].
    by apply find_documents_by_status_elem.
Qed.

(** What the recovery sweep starts for a document, from an empty
    registry. *)
Lemma recover_active (db : sqlite.DB) (k : string) (d : sqlite.Document) :
  sqlite.documents db !! k = Some d ->
  spec.active k
    (task_registry.recover_stuck_documents db task_registry.empty_registry)
  = if decide (sqlite.status d
               ∈ [sqlite.EXTRACTING; sqlite.CHUNKING; sqlite.EMBEDDING])
    then [task_registry.mkTask k (task_registry.process_document k) false]
    else if decide (sqlite.status d = sqlite.EXTRACTING_CONCEPTS)
         then [task_registry.mkTask k (task_registry.run_llm_stage_for_doc k)
                 false]
         else [].
Proof.
  intros Hd. unfold spec.active. rewrite recover_tasks. simpl.
  rewrite filter_app.
  rewrite !active_of_started by apply find_documents_by_status_NoDup.
  pose proof (find_documents_by_status_keys
                [sqlite.EXTRACTING; sqlite.CHUNKING; sqlite.EMBEDDING]
                db k d Hd) as H1.
  pose proof (find_documents_by_status_keys
                [sqlite.EXTRACTING_CONCEPTS] db k d Hd) as H2.
  rewrite list_elem_of_singleton in H2.
  repeat case_decide; try reflexivity; try tauto.
  exfalso. assert (Hs : sqlite.status d
                        ∈ [sqlite.EXTRACTING; sqlite.CHUNKING; sqlite.EMBEDDING])
    by tauto.
  assert (He : sqlite.status d = sqlite.EXTRACTING_CONCEPTS) by tauto.
  rewrite He in Hs. rewrite list_elem_of_In in Hs. simpl in Hs.
  intuition discriminate.
Qed.

(** ** Chunk rows and vectors in the pipeline *)

Lemma insert_chunks_rows (uuid4 : nat -> string) (doc_id : string)
    (cs : list chunker.ChunkData) (db : sqlite.DB) :
  sqlite.insert_chunks uuid4 doc_id cs db
  = (sqlite.Return (spec_pipeline.new_ids uuid4 db (length cs)),
     spec_pipeline.add_rows uuid4 doc_id cs db).
Proof.
  revert db. induction cs as [|c cs IH]; intros db.
  - unfold spec_pipeline.add_rows, spec_pipeline.new_rows,
      spec_pipeline.new_ids. simpl.
    rewrite app_nil_r, Nat.add_0_r. by destruct db.
  - cbn [sqlite.insert_chunks].
    unfold sqlite.bind at 1, sqlite.fresh_uuid at 1. cbv beta iota.
    unfold sqlite.bind at 1, sqlite.modify at 1. cbv beta iota.
    unfold sqlite.bind at 1. rewrite IH. cbv beta iota.
    unfold sqlite.ret, spec_pipeline.add_rows, spec_pipeline.new_rows,
      spec_pipeline.new_ids, sqlite.set_chunks.
    cbn [sqlite.documents sqlite.chunks sqlite.toc_entries sqlite.flashcards
         sqlite.settings sqlite.chroma sqlite.uuid_counter sqlite.status_log
         sqlite.llm_calls length seq fmap list_fmap zip_with].
    rewrite <- app_assoc. cbn [app].
    do 2 f_equal. lia.
Qed.

Lemma add_vectors_nil (doc_id : string) (db : sqlite.DB) :
  spec_pipeline.add_vectors doc_id [] db = db.
Proof.
  unfold spec_pipeline.add_vectors, spec_pipeline.vectors. simpl.
  rewrite app_nil_r. by destruct db.
Qed.

Lemma add_vectors_app (doc_id : string) (a b : list string) (db : sqlite.DB) :
  spec_pipeline.add_vectors doc_id b (spec_pipeline.add_vectors doc_id a db)
  = spec_pipeline.add_vectors doc_id (a ++ b) db.
Proof.
  unfold spec_pipeline.add_vectors, spec_pipeline.vectors. simpl.
  by rewrite fmap_app, app_assoc.
Qed.

(** The batches: what [embed_batches] has added when it returns or raises. *)
Lemma embed_batches_prefix (fuel : nat) (env : external.Env)
    (doc_id : string) (cs : list chunker.ChunkData) (ids : list string)
    (db : sqlite.DB) :
  length ids = length cs -> length cs <= fuel ->
  exists (r : sqlite.Result unit) (n : nat),
    ingestion.embed_batches fuel env doc_id cs ids db
    = (r, spec_pipeline.add_vectors doc_id (take n ids) db)
    /\ (forall m, m < n -> (ingestion.CHROMA_BATCH_SIZE | m) ->
          external.chroma_add env
            (take ingestion.CHROMA_BATCH_SIZE (drop m ids)) = true)
    /\ match r with
       | sqlite.Return _ => take n ids = ids
       | sqlite.Raise =>
           n < length ids /\ (ingestion.CHROMA_BATCH_SIZE | n)
           /\ external.chroma_add env
                (take ingestion.CHROMA_BATCH_SIZE (drop n ids)) = false
       end.
Proof.
  revert cs ids db. induction fuel as [|fuel IH]; intros cs ids db Hlen Hfuel.
  - destruct cs; [| simpl in Hfuel; lia]. destruct ids; [| discriminate].
    exists (sqlite.Return tt), 0. simpl. rewrite add_vectors_nil.
    split; [reflexivity |]. split; [intros; lia | reflexivity].
  - destruct cs as [|c cs].
    { destruct ids; [| discriminate].
      exists (sqlite.Return tt), 0. simpl. rewrite add_vectors_nil.
      split; [reflexivity |]. split; [intros; lia | reflexivity]. }
    cbn [ingestion.embed_batches].
    set (B := ingestion.CHROMA_BATCH_SIZE).
    destruct (external.chroma_add env (take B ids)) eqn:Hadd.
    + unfold sqlite.bind at 1, sqlite.modify at 1. cbv beta iota.
      change (sqlite.mkDB _ _ _ _ _ _ _ _ _)
        with (spec_pipeline.add_vectors doc_id (take B ids) db).
      destruct (IH (drop B (c :: cs)) (drop B ids)
                  (spec_pipeline.add_vectors doc_id (take B ids) db))
        as (r & n & -> & Hbefore & Hr).
      { by rewrite !length_drop, Hlen. }
      { rewrite length_drop. simpl in Hfuel |- *. unfold B.
        unfold ingestion.CHROMA_BATCH_SIZE. lia. }
      exists r, (B + n). rewrite add_vectors_app, take_take_drop.
      split; [reflexivity |]. split.
      * intros m Hm [q Hq].
        destruct q as [|q].
        -- rewrite Hq. exact Hadd.
        -- replace m with (B + q * B) by lia. rewrite <- drop_drop.
           apply Hbefore; [lia |]. by exists q.
      * destruct r.
        -- by rewrite <- take_take_drop, Hr, take_drop.
        -- destruct Hr as (Hn & [q Hq] & Hfail). rewrite length_drop in Hn.
           split; [lia |]. split; [exists (q + 1); lia |].
           by rewrite <- drop_drop.
    + exists sqlite.Raise, 0. simpl. rewrite add_vectors_nil.
      split; [reflexivity |]. split; [intros; lia |].
      split; [rewrite Hlen; simpl; lia |].
      split; [exists 0; lia | exact Hadd].
Qed.

Lemma flagged_new_rows (uuid4 : nat -> string) (doc_id : string)
    (db : sqlite.DB) (cs : list chunker.ChunkData) :
  spec_pipeline.flagged doc_id (spec_pipeline.new_rows uuid4 doc_id db cs false)
  = spec_pipeline.new_rows uuid4 doc_id db cs true.
Proof.
  unfold spec_pipeline.flagged, spec_pipeline.new_rows.
  generalize (spec_pipeline.new_ids uuid4 db (length cs)). intros ids.
  revert ids. induction cs as [|c cs IH]; intros [|i ids]; try reflexivity.
  cbn [zip_with fmap list_fmap]. cbn [sqlite.document_id sqlite.id sqlite.data].
  rewrite decide_True by reflexivity. f_equal. apply IH.
Qed.

(** Writing a status leaves the chunk rows and the vector store alone. *)
Lemma set_status_data (doc_id : string) (s : sqlite.DocumentStatus)
    (db : sqlite.DB) :
  is_Some (sqlite.documents db !! doc_id) ->
  exists db1,
    ingestion._set_status doc_id s db = (sqlite.Return tt, db1)
    /\ spec.status_of doc_id db1 = Some s
    /\ sqlite.chunks db1 = sqlite.chunks db
    /\ sqlite.chroma db1 = sqlite.chroma db
    /\ sqlite.uuid_counter db1 = sqlite.uuid_counter db.
Proof.
  intros [d Hd]. eexists. split; [reflexivity |].
  unfold spec.status_of. simpl.
  rewrite lookup_alter, decide_True, Hd by reflexivity. by repeat split.
Qed.

Lemma status_of_is_Some (doc_id : string) (db : sqlite.DB)
    (s : sqlite.DocumentStatus) :
  spec.status_of doc_id db = Some s ->
  is_Some (sqlite.documents db !! doc_id).
Proof.
  unfold spec.status_of.
  destruct (sqlite.documents db !! doc_id); [by eexists | discriminate].
Qed.


(** What a run of [process_document] leaves in the chunk table and the
    vector store, for a document whose PDF opens, has enough text and
    gives at least one chunk. *)
Lemma process_document_chunks_and_vectors (env : external.Env)
    (doc_id : string) (db : sqlite.DB) (d : sqlite.Document)
    (f : pdf_extractor.FitzDoc) :
  sqlite.documents db !! doc_id = Some d ->
  external.fitz_open env (sqlite.file_path d) = Some f ->
  pdf_extractor.needs_ocr (pdf_extractor.extract_pdf f) = false ->
  let cs :=
    chunker.chunk_pages (pdf_extractor.pages (pdf_extractor.extract_pdf f))
      chunker.TARGET_CHARS chunker.OVERLAP_CHARS in
  cs <> [] ->
  let ids := spec_pipeline.new_ids (external.uuid4 env) db (length cs) in
  exists db',
    ingestion.process_document env doc_id db = (sqlite.Return tt, db')
    /\ ((spec.status_of doc_id db' = Some sqlite.ERROR
         /\ sqlite.chunks db'
            = sqlite.chunks db
              ++ spec_pipeline.new_rows (external.uuid4 env) doc_id db cs false
         /\ exists n,
             n < length cs
             /\ (ingestion.CHROMA_BATCH_SIZE | n)
             /\ external.chroma_add env
                  (take ingestion.CHROMA_BATCH_SIZE (drop n ids)) = false
             /\ sqlite.chroma db'
                = spec_pipeline.purged env doc_id (sqlite.chroma db)
                  ++ spec_pipeline.vectors doc_id (take n ids))
        \/ ((spec.status_of doc_id db' = Some sqlite.READY
             \/ spec.status_of doc_id db' = Some sqlite.CONCEPTS_READY)
            /\ sqlite.chunks db'
               = spec_pipeline.flagged doc_id (sqlite.chunks db)
                 ++ spec_pipeline.new_rows (external.uuid4 env) doc_id db cs
                      true
            /\ sqlite.chroma db'
               = spec_pipeline.purged env doc_id (sqlite.chroma db)
                 ++ spec_pipeline.vectors doc_id ids
            /\ forall m, (ingestion.CHROMA_BATCH_SIZE | m) ->
                 m < length cs ->
                 external.chroma_add env
                   (take ingestion.CHROMA_BATCH_SIZE (drop m ids)) = true)).
Proof.
  intros Hd Hf Hocr cs Hcs ids.
  unfold ingestion.process_document, sqlite.try_except,
    ingestion.process_document_body.
  (* extracting *)
  unfold sqlite.bind at 1, ingestion._set_status at 1,
    sqlite.update_document_status at 1, sqlite.modify at 1. cbv beta iota.
  unfold sqlite.bind at 1, sqlite.get_document at 1, sqlite.gets at 1.
  cbv beta iota.
  cbn [sqlite.documents sqlite.log_status sqlite.set_documents].
  rewrite lookup_alter, decide_True, Hd by reflexivity.
  cbn [fmap option_fmap option_map sqlite.file_path].
  rewrite Hf.
  unfold sqlite.bind at 1, sqlite.ret at 1. cbv beta iota.
  (* metadata *)
  unfold sqlite.bind at 1, ingestion.update_metadata at 1, sqlite.modify at 1.
  cbv beta iota.
  match goal with
  | |- context [sqlite.set_documents ?g (sqlite.log_status ?a ?b ?c)] =>
      set (db2 := sqlite.set_documents g (sqlite.log_status a b c))
  end.
  assert (F2 : sqlite.chunks db2 = sqlite.chunks db
               /\ sqlite.chroma db2 = sqlite.chroma db
               /\ sqlite.uuid_counter db2 = sqlite.uuid_counter db
               /\ is_Some (sqlite.documents db2 !! doc_id)).
  { unfold db2. cbn. split_and!; try reflexivity.
    rewrite !lookup_alter, !decide_True, Hd by reflexivity. by eexists. }
  clearbody db2.
  (* table of contents *)
  unfold sqlite.bind at 1.
  assert (Htoc : exists db3,
             (match pdf_extractor.toc (pdf_extractor.extract_pdf f) with
              | [] => sqlite.ret tt
              | _ :: _ =>
                  sqlite.insert_toc_entries doc_id
                    (pdf_extractor.toc (pdf_extractor.extract_pdf f))
              end) db2 = (sqlite.Return tt, db3)
             /\ sqlite.chunks db3 = sqlite.chunks db
             /\ sqlite.chroma db3 = sqlite.chroma db
             /\ sqlite.uuid_counter db3 = sqlite.uuid_counter db
             /\ is_Some (sqlite.documents db3 !! doc_id)).
  { destruct (pdf_extractor.toc _); eexists; (split; [reflexivity |]);
      exact F2. }
  destruct Htoc as (db3 & -> & K3 & V3 & U3 & D3). cbv beta iota.
  clear F2 db2. rewrite Hocr.
  (* chunking *)
  destruct (set_status_data doc_id sqlite.CHUNKING db3 D3)
    as (db4 & R4 & S4 & K4 & V4 & U4).
  unfold sqlite.bind at 1. rewrite R4. cbv beta iota.
  rewrite K3 in K4. rewrite V3 in V4. rewrite U3 in U4.
  clear R4 K3 V3 U3 D3 db3.
  fold cs. unfold ids. clear ids. clearbody cs.
  destruct cs as [|c cs']; [done |]. cbv iota.
  remember (c :: cs') as cs eqn:Ecs. clear Ecs Hcs c cs'.
  unfold sqlite.bind at 1. rewrite insert_chunks_rows. cbv beta iota.
  set (db5 := spec_pipeline.add_rows (external.uuid4 env) doc_id cs db4).
  assert (Hids : spec_pipeline.new_ids (external.uuid4 env) db4 (length cs)
                 = spec_pipeline.new_ids (external.uuid4 env) db (length cs))
    by (unfold spec_pipeline.new_ids; by rewrite U4).
  assert (K5 : sqlite.chunks db5
               = sqlite.chunks db
                 ++ spec_pipeline.new_rows (external.uuid4 env) doc_id db cs
                      false).
  { unfold db5, spec_pipeline.add_rows, spec_pipeline.new_rows. simpl.
    by rewrite K4, Hids. }
  assert (V5 : sqlite.chroma db5 = sqlite.chroma db) by exact V4.
  assert (D5 : is_Some (sqlite.documents db5 !! doc_id))
    by exact (status_of_is_Some _ _ _ S4).
  rewrite Hids. clearbody db5. clear K4 V4 U4 S4 Hids db4.
  (* embedding *)
  destruct (set_status_data doc_id sqlite.EMBEDDING db5 D5)
    as (db6 & R6 & S6 & K6 & V6 & _).
  unfold sqlite.bind at 1. rewrite R6. cbv beta iota.
  rewrite K5 in K6. rewrite V5 in V6. clear R6 K5 V5 D5 db5.
  unfold sqlite.bind at 1.
  assert (Hdel : exists db7,
             (if external.chroma_delete env doc_id
              then sqlite.modify
                     (fun db =>
                        sqlite.mkDB (sqlite.documents db) (sqlite.chunks db)
                          (sqlite.toc_entries db) (sqlite.flashcards db)
                          (sqlite.settings db)
                          (filter (fun e => e.2 <> doc_id) (sqlite.chroma db))
                          (sqlite.uuid_counter db) (sqlite.status_log db)
                          (sqlite.llm_calls db))
              else sqlite.ret tt) db6 = (sqlite.Return tt, db7)
             /\ sqlite.chunks db7 = sqlite.chunks db6
             /\ sqlite.chroma db7
                = spec_pipeline.purged env doc_id (sqlite.chroma db6)
             /\ spec.status_of doc_id db7 = spec.status_of doc_id db6).
  { unfold spec_pipeline.purged.
    destruct (external.chroma_delete env doc_id); eexists;
      (split; [reflexivity |]); by repeat split. }
  destruct Hdel as (db7 & -> & K7 & V7 & S7). cbv beta iota.
  rewrite K6 in K7. rewrite V6 in V7. rewrite S6 in S7. clear K6 V6 S6 db6.
  set (ids := spec_pipeline.new_ids (external.uuid4 env) db (length cs)).
  assert (Hlen : length ids = length cs)
    by (unfold ids, spec_pipeline.new_ids; by rewrite length_fmap, length_seq).
  destruct (embed_batches_prefix (length cs) env doc_id cs ids db7 Hlen
              (le_n _)) as (r & n & R8 & Hbefore & Hr).
  unfold sqlite.bind at 1. rewrite R8. clear R8.
  set (db8 := spec_pipeline.add_vectors doc_id (take n ids) db7).
  assert (K8 : sqlite.chunks db8 = sqlite.chunks db7) by reflexivity.
  assert (V8 : sqlite.chroma db8
               = sqlite.chroma db7 ++ spec_pipeline.vectors doc_id (take n ids))
    by reflexivity.
  assert (S8 : spec.status_of doc_id db8 = spec.status_of doc_id db7)
    by reflexivity.
  rewrite K7 in K8. rewrite V7 in V8. rewrite S7 in S8.
  clearbody db8. clear K7 V7 S7 db7.
  destruct r as [[]|].
  - (* every batch was added *)
    cbv beta iota.
    unfold sqlite.bind at 1, sqlite.update_chunks_embedding at 1,
      sqlite.modify at 1. cbv beta iota.
    match goal with
    | |- context [sqlite.set_chunks ?g db8] =>
        set (db9 := sqlite.set_chunks g db8)
    end.
    assert (K9 : sqlite.chunks db9
                 = spec_pipeline.flagged doc_id (sqlite.chunks db)
                   ++ spec_pipeline.new_rows (external.uuid4 env) doc_id db cs
                        true).
    { unfold db9. cbn [sqlite.chunks sqlite.set_chunks]. rewrite K8.
      rewrite fmap_app.
      change (spec_pipeline.flagged doc_id (sqlite.chunks db)
              ++ spec_pipeline.flagged doc_id
                   (spec_pipeline.new_rows (external.uuid4 env) doc_id db cs
                      false)
              = spec_pipeline.flagged doc_id (sqlite.chunks db)
                ++ spec_pipeline.new_rows (external.uuid4 env) doc_id db cs
                     true).
      by rewrite flagged_new_rows. }
    assert (V9 : sqlite.chroma db9
                 = spec_pipeline.purged env doc_id (sqlite.chroma db)
                   ++ spec_pipeline.vectors doc_id ids).
    { unfold db9. cbn [sqlite.chroma sqlite.set_chunks]. rewrite V8.
      rewrite Hr. reflexivity. }
    assert (S9 : spec.status_of doc_id db9 = Some sqlite.EMBEDDING)
      by exact S8.
    assert (Hall : forall m, (ingestion.CHROMA_BATCH_SIZE | m) ->
               m < length cs ->
               external.chroma_add env
                 (take ingestion.CHROMA_BATCH_SIZE (drop m ids)) = true).
    { intros m Hdiv Hm. apply Hbefore; [| exact Hdiv].
      apply (f_equal length) in Hr. rewrite length_take in Hr. lia. }
    clearbody db9. clear K8 V8 S8 db8 Hbefore Hr.
    unfold sqlite.bind at 1, sqlite.get_setting at 1, sqlite.gets at 1.
    cbv beta iota.
    unfold sqlite.bind at 1, sqlite.get_setting at 1, sqlite.gets at 1.
    cbv beta iota.
    unfold sqlite.bind at 1, sqlite.get_document at 1, sqlite.gets at 1.
    cbv beta iota.
    destruct (_ || _).
    + match goal with
      | |- context [ingestion._run_llm_stage env doc_id ?t ?a db9] =>
          destruct (run_llm_stage_spec env doc_id t a db9)
            as (db' & -> & _ & K & V & _ & S)
      end.
      exists db'. split; [reflexivity |]. right.
      destruct (status_of_is_Some _ _ _ S9) as [d9 Hd9].
      split; [right; exact (S d9 Hd9) |].
      split; [by rewrite K |]. split; [by rewrite V | exact Hall].
    + destruct (set_status_data doc_id sqlite.READY db9
                  (status_of_is_Some _ _ _ S9))
        as (db' & -> & S & K & V & _).
      exists db'. split; [reflexivity |]. right.
      split; [left; exact S |].
      split; [by rewrite K |]. split; [by rewrite V | exact Hall].
  - (* a batch was refused *)
    destruct (set_status_data doc_id sqlite.ERROR db8
                (status_of_is_Some _ _ _ S8))
      as (db' & -> & S & K & V & _).
    exists db'. split; [reflexivity |]. left.
    split; [exact S |]. split; [by rewrite K |].
    destruct Hr as (Hn & Hdiv & Hfail).
    exists n. split; [lia |]. split; [exact Hdiv |]. split; [exact Hfail |].
    by rewrite V.
Qed.

(** A run that stops before chunks are stored writes no data. *)
Lemma process_document_no_chunks (env : external.Env) (doc_id : string)
    (db : sqlite.DB) (d : sqlite.Document) :
  sqlite.documents db !! doc_id = Some d ->
  match external.fitz_open env (sqlite.file_path d) with
  | None => True
  | Some f =>
      pdf_extractor.needs_ocr (pdf_extractor.extract_pdf f) = true
      \/ chunker.chunk_pages
           (pdf_extractor.pages (pdf_extractor.extract_pdf f))
           chunker.TARGET_CHARS chunker.OVERLAP_CHARS = []
  end ->
  exists db',
    ingestion.process_document env doc_id db = (sqlite.Return tt, db')
    /\ spec.status_of doc_id db'
       = Some match external.fitz_open env (sqlite.file_path d) with
              | None => sqlite.ERROR
              | Some f =>
                  if pdf_extractor.needs_ocr (pdf_extractor.extract_pdf f)
                  then sqlite.NEEDS_OCR else sqlite.READY
              end
    /\ sqlite.chunks db' = sqlite.chunks db
    /\ sqlite.chroma db' = sqlite.chroma db
    /\ sqlite.flashcards db' = sqlite.flashcards db
    /\ sqlite.uuid_counter db' = sqlite.uuid_counter db
    /\ sqlite.llm_calls db' = sqlite.llm_calls db.
Proof.
  intros Hd Hexit.
  unfold ingestion.process_document, sqlite.try_except,
    ingestion.process_document_body.
  unfold sqlite.bind at 1, ingestion._set_status at 1,
    sqlite.update_document_status at 1, sqlite.modify at 1. cbv beta iota.
  unfold sqlite.bind at 1, sqlite.get_document at 1, sqlite.gets at 1.
  cbv beta iota.
  cbn [sqlite.documents sqlite.log_status sqlite.set_documents].
  rewrite lookup_alter, decide_True, Hd by reflexivity.
  cbn [fmap option_fmap option_map sqlite.file_path].
  destruct (external.fitz_open env (sqlite.file_path d)) as [f|].
  2:{ unfold sqlite.bind at 1, sqlite.raise at 1. cbv beta iota.
      eexists. split; [reflexivity |]. unfold spec.status_of. cbn.
      rewrite !lookup_alter, !decide_True, Hd by reflexivity.
      by repeat split. }
  unfold sqlite.bind at 1, sqlite.ret at 1. cbv beta iota.
  unfold sqlite.bind at 1, ingestion.update_metadata at 1, sqlite.modify at 1.
  cbv beta iota.
  unfold sqlite.bind at 1.
  destruct (pdf_extractor.needs_ocr (pdf_extractor.extract_pdf f)) eqn:Hocr.
  - destruct (pdf_extractor.toc (pdf_extractor.extract_pdf f));
      (eexists; split; [reflexivity |]; unfold spec.status_of; cbn;
       rewrite !lookup_alter, !decide_True, Hd by reflexivity;
       by repeat split).
  - destruct Hexit as [? | Hnone]; [discriminate |].
    destruct (pdf_extractor.toc (pdf_extractor.extract_pdf f));
      (cbv beta iota;
       unfold sqlite.bind at 1, ingestion._set_status at 1,
         sqlite.update_document_status at 1, sqlite.modify at 1;
       cbv beta iota; rewrite Hnone;
       eexists; split; [reflexivity |]; unfold spec.status_of; cbn;
       rewrite !lookup_alter, !decide_True, Hd by reflexivity;
       by repeat split).
Qed.

(** The chunk data of the rows: flagging rows does not change it, and the
    new rows carry the chunks. *)
Lemma data_flagged (doc_id : string) (rows : list sqlite.ChunkRow) :
  sqlite.data <$> spec_pipeline.flagged doc_id rows = sqlite.data <$> rows.
Proof.
  unfold spec_pipeline.flagged. rewrite <- list_fmap_compose.
  apply list_fmap_ext. intros _ r _. simpl. by case_decide.
Qed.

Lemma data_new_rows (uuid4 : nat -> string) (doc_id : string)
    (db : sqlite.DB) (cs : list chunker.ChunkData) (flag : bool) :
  sqlite.data <$> spec_pipeline.new_rows uuid4 doc_id db cs flag = cs.
Proof.
  unfold spec_pipeline.new_rows, spec_pipeline.new_ids.
  generalize (sqlite.uuid_counter db). induction cs as [|c cs IH]; intros n.
  - reflexivity.
  - cbn [length seq fmap list_fmap zip_with]. cbn [sqlite.data].
    f_equal. apply IH.
Qed.

(** A run of [process_document] on a document whose PDF opens with enough
    text extracts and chunks it, and inserts the chunks, whatever rows of
    the document the table holds already. *)
Lemma process_document_redoes_chunks (env : external.Env) (doc_id : string)
    (db : sqlite.DB) (d : sqlite.Document) (f : pdf_extractor.FitzDoc) :
  sqlite.documents db !! doc_id = Some d ->
  external.fitz_open env (sqlite.file_path d) = Some f ->
  pdf_extractor.needs_ocr (pdf_extractor.extract_pdf f) = false ->
  sqlite.data <$> sqlite.chunks (ingestion.process_document env doc_id db).2
  = (sqlite.data <$> sqlite.chunks db)
    ++ chunker.chunk_pages (pdf_extractor.pages (pdf_extractor.extract_pdf f))
         chunker.TARGET_CHARS chunker.OVERLAP_CHARS.
Proof.
  intros Hd Hf Hocr.
  destruct (decide (chunker.chunk_pages
                      (pdf_extractor.pages (pdf_extractor.extract_pdf f))
                      chunker.TARGET_CHARS chunker.OVERLAP_CHARS = []))
    as [Hnil | Hcs].
  - destruct (process_document_no_chunks env doc_id db d Hd)
      as (db' & -> & _ & K & _).
    { rewrite Hf. right. exact Hnil. }
    cbn [snd]. by rewrite K, Hnil, app_nil_r.
  - destruct (process_document_chunks_and_vectors env doc_id db d f Hd Hf
                Hocr Hcs) as (db' & -> & [(_ & K & _) | (_ & K & _)]);
      cbn [snd]; rewrite K, fmap_app, data_new_rows;
      [reflexivity | by rewrite data_flagged].
Qed.

(** The standalone LLM stage sends to the LLM what the two sub-stages
    send. *)
Lemma run_llm_stage_for_doc_calls (env : external.Env) (doc_id : string)
    (db : sqlite.DB) (d : sqlite.Document) :
  sqlite.documents db !! doc_id = Some d ->
  sqlite.llm_calls (ingestion.run_llm_stage_for_doc env doc_id db).2
  = sqlite.llm_calls db
    ++ spec.calls_of sqlite.CONCEPTS (spec.concept_rows env doc_id db)
    ++ spec.calls_of sqlite.FLASHCARDS (spec.card_rows env doc_id db).
Proof.
  intros Hd.
  unfold ingestion.run_llm_stage_for_doc, sqlite.try_except.
  unfold sqlite.bind at 1, sqlite.get_document at 1, sqlite.gets at 1.
  cbv beta iota. rewrite Hd.
  destruct (run_llm_stage_spec env doc_id (sqlite.title d) (sqlite.author d)
              db) as (db' & R & _ & _ & _ & Hcalls & _).
  rewrite R. exact Hcalls.
Qed.

(** ** The claims on the pipeline and the registry *)

(** The one trace of [process_document] that enters the LLM stage. *)
Lemma run_traces_llm (l : list sqlite.DocumentStatus) :
  l ∈ spec.run_traces ->
  sqlite.EXTRACTING_CONCEPTS ∈ l ->
  l = [sqlite.EXTRACTING; sqlite.CHUNKING; sqlite.EMBEDDING;
       sqlite.EXTRACTING_CONCEPTS; sqlite.CONCEPTS_READY].
Proof.
  rewrite !list_elem_of_In. unfold spec.run_traces, spec.body_traces.
  simpl. intros [<- | [<- | [<- | [<- | [<- | [<- | []]]]]]]; simpl;
    intuition discriminate.
Qed.

(** With the collaborators [env_llm_fails] both LLM sub-stages raise. *)
Lemma both_substages_raise :
  fst (concept_extractor.extract_concepts_for_document spec.env_llm_fails
         "d1" "paper" "" (spec.db_with sqlite.EXTRACTING_CONCEPTS))
  = sqlite.Raise
  /\ fst (flashcard_generator.generate_flashcards_for_document
            spec.env_llm_fails "d1" (spec.db_with sqlite.EXTRACTING_CONCEPTS))
     = sqlite.Raise.
Proof. split; vm_compute; reflexivity. Qed.

(** C1. Once the LLM stage is entered for a document, the stage returns and
    the document is in status concepts_ready, whatever the concept
    extraction and the flashcard generation do (return or raise): the
    statuses written are extracting_concepts and concepts_ready, never
    error.  The same holds for the two coroutines that enter the stage:
    a run of [process_document] that writes extracting_concepts ends in
    concepts_ready without writing error, and so does
    [run_llm_stage_for_doc]. *)
Theorem llm_stage_always_concepts_ready (env : external.Env)
    (doc_id doc_title doc_author : string) (db : sqlite.DB)
    (s0 : sqlite.DocumentStatus) :
  spec.status_of doc_id db = Some s0 ->
  (exists db',
      ingestion._run_llm_stage env doc_id doc_title doc_author db
      = (sqlite.Return tt, db')
      /\ spec.status_of doc_id db' = Some sqlite.CONCEPTS_READY
      /\ spec.statuses_written doc_id db db'
         = [sqlite.EXTRACTING_CONCEPTS; sqlite.CONCEPTS_READY])
  /\ (let db' := (ingestion.process_document env doc_id db).2 in
      let ws := spec.statuses_written doc_id db db' in
      sqlite.EXTRACTING_CONCEPTS ∈ ws ->
      last ws = Some sqlite.CONCEPTS_READY
      /\ (sqlite.ERROR ∉ ws)
      /\ spec.status_of doc_id db' = Some sqlite.CONCEPTS_READY)
  /\ (let db' := (ingestion.run_llm_stage_for_doc env doc_id db).2 in
      spec.statuses_written doc_id db db'
      = [sqlite.EXTRACTING_CONCEPTS; sqlite.CONCEPTS_READY]
      /\ spec.status_of doc_id db' = Some sqlite.CONCEPTS_READY).
Proof.
  intros H0. split; [| split].
  - unfold spec.status_of in H0.
    destruct (sqlite.documents db !! doc_id) as [d|] eqn:Hd; [| discriminate].
    destruct (run_llm_stage_spec env doc_id doc_title doc_author db)
      as (db' & R & L & _ & _ & _ & S).
    exists db'. split; [exact R |]. split; [exact (S d Hd) |].
    apply statuses_written_own. exact L.
  - destruct (process_document_spec env doc_id db s0 H0)
      as (l & db' & R & Hin & L & S).
    rewrite R. cbn zeta. cbn [snd].
    rewrite (statuses_written_own doc_id db db' l L). rewrite S.
    intros Hec. rewrite (run_traces_llm l Hin Hec).
    split; [reflexivity |]. split; [| reflexivity].
    rewrite list_elem_of_In. simpl. intuition discriminate.
  - destruct (run_llm_stage_for_doc_spec env doc_id db s0 H0)
      as (db' & R & L & S & _).
    rewrite R. cbn zeta. cbn [snd]. split; [| exact S].
    apply statuses_written_own. exact L.
Qed.

(** The theorem at a document stuck in embedding, with collaborators that
    make both sub-stages raise. *)
Lemma llm_stage_always_concepts_ready_witness :
  spec.status_of "d1" (spec.db_with sqlite.EMBEDDING) = Some sqlite.EMBEDDING
  /\ exists db',
      ingestion._run_llm_stage spec.env_llm_fails "d1" "paper" ""
        (spec.db_with sqlite.EMBEDDING) = (sqlite.Return tt, db')
      /\ spec.status_of "d1" db' = Some sqlite.CONCEPTS_READY
      /\ spec.statuses_written "d1" (spec.db_with sqlite.EMBEDDING) db'
         = [sqlite.EXTRACTING_CONCEPTS; sqlite.CONCEPTS_READY].
Proof.
  split; [reflexivity |].
  apply (llm_stage_always_concepts_ready spec.env_llm_fails "d1" "paper" ""
           (spec.db_with sqlite.EMBEDDING) sqlite.EMBEDDING).
  reflexivity.
Defined.

(** The whole pipeline with the failing sub-stages: the trace ends in
    concepts_ready. *)
Lemma pipeline_with_failing_llm :
  spec.statuses_written "d1" (spec.db_with sqlite.PENDING)
    (ingestion.process_document spec.env_llm_fails "d1"
       (spec.db_with sqlite.PENDING)).2
  = [sqlite.EXTRACTING; sqlite.CHUNKING; sqlite.EMBEDDING;
     sqlite.EXTRACTING_CONCEPTS; sqlite.CONCEPTS_READY].
Proof. vm_compute. reflexivity. Qed.

(** C2. The recovery sweep, run on the persisted store with an empty
    registry, starts for a document in extracting, chunking or embedding
    the full pipeline: its run begins by writing extracting and, when the
    PDF opens with enough text, extracts and chunks the document again
    and inserts the chunks after the rows the table holds.  For a document
    in extracting_concepts it starts the standalone LLM stage: its run
    writes extracting_concepts and concepts_ready only, leaves the chunk
    rows and the vector store as they are, and sends to the LLM exactly
    the chunks the concept extraction selects followed by those the
    flashcard generation selects.  For a document in any other status it
    starts nothing. *)
Theorem recovery_restart_points (env : external.Env) (db : sqlite.DB)
    (doc_id : string) (d : sqlite.Document) :
  sqlite.documents db !! doc_id = Some d ->
  let r :=
    task_registry.recover_stuck_documents db task_registry.empty_registry in
  (sqlite.status d ∈ [sqlite.EXTRACTING; sqlite.CHUNKING; sqlite.EMBEDDING] ->
   spec.active doc_id r
   = [task_registry.mkTask doc_id (task_registry.process_document doc_id)
        false]
   /\ let db' :=
        (task_registry.run_coroutine env
           (task_registry.process_document doc_id) db).2 in
      (exists rest,
          spec.statuses_written doc_id db db' = sqlite.EXTRACTING :: rest)
      /\ (forall f,
            external.fitz_open env (sqlite.file_path d) = Some f ->
            pdf_extractor.needs_ocr (pdf_extractor.extract_pdf f) = false ->
            sqlite.data <$> sqlite.chunks db'
            = (sqlite.data <$> sqlite.chunks db)
              ++ chunker.chunk_pages
                   (pdf_extractor.pages (pdf_extractor.extract_pdf f))
                   chunker.TARGET_CHARS chunker.OVERLAP_CHARS))
  /\ (sqlite.status d = sqlite.EXTRACTING_CONCEPTS ->
      spec.active doc_id r
      = [task_registry.mkTask doc_id
           (task_registry.run_llm_stage_for_doc doc_id) false]
      /\ let db' :=
           (task_registry.run_coroutine env
              (task_registry.run_llm_stage_for_doc doc_id) db).2 in
         spec.statuses_written doc_id db db'
         = [sqlite.EXTRACTING_CONCEPTS; sqlite.CONCEPTS_READY]
         /\ sqlite.chunks db' = sqlite.chunks db
         /\ sqlite.chroma db' = sqlite.chroma db
         /\ spec.new_calls db db'
            = spec.calls_of sqlite.CONCEPTS (spec.concept_rows env doc_id db)
              ++ spec.calls_of sqlite.FLASHCARDS
                   (spec.card_rows env doc_id db))
  /\ (sqlite.status d
      ∉ [sqlite.EXTRACTING; sqlite.CHUNKING; sqlite.EMBEDDING;
         sqlite.EXTRACTING_CONCEPTS] ->
      spec.active doc_id r = []).
Proof.
  intros Hd r. subst r. rewrite (recover_active db doc_id d Hd).
  assert (H0 : spec.status_of doc_id db = Some (sqlite.status d))
    by (unfold spec.status_of; rewrite Hd; reflexivity).
  split; [| split].
  - intros Hs. rewrite decide_True by exact Hs. split; [reflexivity |].
    cbn zeta. cbn [task_registry.run_coroutine]. split.
    + destruct (process_document_spec env doc_id db _ H0)
        as (l & db' & R & Hin & L & _).
      rewrite R. cbn [snd]. rewrite (statuses_written_own doc_id db db' l L).
      destruct (run_traces_forward l Hin) as (rest & -> & _). eauto.
    + intros f Hf Hocr.
      exact (process_document_redoes_chunks env doc_id db d f Hd Hf Hocr).
  - intros Hs. rewrite decide_False, decide_True; [| exact Hs |].
    2:{ rewrite Hs. intros Hin.
        repeat (apply elem_of_cons in Hin as [Hin | Hin];
                [discriminate Hin |]).
        inversion Hin. }
    split; [reflexivity |]. cbn zeta. cbn [task_registry.run_coroutine].
    pose proof (run_llm_stage_for_doc_calls env doc_id db d Hd) as Hcalls.
    destruct (run_llm_stage_for_doc_spec env doc_id db _ H0)
      as (db' & R & L & _ & Hch & Hcr).
    rewrite R in Hcalls |- *. cbn [snd] in Hcalls |- *.
    split; [apply statuses_written_own; exact L |].
    split; [exact Hch |]. split; [exact Hcr |].
    apply new_calls_app. exact Hcalls.
  - intros Hs. rewrite decide_False, decide_False; [reflexivity | |].
    + intros He. apply Hs. rewrite He.
      do 3 apply list_elem_of_further. apply list_elem_of_here.
    + intros Hin. apply Hs.
      repeat (apply elem_of_cons in Hin as [-> | Hin];
              [eauto using list_elem_of_here, list_elem_of_further |]).
      inversion Hin.
Qed.

(** The scenario of the specification: a document stuck in embedding is
    restarted from extracting, a document stuck in extracting_concepts at
    the LLM stage. *)
Lemma recovery_restart_points_witness :
  sqlite.documents (spec.db_with sqlite.EMBEDDING) !! "d1"
  = Some (spec.doc_in sqlite.EMBEDDING)
  /\ spec.active "d1"
       (task_registry.recover_stuck_documents (spec.db_with sqlite.EMBEDDING)
          task_registry.empty_registry)
     = [task_registry.mkTask "d1" (task_registry.process_document "d1") false]
  /\ sqlite.documents (spec.db_with sqlite.EXTRACTING_CONCEPTS) !! "d1"
     = Some (spec.doc_in sqlite.EXTRACTING_CONCEPTS)
  /\ spec.active "d1"
       (task_registry.recover_stuck_documents
          (spec.db_with sqlite.EXTRACTING_CONCEPTS)
          task_registry.empty_registry)
     = [task_registry.mkTask "d1" (task_registry.run_llm_stage_for_doc "d1")
          false].
Proof.
  split; [reflexivity |]. split.
  - apply (proj1 (recovery_restart_points spec.env_ok
                    (spec.db_with sqlite.EMBEDDING) "d1"
                    (spec.doc_in sqlite.EMBEDDING) eq_refl)).
    simpl. apply list_elem_of_further, list_elem_of_further, list_elem_of_here.
  - split; [reflexivity |].
    apply (proj1 (proj2 (recovery_restart_points spec.env_ok
                           (spec.db_with sqlite.EXTRACTING_CONCEPTS) "d1"
                           (spec.doc_in sqlite.EXTRACTING_CONCEPTS) eq_refl))).
    reflexivity.
Defined.

(** The two restarts at work on the stores of the scenario: the full
    restart inserts the chunk of the document again, after the two rows the
    table holds; the rerun of the LLM stage sends the two embedded chunks
    to the concept extraction and then to the flashcard generation, and
    inserts no chunk. *)
Lemma recovery_restart_scenario :
  length
    (sqlite.chunks
       (task_registry.run_coroutine spec.env_ok
          (task_registry.process_document "d1")
          (spec.db_with sqlite.EMBEDDING)).2) = 3
  /\ (let db := spec.db_with sqlite.EXTRACTING_CONCEPTS in
      let db' :=
        (task_registry.run_coroutine spec.env_ok
           (task_registry.run_llm_stage_for_doc "d1") db).2 in
      spec.new_calls db db'
      = [(sqlite.CONCEPTS, "c0"); (sqlite.CONCEPTS, "c1");
         (sqlite.FLASHCARDS, "c0"); (sqlite.FLASHCARDS, "c1")]
      /\ length (sqlite.chunks db') = 2).
Proof. vm_compute. repeat split; reflexivity. Qed.

(** What the recovery sweep starts for an id, as the two queries give it. *)
Lemma recover_active_length (db : sqlite.DB) (k : string) :
  length (spec.active k
            (task_registry.recover_stuck_documents db
               task_registry.empty_registry)) <= 1.
Proof.
  destruct (sqlite.documents db !! k) as [d|] eqn:Hd.
  - rewrite (recover_active db k d Hd). repeat case_decide; simpl; lia.
  - unfold spec.active. rewrite recover_tasks. simpl. rewrite filter_app.
    rewrite !active_of_started by apply find_documents_by_status_NoDup.
    rewrite !decide_False; [simpl; lia | |];
      intros ([k' d] & -> & Hin)%list_elem_of_fmap;
      apply find_documents_by_status_elem in Hin as [Hk _];
      simpl in Hd; congruence.
Qed.

(** C3, as the specification states it, fails: a second [start_task] for a
    document id whose execution is still active is neither rejected nor
    ignored; two executions are then active for the id. *)
Lemma second_start_counterexample :
  ~ (length
       (spec.active "d1"
          (task_registry.start_task "d1" (task_registry.process_document "d1")
             (task_registry.start_task "d1"
                (task_registry.process_document "d1")
                task_registry.empty_registry))) <= 1).
Proof. vm_compute. lia. Qed.

(** C3, amended. [start_task] makes no check: every start request creates
    a new active execution next to the active ones of the same id and
    replaces the registry entry of the id with it.  One execution per id is
    what its callers keep to: the recovery sweep, starting from the empty
    registry of a new process, starts at most one execution per document
    id. *)
Theorem start_task_never_rejects :
  (forall (r : task_registry.Registry) (doc_id : string)
          (c : task_registry.Coroutine),
      spec.active doc_id (task_registry.start_task doc_id c r)
      = spec.active doc_id r ++ [task_registry.mkTask doc_id c false]
      /\ task_registry._running_tasks (task_registry.start_task doc_id c r)
         !! doc_id = Some (length (task_registry.tasks r)))
  /\ (forall (db : sqlite.DB) (doc_id : string),
         length (spec.active doc_id
                   (task_registry.recover_stuck_documents db
                      task_registry.empty_registry)) <= 1).
Proof.
  split.
  - intros r doc_id c. split.
    + unfold spec.active, task_registry.start_task. simpl.
      rewrite filter_app, filter_cons, decide_True by (simpl; done).
      reflexivity.
    + unfold task_registry.start_task. simpl. apply lookup_insert_eq.
  - apply recover_active_length.
Qed.

(** The registry after the first of two executions of an id finishes: its
    done-callback removes the entry of the id, although the second
    execution is still active. *)
Lemma first_finish_unregisters_second :
  let r :=
    task_registry.finish_task 0
      (task_registry.start_task "d1" (task_registry.process_document "d1")
         (task_registry.start_task "d1" (task_registry.process_document "d1")
            task_registry.empty_registry)) in
  task_registry.is_processing "d1" r = false
  /\ length (spec.active "d1" r) = 1.
Proof. vm_compute. split; reflexivity. Qed.

(** C4, as the specification states it, fails: the recovery sweep starts
    the full pipeline for a document stuck in embedding, and the pipeline
    first writes extracting. *)
Lemma recovery_restart_counterexample :
  spec.active "d1"
    (task_registry.recover_stuck_documents (spec.db_with sqlite.EMBEDDING)
       task_registry.empty_registry)
  = [task_registry.mkTask "d1" (task_registry.process_document "d1") false]
  /\ ~ spec.never_backwards sqlite.EMBEDDING
         (spec.statuses_written "d1" (spec.db_with sqlite.EMBEDDING)
            (task_registry.run_coroutine spec.env_ok
               (task_registry.process_document "d1")
               (spec.db_with sqlite.EMBEDDING)).2).
Proof.
  split; [vm_compute; reflexivity |].
  intros H. vm_compute in H. inversion H as [|t ts Hhd _]. discriminate Hhd.
Qed.

(** C4, amended. A run of the pipeline on an uploaded (pending) document
    moves its status forward in the pipeline order only, or into needs_ocr
    or error.  A run the recovery sweep starts does the same after its first
    write; its first write is forward as well, except that it takes a
    document stuck in chunking or embedding back to extracting. *)
Theorem status_forward_except_restart (env : external.Env) (db : sqlite.DB)
    (doc_id : string) (s0 : sqlite.DocumentStatus) :
  spec.status_of doc_id db = Some s0 ->
  (s0 = sqlite.PENDING ->
   spec.all_forward_or_terminal s0
     (spec.statuses_written doc_id db
        (ingestion.process_document env doc_id db).2))
  /\ (forall task,
         task ∈ task_registry.tasks
                  (task_registry.recover_stuck_documents db
                     task_registry.empty_registry) ->
         task_registry.task_doc task = doc_id ->
         spec.forward_after_restart s0
           (spec.statuses_written doc_id db
              (task_registry.run_coroutine env (task_registry.coro task)
                 db).2)).
Proof.
  intros H0.
  assert (Hrun : exists rest,
             spec.statuses_written doc_id db
               (ingestion.process_document env doc_id db).2
             = sqlite.EXTRACTING :: rest
             /\ spec.all_forward_or_terminal sqlite.EXTRACTING rest).
  { destruct (process_document_spec env doc_id db s0 H0)
      as (l & db' & R & Hin & L & _).
    rewrite R. cbn [snd]. rewrite (statuses_written_own doc_id db db' l L).
    destruct (run_traces_forward l Hin) as (rest & -> & Hf). eauto. }
  destruct Hrun as (rest & Hws & Hrest).
  split.
  - intros ->. rewrite Hws. unfold spec.all_forward_or_terminal. simpl.
    constructor; [reflexivity | exact Hrest].
  - intros task Hin Hdoc. rewrite recover_tasks in Hin. simpl in Hin.
    apply elem_of_app in Hin as [Hin | Hin];
      apply list_elem_of_fmap in Hin as ([k d] & -> & Hin);
      simpl in Hdoc; subst k;
      apply find_documents_by_status_elem in Hin as [Hd Hs];
      unfold spec.status_of in H0; rewrite Hd in H0; simpl in H0;
      injection H0 as <-; simpl.
    + rewrite Hws. unfold spec.forward_after_restart. simpl.
      split; [| exact Hrest].
      rewrite list_elem_of_In in Hs. simpl in Hs.
      destruct Hs as [<- | [<- | [<- | []]]]; auto.
    + apply list_elem_of_singleton in Hs.
      assert (H0 : spec.status_of doc_id db = Some (sqlite.status d))
        by (unfold spec.status_of; rewrite Hd; reflexivity).
      destruct (run_llm_stage_for_doc_spec env doc_id db _ H0)
        as (db' & R & L & _).
      rewrite R. cbn [snd]. rewrite (statuses_written_own _ _ _ _ L).
      rewrite Hs. unfold spec.forward_after_restart. simpl.
      split; [left; reflexivity | repeat constructor].
Qed.

(** The theorem at a document stuck in chunking: the restart is the first
    transition, the rest of the run moves forward. *)
Lemma status_forward_except_restart_witness :
  spec.status_of "d1" (spec.db_with sqlite.CHUNKING) = Some sqlite.CHUNKING
  /\ spec.forward_after_restart sqlite.CHUNKING
       (spec.statuses_written "d1" (spec.db_with sqlite.CHUNKING)
          (task_registry.run_coroutine spec.env_ok
             (task_registry.process_document "d1")
             (spec.db_with sqlite.CHUNKING)).2).
Proof.
  split; [reflexivity |].
  apply (proj2 (status_forward_except_restart spec.env_ok
                  (spec.db_with sqlite.CHUNKING) "d1" sqlite.CHUNKING
                  eq_refl)
           (task_registry.mkTask "d1" (task_registry.process_document "d1")
              false)).
  - vm_compute. apply list_elem_of_here.
  - reflexivity.
Defined.

(** ** The selection of chunks by the LLM sub-stages *)

#[local] Instance index_le_total : Total sqlite.index_le.
Proof. intros a b. unfold sqlite.index_le. lia. Qed.

#[local] Instance index_le_trans : Transitive sqlite.index_le.
Proof. intros a b c. unfold sqlite.index_le. lia. Qed.

(** [ORDER BY chunk_index LIMIT n]: at most [n] rows, by ascending index;
    they are embedded chunks of the document, and the rows left out have
    indices at least as large as the rows kept. *)
Lemma select_embedded_chunks_spec (doc_id : string) (limit : nat)
    (db : sqlite.DB) :
  let sel := sqlite.select_embedded_chunks doc_id limit db in
  length sel <= limit
  /\ StronglySorted sqlite.index_le sel
  /\ (forall r, r ∈ sel ->
        r ∈ sqlite.chunks db /\ sqlite.document_id r = doc_id
        /\ sqlite.has_embedding r = true)
  /\ (forall r r',
        r' ∈ sel -> r ∈ sqlite.chunks db -> sqlite.document_id r = doc_id ->
        sqlite.has_embedding r = true -> r ∉ sel -> sqlite.index_le r' r).
Proof.
  unfold sqlite.select_embedded_chunks.
  set (rows := filter _ (sqlite.chunks db)).
  set (sorted := merge_sort sqlite.index_le rows).
  assert (Hss : StronglySorted sqlite.index_le sorted)
    by (apply StronglySorted_merge_sort; apply _).
  assert (Hperm : sorted ≡ₚ rows) by apply merge_sort_Permutation.
  simpl. split; [apply firstn_le_length |]. split; [| split].
  - rewrite <- (take_drop limit sorted) in Hss.
    by apply StronglySorted_app_1_l in Hss.
  - intros r Hr. apply subseteq_take in Hr. rewrite Hperm in Hr.
    unfold rows in Hr. apply list_elem_of_filter in Hr as [[? ?] ?]. auto.
  - intros r r' Hr' Hr Hdoc Hemb Hnot.
    assert (Hin : r ∈ sorted).
    { rewrite Hperm. unfold rows. apply list_elem_of_filter. auto. }
    rewrite <- (take_drop limit sorted) in Hin, Hss.
    apply elem_of_app in Hin as [Hin | Hin]; [contradiction |].
    eapply StronglySorted_app_1_elem_of; eassumption.
Qed.

Lemma until_stop_prefix (chat : string -> external.LLMReply)
    (rows : list sqlite.ChunkRow) :
  spec.until_stop chat rows `prefix_of` rows.
Proof.
  induction rows as [|r rows IH]; simpl; [reflexivity |].
  destruct (spec.stops (chat (sqlite.id r))).
  - by exists rows.
  - by apply prefix_cons.
Qed.

Lemma until_stop_all (chat : string -> external.LLMReply)
    (rows : list sqlite.ChunkRow) :
  (forall r, r ∈ rows -> spec.stops (chat (sqlite.id r)) = false) ->
  spec.until_stop chat rows = rows.
Proof.
  induction rows as [|r rows IH]; intros H; simpl; [reflexivity |].
  rewrite (H r) by apply list_elem_of_here.
  rewrite IH; [reflexivity |].
  intros r' Hr'. apply H. by apply list_elem_of_further.
Qed.

(** C9, as the specification states it, fails: with two embedded chunks of
    indices 0 and 1 the concept sub-stage sends chunk 0 first, so the
    chunks are not handled most recent first. *)
Lemma chunk_order_counterexample :
  let db := spec.db_with sqlite.EXTRACTING_CONCEPTS in
  ~ spec.most_recent_first db
      (snd <$> spec.new_calls db
                 (concept_extractor.extract_concepts_for_document spec.env_ok
                    "d1" "paper" "" db).2).
Proof.
  intros db H. vm_compute in H.
  inversion H as [|a l _ Hhd]. inversion Hhd as [|b l' Hgt]. discriminate Hgt.
Qed.

(** With eleven embedded chunks the flashcard sub-stage sends the chunks of
    indices 0 to 9; the most recent chunk, of index 10, is the one the cap
    leaves out. *)
Lemma cap_keeps_first_chunks :
  snd <$> spec.new_calls spec.db_eleven_chunks
            (flashcard_generator.generate_flashcards_for_document spec.env_ok
               "d1" spec.db_eleven_chunks).2
  = ["c0"; "c1"; "c2"; "c3"; "c4"; "c5"; "c6"; "c7"; "c8"; "c9"].
Proof. vm_compute. reflexivity. Qed.

(** C9, amended. Both sub-stages read the embedded chunks of the document
    by ascending chunk index (first chunk of the document first) and keep
    at most a fixed number of them, the ones of lowest index: 20 for the
    concept extraction, 10 for the flashcard generation.  Of these they send
    to the LLM, in that order, the chunks of at least 100 characters, and no
    other chunk; they stop early only when a reply ends the loop (or, for
    the concepts, when the graph store refuses the document node). *)
Theorem llm_substages_chunk_selection (env : external.Env)
    (doc_id doc_title doc_author : string) (db : sqlite.DB) :
  (forall limit,
      let sel := sqlite.select_embedded_chunks doc_id limit db in
      length sel <= limit
      /\ StronglySorted sqlite.index_le sel
      /\ (forall r, r ∈ sel ->
            r ∈ sqlite.chunks db /\ sqlite.document_id r = doc_id
            /\ sqlite.has_embedding r = true)
      /\ (forall r r',
            r' ∈ sel -> r ∈ sqlite.chunks db ->
            sqlite.document_id r = doc_id ->
            sqlite.has_embedding r = true -> r ∉ sel ->
            sqlite.index_le r' r))
  /\ (let sel :=
        sqlite.select_embedded_chunks doc_id concept_extractor.MAX_CHUNKS db in
      let long := spec.eligible concept_extractor.MIN_CHUNK_CHARS sel in
      exists processed,
        spec.new_calls db
          (concept_extractor.extract_concepts_for_document env doc_id
             doc_title doc_author db).2
        = spec.calls_of sqlite.CONCEPTS processed
        /\ processed `prefix_of` long
        /\ (external.ensure_doc_node env doc_id = true ->
            (forall r, r ∈ long ->
               spec.stops (external.chat_concepts env (sqlite.id r)) = false) ->
            processed = long))
  /\ (let sel :=
        sqlite.select_embedded_chunks doc_id flashcard_generator.MAX_CHUNKS
          db in
      let long := spec.eligible flashcard_generator.MIN_CHUNK_CHARS sel in
      exists processed,
        spec.new_calls db
          (flashcard_generator.generate_flashcards_for_document env doc_id
             db).2
        = spec.calls_of sqlite.FLASHCARDS processed
        /\ processed `prefix_of` long
        /\ ((forall r, r ∈ long ->
               spec.stops (external.chat_cards env (sqlite.id r)) = false) ->
            processed = long))
  /\ concept_extractor.MAX_CHUNKS = 20 /\ flashcard_generator.MAX_CHUNKS = 10
  /\ concept_extractor.MIN_CHUNK_CHARS = 100%Z
  /\ flashcard_generator.MIN_CHUNK_CHARS = 100%Z.
Proof.
  split; [intros limit; apply select_embedded_chunks_spec |].
  split; [| split; [| repeat split]].
  - destruct (extract_concepts_spec env doc_id doc_title doc_author db)
      as (r & db' & R & _ & Hc).
    rewrite R. cbn [snd]. exists (spec.concept_rows env doc_id db).
    split; [by apply new_calls_app |].
    unfold spec.concept_rows.
    destruct (external.ensure_doc_node env doc_id).
    + split; [apply until_stop_prefix |]. intros _. apply until_stop_all.
    + split; [apply prefix_nil | discriminate].
  - destruct (generate_flashcards_spec env doc_id db)
      as (r & db' & R & _ & Hc).
    rewrite R. cbn [snd]. exists (spec.card_rows env doc_id db).
    split; [by apply new_calls_app |].
    unfold spec.card_rows.
    split; [apply until_stop_prefix | apply until_stop_all].
Qed.

(** The theorem at a document with two embedded chunks and collaborators
    that work: both chunks are sent, chunk 0 first. *)
Lemma llm_substages_chunk_selection_witness :
  let db := spec.db_with sqlite.EXTRACTING_CONCEPTS in
  spec.new_calls db
    (concept_extractor.extract_concepts_for_document spec.env_ok "d1"
       "paper" "" db).2
  = [(sqlite.CONCEPTS, "c0"); (sqlite.CONCEPTS, "c1")]
  /\ exists processed,
      spec.new_calls db
        (flashcard_generator.generate_flashcards_for_document spec.env_ok
           "d1" db).2
      = spec.calls_of sqlite.FLASHCARDS processed
      /\ processed
         = spec.eligible flashcard_generator.MIN_CHUNK_CHARS
             (sqlite.select_embedded_chunks "d1"
                flashcard_generator.MAX_CHUNKS db).
Proof.
  intros db. split; [vm_compute; reflexivity |].
  destruct (proj1 (proj2 (proj2
              (llm_substages_chunk_selection spec.env_ok "d1" "paper" "" db))))
    as (processed & Hcalls & _ & Hall).
  exists processed. split; [exact Hcalls |].
  apply Hall. intros r _. reflexivity.
Defined.

(** ** The chunker *)

(** *** Whitespace and [strip] *)

Lemma lstrip_nil_iff (s : list N) :
  py.lstrip s = [] <-> spec.all_space s = true.
Proof.
  unfold spec.all_space. induction s as [|c s IH]; simpl; [tauto |].
  destruct (py.isspace c); simpl; [exact IH |].
  split; discriminate.
Qed.

Lemma all_space_app (a b : list N) :
  spec.all_space (a ++ b) = spec.all_space a && spec.all_space b.
Proof. apply forallb_app. Qed.

Lemma all_space_rev (s : list N) :
  spec.all_space (rev s) = spec.all_space s.
Proof.
  induction s as [|c s IH]; [reflexivity |]. simpl.
  rewrite all_space_app, IH. simpl.
  rewrite andb_true_r. apply andb_comm.
Qed.

Lemma all_space_lstrip (s : list N) :
  spec.all_space (py.lstrip s) = spec.all_space s.
Proof.
  induction s as [|c s IH]; [reflexivity |]. simpl.
  destruct (py.isspace c) eqn:Hc; simpl; rewrite ?Hc; [exact IH | reflexivity].
Qed.

(** [not s.strip()] says that [s] is whitespace only. *)
Lemma blank_all_space (s : list N) : chunker.blank s = spec.all_space s.
Proof.
  unfold chunker.blank, py.strip, py.rstrip.
  rewrite <- (all_space_lstrip s), <- (all_space_rev (py.lstrip s)).
  destruct (py.lstrip (rev (py.lstrip s))) as [|c t] eqn:Hl.
  - simpl. symmetry. by apply lstrip_nil_iff.
  - destruct (rev (c :: t)) as [|x y] eqn:Hr.
    + apply (f_equal (@length N)) in Hr. rewrite length_rev in Hr.
      discriminate Hr.
    + symmetry. apply not_true_iff_false. intros Hall.
      apply lstrip_nil_iff in Hall. rewrite Hall in Hl. discriminate Hl.
Qed.

Lemma all_space_take (n : nat) (s : list N) :
  spec.all_space s = true -> spec.all_space (take n s) = true.
Proof.
  intros H. rewrite <- (take_drop n s), all_space_app in H.
  by apply andb_true_iff in H as [H _].
Qed.

(** *** Paragraphs *)

Lemma re_split_aux_concat (txt : list N) (nls : nat) (s : list N) :
  concat (chunker.re_split_aux txt nls s)
  = txt ++ replicate nls chunker.nl ++ s.
Proof.
  revert txt nls. induction s as [|c s IH]; intros txt nls;
    cbn [chunker.re_split_aux].
  - destruct (2 <=? nls); simpl; by rewrite ?app_nil_r.
  - destruct (N.eqb_spec c chunker.nl) as [-> | Hc].
    + rewrite IH. f_equal.
      rewrite replicate_S_end, <- app_assoc. reflexivity.
    + destruct (2 <=? nls); simpl; rewrite IH; simpl;
        by rewrite <- ?app_assoc.
Qed.

Lemma merge_parts_spec (parts : list (list N)) :
  concat (fst <$> chunker.merge_parts parts) = concat parts
  /\ Forall (fun p => p.2 = py.len p.1) (chunker.merge_parts parts).
Proof.
  assert (H : forall n parts, length parts <= n ->
                concat (fst <$> chunker.merge_parts parts) = concat parts
                /\ Forall (fun p => p.2 = py.len p.1)
                     (chunker.merge_parts parts)).
  { clear parts. induction n as [|n IH]; intros parts Hlen.
    - destruct parts; [simpl; auto | simpl in Hlen; lia].
    - destruct parts as [|part [|next rest]]; cbn [chunker.merge_parts].
      + simpl. auto.
      + split; [simpl; reflexivity | repeat constructor].
      + destruct (chunker.re_match_delim next).
        * destruct (IH rest ltac:(simpl in Hlen; lia)) as [Hc Hf].
          rewrite fmap_cons. cbn [fst concat].
          rewrite Hc, <- app_assoc. split; [reflexivity |].
          constructor; [reflexivity | exact Hf].
        * destruct (IH (next :: rest) ltac:(simpl in Hlen |- *; lia))
            as [Hc Hf].
          cbn [chunker.merge_parts] in Hc, Hf.
          rewrite fmap_cons. cbn [fst concat]. rewrite Hc.
          split; [reflexivity |].
          constructor; [reflexivity | exact Hf]. }
  exact (H (length parts) parts (le_n _)).
Qed.

(** The paragraphs are the text, cut in pieces. *)
Lemma split_paragraphs_spec (text : list N) :
  concat (fst <$> chunker._split_paragraphs text) = text
  /\ Forall (fun p => p.2 = py.len p.1) (chunker._split_paragraphs text).
Proof.
  unfold chunker._split_paragraphs.
  destruct (merge_parts_spec (chunker.re_split text)) as [Hc Hf].
  split; [| exact Hf]. rewrite Hc. unfold chunker.re_split.
  rewrite re_split_aux_concat. reflexivity.
Qed.

(** *** Slices and stitched ranges *)

Lemma slice_nat {A} (s : list A) (a b : nat) :
  py.slice s (Z.of_nat a) (Z.of_nat b) = drop a (take b s).
Proof.
  unfold py.slice. rewrite !Nat2Z.id. symmetry. apply skipn_firstn_comm.
Qed.

(** [s[a:]] drops a number of leading characters. *)
Lemma slice_from_drop {A} (s : list A) (a : Z) :
  exists m, m <= length s /\ py.slice_from s a = drop m s.
Proof.
  unfold py.slice_from, py.len. eexists. split; [| reflexivity].
  destruct (Z.ltb_spec a 0); lia.
Qed.

Lemma end_pos_snoc (pos : Z) (cs : list chunker.ChunkData)
    (c : chunker.ChunkData) :
  spec.end_pos pos (cs ++ [c])
  = Z.max (spec.end_pos pos cs) (chunker.char_end c).
Proof. unfold spec.end_pos. rewrite foldl_app. reflexivity. Qed.

Lemma stitch_from_snoc (full : list N) (pos : Z)
    (cs : list chunker.ChunkData) (c : chunker.ChunkData) :
  spec.stitch_from full pos (cs ++ [c])
  = spec.stitch_from full pos cs
    ++ py.slice full (Z.max (spec.end_pos pos cs) (chunker.char_start c))
         (chunker.char_end c).
Proof.
  revert pos. induction cs as [|c0 cs IH]; intros pos; simpl.
  - by rewrite app_nil_r.
  - rewrite IH, <- app_assoc. reflexivity.
Qed.

Lemma contiguous_snoc (cs : list chunker.ChunkData) (c : chunker.ChunkData) :
  spec.contiguous_from_0 cs ->
  chunker.chunk_index c = py.len cs ->
  spec.contiguous_from_0 (cs ++ [c]).
Proof.
  unfold spec.contiguous_from_0, py.len. intros H Hc.
  rewrite length_app. simpl. rewrite Nat.add_1_r, seq_S, !fmap_app, H.
  simpl. rewrite Hc. reflexivity.
Qed.

(** [_emit_chunk] drops a blank text and appends one chunk otherwise. *)
Lemma emit_chunk_spec (cs : list chunker.ChunkData) (text : list N)
    (start : Z) (offs : list (Z * Z)) :
  chunker._emit_chunk cs text start offs
  = if chunker.blank text then cs
    else cs ++ [chunker.mkChunkData (py.len cs) (py.strip text)
                  (chunker._lookup_page start offs) start
                  (start + py.len text) (py.len (py.strip text) / 4)].
Proof.
  unfold chunker._emit_chunk, chunker.blank.
  by destruct (py.strip text).
Qed.

(** *** The paragraph loop *)

Lemma take_extend (full para rest : list N) (k : nat) :
  k <= length full ->
  drop k full = para ++ rest ->
  take (k + length para) full = take k full ++ para.
Proof.
  intros Hk Hd. rewrite <- (take_drop k full) at 1. rewrite Hd.
  rewrite take_app_add' by (rewrite length_take; lia).
  by rewrite take_app_length.
Qed.

Lemma buf_extend (full para rest : list N) (k n : nat) :
  k <= length full -> n <= k ->
  drop k full = para ++ rest ->
  drop n (take (k + length para) full) = drop n (take k full) ++ para.
Proof.
  intros Hk Hn Hd. rewrite (take_extend full para rest k Hk Hd).
  apply drop_app_le. rewrite length_take. lia.
Qed.

(** Appending a paragraph to the buffer keeps the invariant, provided the
    buffer does not stay blank once chunks exist. *)
Lemma append_inv (full para rest : list N) (k : nat) (st : chunker.LoopState) :
  k <= length full ->
  drop k full = para ++ rest ->
  spec.loop_inv full k st ->
  spec.loop_inv full (k + length para)
    (chunker.mkLoopState (chunker.chunks st) (chunker.buf st ++ para)
       (chunker.buf_start st) (chunker.text_cursor st + py.len para)).
Proof.
  intros Hk Hd (Hcur & Hidx & n & Hn & Hnk & Hbuf & Hcov).
  split; [simpl; unfold py.len; lia |]. split; [exact Hidx |].
  exists n. simpl. split; [exact Hn |]. split; [lia |].
  split; [rewrite Hbuf; symmetry; by eapply buf_extend |].
  destruct Hcov as [Hcov | (Hb & s & e & Hse & Hne & Hek & Hws & Hst & He)];
    [left; exact Hcov | right].
  split.
  - rewrite blank_all_space, all_space_app, <- blank_all_space, Hb.
    reflexivity.
  - exists s, e. repeat split; try assumption. lia.
Qed.

(** Closing a buffer that is not blank: the chunks then cover the text
    read so far, after leading whitespace. *)
Lemma emit_cover (full : list N) (k : nat) (offs : list (Z * Z))
    (st : chunker.LoopState) :
  k <= length full ->
  spec.loop_inv full k st ->
  chunker.blank (chunker.buf st) = false ->
  let cs :=
    chunker._emit_chunk (chunker.chunks st) (chunker.buf st)
      (chunker.buf_start st) offs in
  spec.contiguous_from_0 cs
  /\ exists s : nat,
      s <= k
      /\ spec.all_space (take s full) = true
      /\ spec.stitch full cs = drop s (take k full)
      /\ spec.end_pos 0 cs = Z.of_nat k.
Proof.
  intros Hk (Hcur & Hidx & n & Hn & Hnk & Hbuf & Hcov) Hb.
  assert (Hlen : length (chunker.buf st) = k - n)
    by (rewrite Hbuf, length_drop, length_take; lia).
  assert (Hend : (chunker.buf_start st + py.len (chunker.buf st))%Z
                 = Z.of_nat k) by (unfold py.len; lia).
  rewrite emit_chunk_spec, Hb. cbn zeta.
  split; [apply contiguous_snoc; [exact Hidx | reflexivity] |].
  rewrite Hend, Hn.
  destruct Hcov as [[Hnil Hws] | (_ & s & e & Hse & Hne & Hek & Hws & Hst & He)].
  - exists n. rewrite Hnil. repeat split; try assumption.
    + unfold spec.stitch. simpl.
      rewrite Z.max_r by lia. rewrite slice_nat, app_nil_r. reflexivity.
    + unfold spec.end_pos. simpl. lia.
  - exists s. repeat split; try assumption; try lia.
    + unfold spec.stitch. rewrite stitch_from_snoc. simpl.
      fold (spec.stitch full (chunker.chunks st)). rewrite Hst, He.
      rewrite Z.max_l by lia. rewrite slice_nat.
      assert (Htk : take k full = take e full ++ take (k - e) (drop e full))
        by (rewrite take_take_drop; f_equal; lia).
      rewrite Htk.
      rewrite (drop_app_length' (take e full)) by (rewrite length_take; lia).
      rewrite drop_app_le by (rewrite length_take; lia).
      reflexivity.
    + rewrite end_pos_snoc, He. simpl. lia.
Qed.

(** Closing the buffer as a chunk and restarting it from its overlap keeps
    the invariant. *)
Lemma emit_inv (full para rest : list N) (k m : nat) (offs : list (Z * Z))
    (st : chunker.LoopState) :
  k <= length full ->
  drop k full = para ++ rest ->
  chunker.blank para = false ->
  m <= length (chunker.buf st) ->
  spec.loop_inv full k st ->
  spec.loop_inv full (k + length para)
    (chunker.mkLoopState
       (chunker._emit_chunk (chunker.chunks st) (chunker.buf st)
          (chunker.buf_start st) offs)
       (drop m (chunker.buf st) ++ para)
       (chunker.buf_start st + py.len (chunker.buf st)
        - py.len (drop m (chunker.buf st)))
       (chunker.text_cursor st + py.len para)).
Proof.
  intros Hk Hd Hpara Hm Hinv.
  pose proof Hinv as (Hcur & Hidx & n & Hn & Hnk & Hbuf & Hcov).
  assert (Hlen : length (chunker.buf st) = k - n)
    by (rewrite Hbuf, length_drop, length_take; lia).
  assert (Hnb : chunker.blank (drop m (chunker.buf st) ++ para) = false).
  { rewrite blank_all_space, all_space_app, <- (blank_all_space para), Hpara.
    apply andb_false_r. }
  split; [simpl; unfold py.len; lia |]. simpl.
  assert (Hbuf' : drop m (chunker.buf st) ++ para
                  = drop (n + m) (take (k + length para) full)).
  { rewrite (buf_extend full para rest k (n + m)) by (try assumption; lia).
    rewrite Hbuf, drop_drop. reflexivity. }
  assert (Hstart : (chunker.buf_start st + py.len (chunker.buf st)
                    - py.len (drop m (chunker.buf st)))%Z = Z.of_nat (n + m)).
  { unfold py.len. rewrite length_drop. lia. }
  destruct (chunker.blank (chunker.buf st)) eqn:Hb.
  - (* nothing emitted: no chunk exists yet, the text read is blank *)
    rewrite emit_chunk_spec, Hb.
    split; [exact Hidx |].
    exists (n + m). split; [exact Hstart |]. split; [lia |].
    split; [exact Hbuf' |].
    destruct Hcov as [[Hnil Hws] | (Hb' & _)]; [| congruence].
    left. split; [exact Hnil |].
    assert (Hall : spec.all_space (take k full) = true).
    { rewrite <- (take_drop n (take k full)), all_space_app.
      rewrite take_take, Nat.min_l by lia.
      rewrite Hws, <- Hbuf, <- blank_all_space, Hb. reflexivity. }
    replace (take (n + m) full) with (take (n + m) (take k full))
      by (rewrite take_take; f_equal; lia).
    by apply all_space_take.
  - (* one chunk emitted, covering the buffer *)
    destruct (emit_cover full k offs st Hk Hinv Hb)
      as (Hidx' & s & Hsk & Hws & Hst & He).
    split; [exact Hidx' |].
    exists (n + m). split; [exact Hstart |]. split; [lia |].
    split; [exact Hbuf' |]. right. split; [exact Hnb |].
    exists s, k. repeat split; try assumption; lia.
Qed.

(** One iteration keeps the invariant. *)
Lemma para_step_inv (full para rest : list N) (k : nat)
    (target_chars overlap_chars : Z) (offs : list (Z * Z))
    (st : chunker.LoopState) :
  k <= length full ->
  drop k full = para ++ rest ->
  spec.loop_inv full k st ->
  spec.loop_inv full (k + length para)
    (chunker.para_step target_chars overlap_chars offs st
       (para, py.len para)).
Proof.
  intros Hk Hd Hinv. unfold chunker.para_step.
  destruct (chunker.blank para) eqn:Hpara;
    [by eapply append_inv |].
  destruct (negb _ && _); [| by eapply append_inv].
  destruct (overlap_chars <? py.len (chunker.buf st))%Z.
  - destruct (slice_from_drop (chunker.buf st) (- overlap_chars))
      as (m & Hm & ->).
    by eapply emit_inv.
  - exact (emit_inv full para rest k 0 offs st Hk Hd Hpara (Nat.le_0_l _)
             Hinv).
Qed.

(** The loop keeps the invariant and reads the whole text. *)
Lemma para_loop_inv (full : list N) (target_chars overlap_chars : Z)
    (offs : list (Z * Z)) (ps : list (list N * Z)) (k : nat)
    (st : chunker.LoopState) :
  Forall (fun p => p.2 = py.len p.1) ps ->
  k <= length full ->
  drop k full = concat (fst <$> ps) ->
  spec.loop_inv full k st ->
  spec.loop_inv full (length full)
    (foldl (chunker.para_step target_chars overlap_chars offs) st ps).
Proof.
  revert k st. induction ps as [|[para plen] ps IH];
    intros k st Hlens Hk Hd Hinv; simpl.
  - simpl in Hd. apply (f_equal (@length N)) in Hd.
    rewrite length_drop in Hd. simpl in Hd.
    replace (length full) with k by lia. exact Hinv.
  - apply Forall_cons in Hlens as [Hl Hlens]. simpl in Hl. subst plen.
    rewrite fmap_cons in Hd. simpl in Hd.
    assert (Hlen : k + length para <= length full).
    { apply (f_equal (@length N)) in Hd.
      rewrite length_drop, length_app in Hd. lia. }
    apply (IH (k + length para)); [exact Hlens | exact Hlen | |].
    + rewrite <- drop_drop, Hd. apply drop_app_length.
    + by eapply para_step_inv.
Qed.

Lemma loop_inv_init (full : list N) :
  spec.loop_inv full 0 (chunker.mkLoopState [] [] 0 0).
Proof.
  split; [reflexivity |]. split; [reflexivity |].
  exists 0. simpl. repeat split; auto.
Qed.

(** *** The claim on the chunk sequence *)

(** C8, as the specification states it, fails: of the text of a page that
    starts with blank lines the first characters are in no chunk (here, with
    a target of 5 and an overlap of 2 characters, the first two of four
    newlines). *)
Lemma chunk_cover_counterexample :
  spec.stitch (spec.full_text spec.pages_leading_newlines)
    (chunker.chunk_pages spec.pages_leading_newlines 5 2)
  <> spec.full_text spec.pages_leading_newlines.
Proof. vm_compute. discriminate. Qed.

(** The same with the default tunables (target 2000, overlap 200): after a
    first page of 300 blank lines the first chunk starts at offset 101. *)
Lemma chunk_cover_default_tunables :
  let cs :=
    chunker.chunk_pages spec.pages_blank_first chunker.TARGET_CHARS
      chunker.OVERLAP_CHARS in
  chunker.char_start <$> head cs = Some 101%Z
  /\ spec.stitch (spec.full_text spec.pages_blank_first) cs
     = drop 101 (spec.full_text spec.pages_blank_first).
Proof. vm_compute. split; reflexivity. Qed.

(** With the default tunables: a page without text has the full text of one
    newline, and no chunk. *)
Lemma chunk_cover_blank_page :
  chunker.chunk_pages spec.pages_blank chunker.TARGET_CHARS
    chunker.OVERLAP_CHARS = []
  /\ spec.full_text spec.pages_blank = [chunker.nl].
Proof. split; reflexivity. Qed.

(** C8, amended. For every page list and all tunables the chunk indices
    of the chunks returned count up from 0, and the text of their ranges
    [[char_start, char_end)], stitched in order with every overlap taken
    once, is the full concatenated text without a prefix that consists of
    whitespace only (the whole text, when it is blank and no chunk is
    returned). *)
Theorem chunks_cover_all_but_leading_whitespace
    (pages : list chunker.PageText) (target_chars overlap_chars : Z) :
  let cs := chunker.chunk_pages pages target_chars overlap_chars in
  let full := spec.full_text pages in
  chunker.chunk_index <$> cs = Z.of_nat <$> seq 0 (length cs)
  /\ (exists ws,
        spec.all_space ws = true /\ full = ws ++ spec.stitch full cs)
  /\ (spec.all_space full = true -> cs = []).
Proof.
  unfold chunker.chunk_pages, spec.full_text.
  destruct pages as [|p pages'];
    [split; [reflexivity | split; [by exists [] | reflexivity]] |].
  destruct (chunker.build_full_text (p :: pages')) as [full offs].
  cbn [fst]. cbn zeta.
  destruct (chunker.blank full) eqn:Hfull.
  { split; [reflexivity |]. split; [| reflexivity]. exists full.
    rewrite <- blank_all_space, app_nil_r. auto. }
  destruct (split_paragraphs_spec full) as [Hc Hl].
  pose proof (para_loop_inv full target_chars overlap_chars offs
                (chunker._split_paragraphs full) 0 _ Hl (Nat.le_0_l _)
                (eq_sym Hc) (loop_inv_init full)) as Hinv.
  set (st := foldl _ _ _) in *.
  rewrite <- blank_all_space, Hfull.
  destruct (chunker.blank (chunker.buf st)) eqn:Hb.
  - destruct Hinv as (_ & Hidx & n & _ & Hnk & Hbuf & Hcov).
    split; [exact Hidx |]. split; [| discriminate].
    destruct Hcov as [[Hnil Hws] | (Hb' & _)]; [| congruence].
    rewrite Hnil. exists full. rewrite app_nil_r. split; [| reflexivity].
    rewrite <- (take_drop n full), all_space_app, Hws.
    rewrite firstn_all in Hbuf. rewrite <- Hbuf, <- blank_all_space, Hb.
    reflexivity.
  - destruct (emit_cover full (length full) offs st (le_n _) Hinv Hb)
      as (Hidx & s & _ & Hws & Hst & _).
    split; [exact Hidx |]. split; [| discriminate].
    exists (take s full). split; [exact Hws |].
    rewrite Hst, firstn_all, take_drop. reflexivity.
Qed.

(** The scenario of the specification: the page "A.\n\nB." with target 100
    and overlap 10 gives the single chunk "A.\n\nB." of page 1, which
    covers the whole text. *)
Lemma chunk_scenario :
  chunker.chunk_pages
    [chunker.mkPageText 1 [65; 46; 10; 10; 66; 46]%N] 100 10
  = [chunker.mkChunkData 0 [65; 46; 10; 10; 66; 46]%N (Some 1%Z) 0 7 1].
Proof. reflexivity. Qed.

(** * Further properties of the code *)

(** ** Review submission and the card endpoints *)

Lemma mastery_delta_total (grade : Z) :
  (0 <= grade <= 3)%Z -> is_Some (quiz._MASTERY_DELTA !! grade).
Proof.
  intros H.
  assert (grade = 0 \/ grade = 1 \/ grade = 2 \/ grade = 3)%Z
    as [-> | [-> | [-> | ->]]] by lia; eexists; reflexivity.
Qed.

Lemma valid_grade_in (grade : Z) :
  (0 <= grade <= 3)%Z -> bool_decide (grade ∈ [0; 1; 2; 3]%Z) = true.
Proof.
  intros H. apply bool_decide_eq_true. rewrite list_elem_of_In. simpl. lia.
Qed.

Lemma review_invalid_grade_rejected_aux (today now : Z)
    (kuzu_fault : option nat) (card_id : string) (grade : Z)
    (st : quiz.Store) :
  ~ (0 <= grade <= 3)%Z ->
  quiz.review_card today now kuzu_fault card_id grade st
  = (quiz.HTTPException 422, st).
Proof.
  intros Hg. unfold quiz.review_card.
  rewrite bool_decide_eq_false_2; [reflexivity |].
  rewrite list_elem_of_In. simpl. lia.
Qed.

Lemma review_card_valid (today now : Z) (kuzu_fault : option nat)
    (card_id : string) (grade : Z) (st : quiz.Store) (card : quiz.Flashcard) :
  (0 <= grade <= 3)%Z ->
  quiz.flashcards st !! card_id = Some card ->
  exists new_reps new_interval new_diff next_review st',
    quiz._compute_sm2 today grade (quiz.repetitions card)
      (quiz.interval card) (quiz.difficulty card)
    = Some (new_reps, new_interval, new_diff, next_review)
    /\ quiz.review_card today now kuzu_fault card_id grade st
       = (quiz.Ok (quiz.mkReviewResult card_id new_interval next_review
                     new_reps new_diff), st')
    /\ quiz.flashcards st'
       = <[card_id := quiz.mkFlashcard (quiz.document_id card)
                        (quiz.chunk_id card) (quiz.question card)
                        (quiz.answer card) new_diff new_interval new_reps
                        (Some next_review) now]> (quiz.flashcards st).
Proof.
  intros Hg Hcard.
  destruct (sm2_returns today grade (quiz.repetitions card)
              (quiz.interval card) (quiz.difficulty card) Hg)
    as [[[[r i] d] n] Hsm2].
  destruct (mastery_delta_total grade Hg) as [delta Hdelta].
  exists r, i, d, n.
  unfold quiz.review_card. rewrite (valid_grade_in grade Hg). simpl.
  unfold quiz.get_flashcard at 1. rewrite Hcard, Hsm2.
  unfold quiz.update_flashcard_sm2, quiz.get_flashcard. simpl.
  rewrite lookup_alter, decide_True, Hcard by reflexivity. simpl.
  assert (Halter : forall f : quiz.Flashcard -> quiz.Flashcard,
             alter f card_id (quiz.flashcards st)
             = <[card_id := f card]> (quiz.flashcards st)).
  { intros f. apply map_eq. intros k. rewrite lookup_alter, lookup_insert.
    case_decide; [subst k; by rewrite Hcard | reflexivity]. }
  destruct (quiz.truthy_id (quiz.chunk_id card)) as [ch|].
  - rewrite Hdelta.
    destruct (kuzu_.update_concept_mastery_from_chunk kuzu_fault ch delta
                (quiz.graph st)) as [ok g].
    eexists. split; [reflexivity |]. split; [reflexivity |].
    simpl. apply Halter.
  - eexists. split; [reflexivity |]. split; [reflexivity |].
    simpl. apply Halter.
Qed.

Lemma review_card_ok_inv (today now : Z) (kuzu_fault : option nat)
    (card_id : string) (grade : Z) (st st' : quiz.Store)
    (r : quiz.ReviewResult) :
  quiz.review_card today now kuzu_fault card_id grade st = (quiz.Ok r, st') ->
  (0 <= grade <= 3)%Z /\ is_Some (quiz.flashcards st !! card_id).
Proof.
  intros H. destruct (decide (0 <= grade <= 3)%Z) as [Hg | Hg].
  - split; [exact Hg |].
    destruct (quiz.flashcards st !! card_id) as [card|] eqn:Hcard;
      [by eexists |].
    unfold quiz.review_card in H. rewrite (valid_grade_in grade Hg) in H.
    simpl in H. unfold quiz.get_flashcard in H. rewrite Hcard in H.
    discriminate.
  - rewrite (review_invalid_grade_rejected_aux _ _ _ _ _ _ Hg) in H.
    discriminate.
Qed.

(** X1. When [review_card] answers with a result, the grade is one of
    the four grades, the card exists, and the answer and the stored row
    agree: the row of the card holds the repetitions, interval, difficulty
    and next review date of the answer and the new [updated_at], its
    question, answer, document and chunk are as before, and no other card
    is written; the next review date of the answer is its interval after
    today, and the interval is at least one day.  This holds whether or
    not the graph store raises. *)
Theorem review_card_success (today now : Z) (kuzu_fault : option nat)
    (card_id : string) (grade : Z) (st st' : quiz.Store)
    (r : quiz.ReviewResult) :
  quiz.review_card today now kuzu_fault card_id grade st = (quiz.Ok r, st') ->
  (0 <= grade <= 3)%Z
  /\ quiz.r_id r = card_id
  /\ quiz.r_next_review r = (today + quiz.r_interval r)%Z
  /\ (1 <= quiz.r_interval r)%Z
  /\ exists card,
      quiz.flashcards st !! card_id = Some card
      /\ quiz.flashcards st'
         = <[card_id := quiz.mkFlashcard (quiz.document_id card)
                          (quiz.chunk_id card) (quiz.question card)
                          (quiz.answer card) (quiz.r_difficulty r)
                          (quiz.r_interval r) (quiz.r_repetitions r)
                          (Some (quiz.r_next_review r)) now]>
             (quiz.flashcards st).
Proof.
  intros H.
  destruct (review_card_ok_inv _ _ _ _ _ _ _ _ H) as [Hg [card Hcard]].
  destruct (review_card_valid today now kuzu_fault card_id grade st card
              Hg Hcard) as (nr & ni & nd & nx & st1 & Hsm2 & Hrev & Hfc).
  rewrite Hrev in H. injection H as <- <-.
  apply sm2_within_bounds in Hsm2 as (Hi & _ & Hnx).
  cbn [quiz.r_id quiz.r_interval quiz.r_next_review quiz.r_repetitions
       quiz.r_difficulty].
  split; [exact Hg |]. split; [reflexivity |]. split; [exact Hnx |].
  split; [exact Hi |]. exists card. split; [exact Hcard | exact Hfc].
Qed.

Lemma review_card_success_witness :
  let out := quiz.review_card 10 7 (Some 0) "card1" 3 spec.store1 in
  let d :=
    py.fmax 0.1
      (py.fmin 0.9
         (0.3 - (0.1 - inject_Z (5 - 5) * (0.08 + inject_Z (5 - 5) * 0.02))
                * 0.2)) in
  let r := quiz.mkReviewResult "card1" 6 16 2 d in
  out = (quiz.Ok r, out.2)
  /\ (0 <= 3 <= 3)%Z
  /\ quiz.r_id r = "card1"
  /\ quiz.r_next_review r = (10 + quiz.r_interval r)%Z
  /\ (1 <= quiz.r_interval r)%Z
  /\ exists card,
      quiz.flashcards spec.store1 !! "card1" = Some card
      /\ quiz.flashcards out.2
         = <[ "card1" := quiz.mkFlashcard (quiz.document_id card)
                           (quiz.chunk_id card) (quiz.question card)
                           (quiz.answer card) (quiz.r_difficulty r)
                           (quiz.r_interval r) (quiz.r_repetitions r)
                           (Some (quiz.r_next_review r)) 7 ]>
             (quiz.flashcards spec.store1).
Proof.
  intros out d r. split; [reflexivity |].
  apply (review_card_success 10 7 (Some 0) "card1" 3 spec.store1 out.2 r).
  reflexivity.
Defined.

(** X2. The update of the concept mastery is best effort: for the same
    request and store, the response of [review_card] and the flashcard rows
    it leaves are the same whether the graph store works, raises at once or
    raises part-way. *)
Theorem review_card_ignores_graph_failure (today now : Z)
    (fault1 fault2 : option nat) (card_id : string) (grade : Z)
    (st : quiz.Store) :
  (quiz.review_card today now fault1 card_id grade st).1
  = (quiz.review_card today now fault2 card_id grade st).1
  /\ quiz.flashcards (quiz.review_card today now fault1 card_id grade st).2
     = quiz.flashcards (quiz.review_card today now fault2 card_id grade st).2.
Proof.
  unfold quiz.review_card.
  destruct (negb _); [split; reflexivity |].
  destruct (quiz.get_flashcard st card_id) as [card|]; [| split; reflexivity].
  destruct (quiz._compute_sm2 _ _ _ _ _) as [[[[r i] d] n]|];
    [| split; reflexivity].
  destruct (quiz.update_flashcard_sm2 _ _ _ _ _ _ _) as [[u|] st1];
    [| split; reflexivity].
  destruct (quiz.truthy_id _) as [ch|]; [| split; reflexivity].
  destruct (quiz._MASTERY_DELTA !! grade) as [delta|]; [| split; reflexivity].
  destruct (kuzu_.update_concept_mastery_from_chunk fault1 ch delta _),
    (kuzu_.update_concept_mastery_from_chunk fault2 ch delta _).
  split; reflexivity.
Qed.

(** X3. The answers of [review_card]: 422 exactly for a grade outside
    0..3; 404 exactly for a valid grade and a card that does not exist; a
    result only for a valid grade and a card that exists; and every answer
    that is an error leaves the store as it was. *)
Theorem review_card_status_codes (today now : Z) (kuzu_fault : option nat)
    (card_id : string) (grade : Z) (st : quiz.Store) :
  let out := quiz.review_card today now kuzu_fault card_id grade st in
  (out.1 = quiz.HTTPException 422 <-> ~ (0 <= grade <= 3)%Z)
  /\ (out.1 = quiz.HTTPException 404
      <-> (0 <= grade <= 3)%Z /\ quiz.flashcards st !! card_id = None)
  /\ (forall r, out.1 = quiz.Ok r ->
        (0 <= grade <= 3)%Z /\ is_Some (quiz.flashcards st !! card_id))
  /\ (forall code, out.1 = quiz.HTTPException code -> out.2 = st).
Proof.
  cbn zeta.
  destruct (decide (0 <= grade <= 3)%Z) as [Hg | Hg].
  - destruct (quiz.flashcards st !! card_id) as [card|] eqn:Hcard.
    + destruct (review_card_valid today now kuzu_fault card_id grade st card
                  Hg Hcard) as (r & i & d & n & st' & _ & -> & _).
      simpl. split_and!; try (split; [discriminate | tauto]).
      * split; [discriminate | intros [_ [=]]].
      * intros _ _. split; [exact Hg | by eexists].
      * discriminate.
    + unfold quiz.review_card. rewrite (valid_grade_in grade Hg). simpl.
      unfold quiz.get_flashcard. rewrite Hcard. simpl. split_and!.
      * split; [discriminate | tauto].
      * split; [by intros _ | reflexivity].
      * discriminate.
      * reflexivity.
  - rewrite (review_invalid_grade_rejected_aux today now kuzu_fault card_id
               grade st Hg). simpl. split_and!.
    + tauto.
    + split; [discriminate | tauto].
    + discriminate.
    + reflexivity.
Qed.

Lemma round_lower (x : Q) (n : Z) :
  (inject_Z n <= x)%Q -> (n <= py.round x)%Z.
Proof.
  intros H. apply Qfloor_resp_le in H. rewrite Qfloor_Z in H.
  unfold py.round. cbn zeta.
  destruct (py.Qltb _ 0.5); [lia |].
  destruct (py.Qltb 0.5 _); [lia |].
  destruct (Z.even _); lia.
Qed.

Lemma round_upper (x : Q) (n : Z) :
  (x <= inject_Z n)%Q -> (py.round x <= n)%Z.
Proof.
  intros H. pose proof (Qfloor_resp_le _ _ H) as Hf. rewrite Qfloor_Z in Hf.
  unfold py.round. cbn zeta.
  destruct (py.Qltb (x - inject_Z (Qfloor x)) 0.5) eqn:Hlt; [lia |].
  assert (Hne : Qfloor x <> n).
  { intros Heq. rewrite Heq in Hlt.
    assert (py.Qltb (x - inject_Z n) 0.5 = true); [| congruence].
    apply Qltb_lt. lra. }
  destruct (py.Qltb 0.5 _); [lia |].
  destruct (Z.even _); lia.
Qed.

Lemma round_above_half (x : Q) (n : Z) :
  (inject_Z n + 0.5 < x)%Q -> (n + 1 <= py.round x)%Z.
Proof.
  intros H.
  assert (Hf : (n <= Qfloor x)%Z).
  { rewrite <- (Qfloor_Z n). apply Qfloor_resp_le. lra. }
  unfold py.round. cbn zeta.
  destruct (decide (Qfloor x = n)) as [Heq | Hne].
  - rewrite Heq.
    assert (H1 : py.Qltb (x - inject_Z n) 0.5 = false).
    { destruct (py.Qltb _ _) eqn:E; [| reflexivity].
      apply Qltb_lt in E. lra. }
    assert (H2 : py.Qltb 0.5 (x - inject_Z n) = true) by (apply Qltb_lt; lra).
    rewrite H1, H2. lia.
  - destruct (py.Qltb _ 0.5); [lia |].
    destruct (py.Qltb 0.5 _); [lia |].
    destruct (Z.even _); lia.
Qed.

(** X4. A passing review (good or easy) of a card past its first two
    repetitions never shortens the interval: for a stored difficulty within
    [[0.1, 0.9]] and an interval of at least one day, whatever
    [_compute_sm2] returns has an interval between the old one and three
    times the old one, strictly longer as soon as the old interval is two
    days or more; the repetition counter has grown by one and the next
    review is that many days ahead. *)
Theorem sm2_pass_interval_growth
    (today grade repetitions interval : Z) (difficulty : Q)
    (new_reps new_interval : Z) (new_difficulty : Q) (next_review : Z) :
  (grade = 2 \/ grade = 3)%Z ->
  repetitions <> 0%Z -> repetitions <> 1%Z ->
  spec.within 0.1 0.9 difficulty ->
  (1 <= interval)%Z ->
  quiz._compute_sm2 today grade repetitions interval difficulty
  = Some (new_reps, new_interval, new_difficulty, next_review) ->
  new_reps = (repetitions + 1)%Z
  /\ next_review = (today + new_interval)%Z
  /\ (interval <= new_interval <= 3 * interval)%Z
  /\ ((2 <= interval)%Z -> (interval < new_interval)%Z).
Proof.
  intros Hg H0 H1 [Hlo Hhi] Hi.
  set (x := (inject_Z interval * (2.5 - difficulty * 1.2))%Q).
  assert (Hx : (1 <= inject_Z interval)%Q).
  { change 1%Q with (inject_Z 1). rewrite <- Zle_Qle. exact Hi. }
  assert (Hbounds : (interval <= py.max 1 (py.round x) <= 3 * interval)%Z).
  { assert (interval <= py.round x)%Z.
    { apply round_lower. unfold x. nra. }
    assert (py.round x <= 3 * interval)%Z.
    { apply round_upper. rewrite inject_Z_mult. unfold x.
      change (inject_Z 3) with 3%Q. nra. }
    unfold py.max. destruct (_ <? _)%Z eqn:E; lia. }
  assert (Hgrow : (2 <= interval)%Z -> (interval < py.max 1 (py.round x))%Z).
  { intros H2.
    assert (interval + 1 <= py.round x)%Z.
    { apply round_above_half. unfold x.
      assert (2 <= inject_Z interval)%Q.
      { change 2%Q with (inject_Z 2). rewrite <- Zle_Qle. exact H2. }
      nra. }
    unfold py.max. destruct (_ <? _)%Z eqn:E; lia. }
  apply Z.eqb_neq in H0, H1.
  unfold quiz._compute_sm2.
  destruct Hg as [-> | ->];
    [change (py.getitem quiz._GRADE_QUALITY 2) with (Some 4%Z)
    | change (py.getitem quiz._GRADE_QUALITY 3) with (Some 5%Z)];
    cbn [mbind option_bind]; cbv beta zeta;
    [change (4 <? 3)%Z with false | change (5 <? 3)%Z with false];
    cbv iota; rewrite H0, H1; intros [= <- <- <- <-];
    (split; [reflexivity |]); (split; [reflexivity |]);
    (split; [exact Hbounds | exact Hgrow]).
Qed.

Lemma sm2_pass_interval_growth_witness :
  let d :=
    py.fmax 0.1
      (py.fmin 0.9
         (0.3 - (0.1 - inject_Z (5 - 5) * (0.08 + inject_Z (5 - 5) * 0.02))
                * 0.2)) in
  (3 = 2 \/ 3 = 3)%Z /\ 2%Z <> 0%Z /\ 2%Z <> 1%Z
  /\ spec.within 0.1 0.9 0.3 /\ (1 <= 6)%Z
  /\ quiz._compute_sm2 100 3 2 6 0.3 = Some (3%Z, 13%Z, d, 113%Z)
  /\ 3%Z = (2 + 1)%Z
  /\ 113%Z = (100 + 13)%Z
  /\ (6 <= 13 <= 3 * 6)%Z
  /\ ((2 <= 6)%Z -> (6 < 13)%Z).
Proof.
  intros d.
  split; [right; reflexivity |]. split; [discriminate |].
  split; [discriminate |].
  split; [split; discriminate |]. split; [lia |].
  split; [reflexivity |].
  apply (sm2_pass_interval_growth 100 3 2 6 0.3 3 13 d 113);
    [right; reflexivity | discriminate | discriminate
    | split; discriminate | lia | reflexivity].
Defined.

(** X5. The difficulty moves with the grade: for a stored difficulty within
    [[0.1, 0.9]], whatever [_compute_sm2] returns has a difficulty that
    "fail" and "hard" have not lowered, that "good" has left as it was, and
    that "easy" has not raised. *)
Theorem sm2_difficulty_direction
    (today grade repetitions interval : Z) (difficulty : Q)
    (new_reps new_interval : Z) (new_difficulty : Q) (next_review : Z) :
  spec.within 0.1 0.9 difficulty ->
  (0 <= grade <= 3)%Z ->
  quiz._compute_sm2 today grade repetitions interval difficulty
  = Some (new_reps, new_interval, new_difficulty, next_review) ->
  ((grade = 0 \/ grade = 1)%Z -> (difficulty <= new_difficulty)%Q)
  /\ (grade = 2%Z -> (new_difficulty == difficulty)%Q)
  /\ (grade = 3%Z -> (new_difficulty <= difficulty)%Q).
Proof.
  intros [Hlo Hhi] Hg.
  assert (Hclamp : forall e : Q,
             let d := py.fmax 0.1 (py.fmin 0.9 (difficulty - e * 0.2)) in
             ((e <= 0)%Q -> (difficulty <= d)%Q)
             /\ ((0 <= e)%Q -> (d <= difficulty)%Q)).
  { intros e. cbn zeta. unfold py.fmax, py.fmin.
    destruct (py.Qltb (difficulty - e * 0.2) 0.9) eqn:E1.
    - apply Qltb_lt in E1.
      destruct (py.Qltb 0.1 (difficulty - e * 0.2)) eqn:E2.
      + apply Qltb_lt in E2. split; intros; lra.
      + assert (~ (0.1 < difficulty - e * 0.2)%Q)
          by (rewrite <- Qltb_lt; congruence).
        split; intros; lra.
    - assert (~ (difficulty - e * 0.2 < 0.9)%Q)
        by (rewrite <- Qltb_lt; congruence).
      change (py.Qltb 0.1 0.9) with true. cbn iota.
      split; intros; lra. }
  intros Hsm2.
  assert (Hnew : exists e : Q,
             new_difficulty
             = py.fmax 0.1 (py.fmin 0.9 (difficulty - e * 0.2))
             /\ ((grade = 0 \/ grade = 1)%Z -> (e <= 0)%Q)
             /\ (grade = 2%Z -> (e <= 0)%Q /\ (0 <= e)%Q)
             /\ (grade = 3%Z -> (0 <= e)%Q)).
  { unfold quiz._compute_sm2 in Hsm2.
    destruct (grade_quality_total grade Hg) as (q & Hq & _).
    rewrite Hq in Hsm2. cbn [mbind option_bind] in Hsm2.
    destruct (if (q <? 3)%Z then _ else _) as [nr ni].
    injection Hsm2 as _ _ <- _. eexists. split; [reflexivity |].
    assert (grade = 0 \/ grade = 1 \/ grade = 2 \/ grade = 3)%Z
      as [-> | [-> | [-> | ->]]] by lia;
      injection Hq as <-;
      (split; [intros Hgr; first [exfalso; lia | vm_compute; discriminate] |]);
      (split; [intros Hgr;
               first [exfalso; lia | split; vm_compute; discriminate] |]);
      intros Hgr; first [exfalso; lia | vm_compute; discriminate]. }
  destruct Hnew as (e & -> & He01 & He2 & He3).
  destruct (Hclamp e) as (H1 & H2).
  split; [intros Hgr; apply H1, He01, Hgr |].
  split; [intros Hgr; apply Qle_antisym; [apply H2 | apply H1];
          apply He2, Hgr |].
  intros Hgr; apply H2, He3, Hgr.
Qed.

Lemma sm2_difficulty_direction_witness :
  let d :=
    py.fmax 0.1
      (py.fmin 0.9
         (0.3 - (0.1 - inject_Z (5 - 5) * (0.08 + inject_Z (5 - 5) * 0.02))
                * 0.2)) in
  spec.within 0.1 0.9 0.3 /\ (0 <= 3 <= 3)%Z
  /\ quiz._compute_sm2 100 3 2 6 0.3 = Some (3%Z, 13%Z, d, 113%Z)
  /\ (((3 = 0 \/ 3 = 1)%Z -> (0.3 <= d)%Q)
      /\ (3%Z = 2%Z -> (d == 0.3)%Q)
      /\ (3%Z = 3%Z -> (d <= 0.3)%Q)).
Proof.
  intros d.
  split; [split; discriminate |]. split; [lia |]. split; [reflexivity |].
  apply (sm2_difficulty_direction 100 3 2 6 0.3 3 13 d 113);
    [split; discriminate | lia | reflexivity].
Defined.

(** ** The due list and the card endpoints *)

#[local] Instance due_le_total : Total quiz_cards.due_le.
Proof.
  intros a b. unfold quiz_cards.due_le.
  destruct (quiz.next_review a.2), (quiz.next_review b.2); try tauto. lia.
Qed.

#[local] Instance due_le_trans : Transitive quiz_cards.due_le.
Proof.
  intros a b c. unfold quiz_cards.due_le.
  destruct (quiz.next_review a.2), (quiz.next_review b.2),
    (quiz.next_review c.2); try tauto. lia.
Qed.

Lemma due_rows_elem (today : Z) (doc_id : option string) (st : quiz.Store)
    (kc : string * quiz.Flashcard) :
  kc ∈ filter (fun kc => quiz_cards.due_row today doc_id kc = true)
         (map_to_list (quiz.flashcards st))
  <-> quiz.flashcards st !! kc.1 = Some kc.2
      /\ quiz_cards.due_row today doc_id kc = true.
Proof.
  rewrite list_elem_of_filter. destruct kc as [k c]. simpl.
  rewrite elem_of_map_to_list. tauto.
Qed.

(** X6. [get_due_flashcards] returns at most [limit] cards, each stored
    card at most once; every card returned is due on the date of the query
    (never reviewed, or to be reviewed on or before it) and belongs to the
    document asked for, if one is; the cards come with the never reviewed
    ones first and then by ascending date; a due card is left out only when
    the limit is reached, and then no card returned is to be reviewed after
    it. *)
Theorem get_due_flashcards_spec (today : Z) (limit : nat)
    (doc_id : option string) (st : quiz.Store) :
  let items := quiz_cards.get_due_flashcards today limit doc_id st in
  length items <= limit
  /\ NoDup items.*1
  /\ (forall k c, (k, c) ∈ items ->
        quiz.flashcards st !! k = Some c
        /\ quiz_cards.is_due today c = true
        /\ (forall d, quiz.truthy_id doc_id = Some d -> quiz.document_id c = d))
  /\ StronglySorted quiz_cards.due_le items
  /\ (forall k c,
        quiz.flashcards st !! k = Some c ->
        quiz_cards.due_row today doc_id (k, c) = true ->
        (k, c) ∉ items ->
        length items = limit
        /\ forall kc, kc ∈ items -> quiz_cards.due_le kc (k, c)).
Proof.
  unfold quiz_cards.get_due_flashcards.
  set (rows := filter _ (map_to_list (quiz.flashcards st))).
  set (sorted := merge_sort quiz_cards.due_le rows).
  assert (Hss : StronglySorted quiz_cards.due_le sorted)
    by (apply StronglySorted_merge_sort; apply _).
  assert (Hperm : sorted ≡ₚ rows) by apply merge_sort_Permutation.
  cbn zeta. split; [apply firstn_le_length |]. split; [| split; [| split]].
  - assert (Hnd : NoDup sorted.*1).
    { rewrite Hperm. unfold rows.
      apply (sublist_NoDup _ (map_to_list (quiz.flashcards st)).*1);
        [apply NoDup_fst_map_to_list | apply fmap_sublist, sublist_filter]. }
    rewrite <- (take_drop limit sorted), fmap_app in Hnd.
    by apply NoDup_app in Hnd as [? _].
  - intros k c Hin. apply subseteq_take in Hin. rewrite Hperm in Hin.
    apply due_rows_elem in Hin as [Hk Hdue]. simpl in Hk.
    unfold quiz_cards.due_row in Hdue. simpl in Hdue.
    apply andb_true_iff in Hdue as [Hd Hdoc].
    split; [exact Hk |]. split; [exact Hd |].
    intros d Hd'. rewrite Hd' in Hdoc. by apply bool_decide_eq_true in Hdoc.
  - rewrite <- (take_drop limit sorted) in Hss.
    by apply StronglySorted_app_1_l in Hss.
  - intros k c Hk Hdue Hnot.
    assert (Hin : (k, c) ∈ sorted).
    { rewrite Hperm. apply due_rows_elem. split; assumption. }
    rewrite <- (take_drop limit sorted) in Hin, Hss.
    apply elem_of_app in Hin as [Hin | Hin]; [contradiction |].
    split.
    + rewrite length_take. apply Nat.min_l.
      destruct (decide (limit <= length sorted)) as [Hle | Hgt]; [exact Hle |].
      rewrite drop_ge in Hin by lia. inversion Hin.
    + intros kc Hkc. eapply StronglySorted_app_1_elem_of; eassumption.
Qed.

Lemma get_due_elem (today : Z) (limit : nat) (doc_id : option string)
    (st : quiz.Store) (kc : string * quiz.Flashcard) :
  kc ∈ quiz_cards.get_due_flashcards today limit doc_id st ->
  quiz.flashcards st !! kc.1 = Some kc.2
  /\ quiz_cards.is_due today kc.2 = true.
Proof.
  unfold quiz_cards.get_due_flashcards. intros Hin.
  apply subseteq_take in Hin. rewrite merge_sort_Permutation in Hin.
  apply due_rows_elem in Hin as [Hk Hdue]. split; [exact Hk |].
  unfold quiz_cards.due_row in Hdue. by apply andb_true_iff in Hdue as [? _].
Qed.

(** X7. A card that has been reviewed is off the due list until the date
    the review answered: whenever [review_card] answers with a result, the
    date of the next review is after the day of the review, and
    [get_due_flashcards] run for any earlier date, with any limit and any
    document filter, does not return the card. *)
Theorem reviewed_card_not_due_before_next_review
    (today now : Z) (kuzu_fault : option nat) (card_id : string) (grade : Z)
    (st st' : quiz.Store) (r : quiz.ReviewResult) :
  quiz.review_card today now kuzu_fault card_id grade st = (quiz.Ok r, st') ->
  (today < quiz.r_next_review r)%Z
  /\ forall (query_date : Z) (limit : nat) (doc_id : option string),
       (query_date < quiz.r_next_review r)%Z ->
       card_id ∉ (quiz_cards.get_due_flashcards query_date limit doc_id st').*1.
Proof.
  intros H.
  destruct (review_card_ok_inv _ _ _ _ _ _ _ _ H) as [Hg [card Hcard]].
  destruct (review_card_valid today now kuzu_fault card_id grade st card
              Hg Hcard) as (nr & ni & nd & nx & st1 & Hsm2 & Hrev & Hfc).
  rewrite Hrev in H. injection H as <- <-. simpl.
  apply sm2_within_bounds in Hsm2 as (Hi & _ & Hnx).
  split; [lia |]. intros d limit doc_id Hd Hin.
  apply list_elem_of_fmap in Hin as ([k c] & Hk & Hin). simpl in Hk. subst k.
  apply get_due_elem in Hin as [Hlook Hdue]. simpl in Hlook, Hdue.
  rewrite Hfc, lookup_insert_eq in Hlook. injection Hlook as <-.
  unfold quiz_cards.is_due in Hdue. simpl in Hdue. lia.
Qed.

Lemma reviewed_card_not_due_before_next_review_witness :
  let out := quiz.review_card 10 7 None "card1" 3 spec.store1 in
  let d :=
    py.fmax 0.1
      (py.fmin 0.9
         (0.3 - (0.1 - inject_Z (5 - 5) * (0.08 + inject_Z (5 - 5) * 0.02))
                * 0.2)) in
  out = (quiz.Ok (quiz.mkReviewResult "card1" 6 16 2 d), out.2)
  /\ (10 < 16)%Z
  /\ forall (query_date : Z) (limit : nat) (doc_id : option string),
       (query_date < 16)%Z ->
       "card1" ∉ (quiz_cards.get_due_flashcards query_date limit doc_id
                    out.2).*1.
Proof.
  intros out d. split; [reflexivity |].
  apply (reviewed_card_not_due_before_next_review 10 7 None "card1" 3
           spec.store1 out.2 (quiz.mkReviewResult "card1" 6 16 2 d)).
  reflexivity.
Defined.

(** X8. Editing the text of a card never touches its schedule: [edit_card]
    answers 404 exactly when the card does not exist, and then changes
    nothing; otherwise the card it answers with is the one [get_card] reads
    afterwards, it carries the question and the answer of the request (the
    stored ones for the fields left out), every card, the edited one
    included, keeps its SM-2 state, next review date, document and chunk,
    every other card is as before, and the concept graph is not written. *)
Theorem edit_card_keeps_schedule (now : Z) (card_id : string)
    (body : quiz_cards.FlashcardUpdate) (st : quiz.Store) :
  let out := quiz_cards.edit_card now card_id body st in
  (out.1 = quiz_cards.CardError 404 <-> quiz.flashcards st !! card_id = None)
  /\ (quiz.flashcards st !! card_id = None -> out.2 = st)
  /\ (forall card, quiz.flashcards st !! card_id = Some card ->
        exists c',
          out.1 = quiz_cards.CardOk c'
          /\ quiz_cards.get_card card_id out.2 = quiz_cards.CardOk c'
          /\ quiz.question c'
             = default (quiz.question card) (quiz_cards.u_question body)
          /\ quiz.answer c'
             = default (quiz.answer card) (quiz_cards.u_answer body)
          /\ quiz.updated_at c' = now)
  /\ (forall k c, quiz.flashcards st !! k = Some c ->
        exists c', quiz.flashcards out.2 !! k = Some c'
                   /\ spec_cards.same_schedule c c'
                   /\ (k <> card_id -> c' = c))
  /\ (forall k, quiz.flashcards st !! k = None ->
        quiz.flashcards out.2 !! k = None)
  /\ quiz.graph out.2 = quiz.graph st.
Proof.
  cbn zeta. unfold quiz_cards.edit_card, quiz_cards.update_flashcard_content,
    quiz_cards.get_card, quiz.get_flashcard.
  destruct (quiz.flashcards st !! card_id) as [card|] eqn:Hcard; simpl.
  - rewrite lookup_alter, decide_True, Hcard by reflexivity. simpl.
    split_and!.
    + split; discriminate.
    + discriminate.
    + intros ? [= <-]. eexists. split; [reflexivity |].
      rewrite lookup_alter, decide_True, Hcard by reflexivity. simpl.
      split_and!; reflexivity.
    + intros k c Hk. rewrite lookup_alter. case_decide as Hkc.
      * subst k. rewrite Hk. simpl. eexists. split; [reflexivity |].
        split; [by repeat split | congruence].
      * exists c. split; [exact Hk |]. split; [by repeat split | done].
    + intros k Hk. rewrite lookup_alter. case_decide; [subst k |];
        by rewrite Hk.
    + reflexivity.
  - split_and!; try done.
    intros k c Hk. exists c. split; [exact Hk |].
    split; [by repeat split | done].
Qed.

(** X9. [remove_card] answers 204 exactly when the card exists and 404
    otherwise; after it the card cannot be read, a second removal answers
    404, the card is on no due list, and every other card is as before; a
    removal answered with 404 leaves the store as it was. *)
Theorem remove_card_removes_only_that_card (card_id : string)
    (st : quiz.Store) :
  let out := quiz_cards.remove_card card_id st in
  (out.1 = quiz_cards.NoContent <-> is_Some (quiz.flashcards st !! card_id))
  /\ (out.1 = quiz_cards.CardError 404
      <-> quiz.flashcards st !! card_id = None)
  /\ (out.1 = quiz_cards.CardError 404 -> out.2 = st)
  /\ quiz_cards.get_card card_id out.2 = quiz_cards.CardError 404
  /\ (quiz_cards.remove_card card_id out.2).1 = quiz_cards.CardError 404
  /\ (forall today limit doc_id,
        card_id ∉ (quiz_cards.get_due_flashcards today limit doc_id out.2).*1)
  /\ (forall k, k <> card_id ->
        quiz.flashcards out.2 !! k = quiz.flashcards st !! k)
  /\ quiz.graph out.2 = quiz.graph st.
Proof.
  cbn zeta.
  assert (Hdel : quiz.flashcards (quiz_cards.remove_card card_id st).2
                 = delete card_id (quiz.flashcards st)).
  { unfold quiz_cards.remove_card, quiz_cards.delete_flashcard.
    by destruct (bool_decide _). }
  assert (Hgone : quiz.flashcards (quiz_cards.remove_card card_id st).2
                    !! card_id = None)
    by (rewrite Hdel; apply lookup_delete_eq).
  assert (Hres : (quiz_cards.remove_card card_id st).1
                 = match quiz.flashcards st !! card_id with
                   | Some _ => quiz_cards.NoContent
                   | None => quiz_cards.CardError 404
                   end
                 /\ (quiz.flashcards st !! card_id = None ->
                     (quiz_cards.remove_card card_id st).2 = st)).
  { unfold quiz_cards.remove_card, quiz_cards.delete_flashcard.
    destruct (quiz.flashcards st !! card_id) as [c|] eqn:Hc.
    - rewrite bool_decide_eq_true_2 by (by eexists). split; [reflexivity |].
      discriminate.
    - rewrite bool_decide_eq_false_2 by (by intros [? ?]).
      split; [reflexivity |]. intros _. simpl.
      rewrite delete_id by exact Hc. by destruct st. }
  destruct Hres as [Hres Hsame]. rewrite Hres. clear Hres.
  split_and!.
  - destruct (quiz.flashcards st !! card_id) as [c|];
      [split; [by eexists | reflexivity] |].
    split; [discriminate | by intros [? ?]].
  - destruct (quiz.flashcards st !! card_id) as [c|];
      [split; discriminate | split; reflexivity].
  - destruct (quiz.flashcards st !! card_id) as [c|];
      [discriminate | intros _; by apply Hsame].
  - unfold quiz_cards.get_card, quiz.get_flashcard. by rewrite Hgone.
  - unfold quiz_cards.remove_card at 1, quiz_cards.delete_flashcard.
    rewrite bool_decide_eq_false_2; [reflexivity |].
    rewrite Hgone. by intros [? ?].
  - intros today limit doc_id Hin.
    apply list_elem_of_fmap in Hin as ([k c] & Hk & Hin). simpl in Hk.
    subst k. apply get_due_elem in Hin as [Hlook _]. simpl in Hlook.
    congruence.
  - intros k Hk. rewrite Hdel. by apply lookup_delete_ne.
  - unfold quiz_cards.remove_card, quiz_cards.delete_flashcard.
    by destruct (bool_decide _).
Qed.

(** ** Concept mastery *)

Lemma foldl_set_concept_other (us : list (string * Q * Z))
    (cs : gmap string kuzu_.Concept) (cid : string) :
  (forall u, u ∈ us -> u.1.1 <> cid) ->
  foldl kuzu_.set_concept cs us !! cid = cs !! cid.
Proof.
  revert cs. induction us as [|u us IH]; intros cs H; simpl; [reflexivity |].
  rewrite IH by (intros u' Hu'; apply H; by right).
  rewrite set_concept_lookup, decide_False; [reflexivity |].
  apply H. by left.
Qed.

Lemma foldl_set_concept_absent (us : list (string * Q * Z))
    (cs : gmap string kuzu_.Concept) (cid : string) :
  cs !! cid = None -> foldl kuzu_.set_concept cs us !! cid = None.
Proof.
  revert cs. induction us as [|u us IH]; intros cs H; simpl; [exact H |].
  apply IH. rewrite set_concept_lookup. case_decide; by rewrite H.
Qed.

Lemma updates_linked (g : kuzu_.Graph) (chunk_id : string) (delta : Q)
    (u : string * Q * Z) :
  u ∈ kuzu_.new_values delta <$> kuzu_.match_rows g chunk_id ->
  spec_cards.linked g chunk_id u.1.1.
Proof.
  intros Hu. apply list_elem_of_fmap in Hu as (row & -> & Hrow).
  unfold kuzu_.match_rows in Hrow.
  apply list_elem_of_omap in Hrow as (e & He & Hrow).
  case_decide as Hch; [| discriminate].
  destruct (kuzu_.concepts g !! kuzu_.ef_concept e); [| discriminate].
  injection Hrow as <-. simpl. exists e. auto.
Qed.

(** X10. The mastery update writes nothing but the mastery and the review
    count of the concepts linked to the chunk: whether the graph store
    works or raises at some statement, the edges are as before, no concept
    is created or removed, every concept keeps its name, and a concept with
    no EXTRACTED_FROM edge to the chunk is exactly as before. *)
Theorem mastery_update_frame (fault : option nat) (chunk_id : string)
    (delta : Q) (g : kuzu_.Graph) :
  let g' :=
    (kuzu_.update_concept_mastery_from_chunk fault chunk_id delta g).2 in
  kuzu_.extracted_from g' = kuzu_.extracted_from g
  /\ (forall cid, kuzu_.concepts g !! cid = None ->
        kuzu_.concepts g' !! cid = None)
  /\ (forall cid c, kuzu_.concepts g !! cid = Some c ->
        exists c', kuzu_.concepts g' !! cid = Some c'
                   /\ kuzu_.name c' = kuzu_.name c)
  /\ (forall cid, ~ spec_cards.linked g chunk_id cid ->
        kuzu_.concepts g' !! cid = kuzu_.concepts g !! cid).
Proof.
  cbn zeta. unfold kuzu_.update_concept_mastery_from_chunk.
  set (updates := kuzu_.new_values delta <$> kuzu_.match_rows g chunk_id).
  assert (Hother : forall us cid,
             us ⊆ updates -> ~ spec_cards.linked g chunk_id cid ->
             foldl kuzu_.set_concept (kuzu_.concepts g) us !! cid
             = kuzu_.concepts g !! cid).
  { intros us cid Hsub Hnot. apply foldl_set_concept_other.
    intros u Hu Hk. apply Hnot. rewrite <- Hk.
    eapply updates_linked. apply Hsub, Hu. }
  destruct fault as [[|j]|]; simpl.
  - split_and!; eauto.
  - case_decide; simpl; split_and!;
      eauto using foldl_set_concept_absent, foldl_set_concept_present.
    intros. apply Hother; [apply subseteq_take | assumption].
  - split_and!;
      eauto using foldl_set_concept_absent, foldl_set_concept_present.
Qed.

Lemma clamp_unit_direction (m delta : Q) :
  spec.within 0 1 m ->
  let m' := py.fmax 0 (py.fmin 1 (m + delta)) in
  ((delta <= 0)%Q -> (m' <= m)%Q) /\ ((0 <= delta)%Q -> (m <= m')%Q).
Proof.
  intros [Hlo Hhi]. cbn zeta. unfold py.fmax, py.fmin.
  destruct (py.Qltb (m + delta) 1) eqn:E1.
  - apply Qltb_lt in E1.
    destruct (py.Qltb 0 (m + delta)) eqn:E2.
    + apply Qltb_lt in E2. split; intros; lra.
    + assert (~ (0 < m + delta)%Q) by (rewrite <- Qltb_lt; congruence).
      split; intros; lra.
  - assert (~ (m + delta < 1)%Q) by (rewrite <- Qltb_lt; congruence).
    change (py.Qltb 0 1) with true. cbn iota. split; intros; lra.
Qed.

(** What a review leaves of a concept linked to the chunk of the card. *)
Lemma review_card_linked_concept
    (today now : Z) (card_id : string) (grade : Z) (st : quiz.Store)
    (card : quiz.Flashcard) (e : kuzu_.ExtractedFrom) (c : kuzu_.Concept) :
  (0 <= grade <= 3)%Z ->
  quiz.flashcards st !! card_id = Some card ->
  quiz.truthy_id (quiz.chunk_id card) = Some (kuzu_.ef_chunk e) ->
  e ∈ kuzu_.extracted_from (quiz.graph st) ->
  kuzu_.concepts (quiz.graph st) !! kuzu_.ef_concept e = Some c ->
  exists delta,
    quiz._MASTERY_DELTA !! grade = Some delta
    /\ kuzu_.concepts
         (quiz.graph (quiz.review_card today now None card_id grade st).2)
         !! kuzu_.ef_concept e
       = Some (kuzu_.mkConcept (kuzu_.name c)
                 (py.fmax 0 (py.fmin 1 (kuzu_.mastery c + delta)))
                 (kuzu_.review_count c + 1)).
Proof.
  intros Hg Hcard Hch He Hc.
  destruct (sm2_returns today grade (quiz.repetitions card)
              (quiz.interval card) (quiz.difficulty card) Hg)
    as [[[[r i] d] n] Hsm2].
  destruct (mastery_delta_total grade Hg) as [delta Hdelta].
  pose proof (mastery_update_linked (kuzu_.ef_chunk e) delta (quiz.graph st)
                e c He eq_refl Hc) as Hlinked.
  exists delta. split; [exact Hdelta |].
  unfold quiz.review_card. rewrite (valid_grade_in grade Hg). simpl.
  unfold quiz.get_flashcard at 1. rewrite Hcard, Hsm2.
  unfold quiz.update_flashcard_sm2, quiz.get_flashcard. simpl.
  rewrite lookup_alter, decide_True, Hcard by reflexivity. simpl.
  rewrite Hch, Hdelta.
  unfold kuzu_.update_concept_mastery_from_chunk in Hlinked |- *.
  simpl in Hlinked |- *. exact Hlinked.
Qed.

(** X11. A review moves the mastery of the concepts of the card's chunk
    with the grade.  When [review_card] answers with a result and the graph
    store does not raise, a concept linked to the non-empty chunk id of the
    card, whose mastery was within [[0, 1]], keeps its name, has its review
    count raised by exactly one (however many edges link it to the chunk),
    and has a mastery that "fail" has not raised, that "hard" has left as
    it was, and that "good" and "easy" have not lowered. *)
Theorem review_moves_mastery_with_grade
    (today now : Z) (card_id : string) (grade : Z) (st st' : quiz.Store)
    (r : quiz.ReviewResult)
    (card : quiz.Flashcard) (e : kuzu_.ExtractedFrom) (c : kuzu_.Concept) :
  quiz.review_card today now None card_id grade st = (quiz.Ok r, st') ->
  quiz.flashcards st !! card_id = Some card ->
  quiz.truthy_id (quiz.chunk_id card) = Some (kuzu_.ef_chunk e) ->
  e ∈ kuzu_.extracted_from (quiz.graph st) ->
  kuzu_.concepts (quiz.graph st) !! kuzu_.ef_concept e = Some c ->
  spec.within 0 1 (kuzu_.mastery c) ->
  exists c',
    kuzu_.concepts (quiz.graph st') !! kuzu_.ef_concept e = Some c'
    /\ kuzu_.name c' = kuzu_.name c
    /\ kuzu_.review_count c' = (kuzu_.review_count c + 1)%Z
    /\ (grade = 0%Z -> (kuzu_.mastery c' <= kuzu_.mastery c)%Q)
    /\ (grade = 1%Z -> (kuzu_.mastery c' == kuzu_.mastery c)%Q)
    /\ ((grade = 2 \/ grade = 3)%Z ->
        (kuzu_.mastery c <= kuzu_.mastery c')%Q).
Proof.
  intros Hok Hcard Hch He Hc Hm.
  destruct (review_card_ok_inv _ _ _ _ _ _ _ _ Hok) as [Hg _].
  destruct (review_card_linked_concept today now card_id grade st card e c
              Hg Hcard Hch He Hc) as (delta & Hdelta & Hc').
  rewrite Hok in Hc'. cbn [snd] in Hc'.
  eexists. split; [exact Hc' |]. cbn [kuzu_.name kuzu_.review_count
                                       kuzu_.mastery].
  split; [reflexivity |]. split; [reflexivity |].
  destruct (clamp_unit_direction (kuzu_.mastery c) delta Hm) as [Hdown Hup].
  cbn zeta in Hdown, Hup.
  split_and!.
  - intros ->. vm_compute in Hdelta. injection Hdelta as <-.
    apply Hdown. discriminate.
  - intros ->. vm_compute in Hdelta. injection Hdelta as <-.
    apply Qle_antisym; [apply Hdown | apply Hup]; discriminate.
  - intros [-> | ->]; vm_compute in Hdelta; injection Hdelta as <-;
      apply Hup; discriminate.
Qed.

Lemma review_moves_mastery_with_grade_witness :
  let out := quiz.review_card 10 7 None "card1" 3 spec.store1 in
  let d :=
    py.fmax 0.1
      (py.fmin 0.9
         (0.3 - (0.1 - inject_Z (5 - 5) * (0.08 + inject_Z (5 - 5) * 0.02))
                * 0.2)) in
  out = (quiz.Ok (quiz.mkReviewResult "card1" 6 16 2 d), out.2)
  /\ quiz.flashcards spec.store1 !! "card1" = Some spec.card1
  /\ quiz.truthy_id (quiz.chunk_id spec.card1) = Some "ch1"
  /\ kuzu_.mkExtractedFrom "k1" "d1" "ch1"
     ∈ kuzu_.extracted_from (quiz.graph spec.store1)
  /\ kuzu_.concepts (quiz.graph spec.store1) !! "k1"
     = Some (kuzu_.mkConcept "Monads" 0.97 4)
  /\ spec.within 0 1 0.97
  /\ exists c',
      kuzu_.concepts (quiz.graph out.2) !! "k1" = Some c'
      /\ kuzu_.name c' = "Monads"
      /\ kuzu_.review_count c' = (4 + 1)%Z
      /\ (3%Z = 0%Z -> (kuzu_.mastery c' <= 0.97)%Q)
      /\ (3%Z = 1%Z -> (kuzu_.mastery c' == 0.97)%Q)
      /\ ((3 = 2 \/ 3 = 3)%Z -> (0.97 <= kuzu_.mastery c')%Q).
Proof.
  intros out d.
  split; [reflexivity |]. split; [reflexivity |]. split; [reflexivity |].
  split; [apply list_elem_of_here |]. split; [reflexivity |].
  split; [split; discriminate |].
  apply (review_moves_mastery_with_grade 10 7 "card1" 3 spec.store1 out.2
           (quiz.mkReviewResult "card1" 6 16 2 d)
           spec.card1 (kuzu_.mkExtractedFrom "k1" "d1" "ch1")
           (kuzu_.mkConcept "Monads" 0.97 4));
    [reflexivity | reflexivity | reflexivity | apply list_elem_of_here
    | reflexivity | split; discriminate].
Defined.

(** ** The chunker *)

(** A property of the loop variables that every iteration keeps, given the
    invariant [loop_inv], holds when the loop ends. *)
Lemma para_loop_keeps (P : nat -> chunker.LoopState -> Prop)
    (full : list N) (target_chars overlap_chars : Z) (offs : list (Z * Z)) :
  (forall k st para rest,
      k <= length full -> drop k full = para ++ rest ->
      spec.loop_inv full k st -> P k st ->
      P (k + length para)
        (chunker.para_step target_chars overlap_chars offs st
           (para, py.len para))) ->
  forall (ps : list (list N * Z)) (k : nat) (st : chunker.LoopState),
    Forall (fun p => p.2 = py.len p.1) ps ->
    k <= length full ->
    drop k full = concat (fst <$> ps) ->
    spec.loop_inv full k st -> P k st ->
    P (length full)
      (foldl (chunker.para_step target_chars overlap_chars offs) st ps).
Proof.
  intros Hstep ps. induction ps as [|[para plen] ps IH];
    intros k st Hlens Hk Hd Hinv HP; simpl.
  - simpl in Hd. apply (f_equal (@length N)) in Hd.
    rewrite length_drop in Hd. simpl in Hd.
    replace (length full) with k by lia. exact HP.
  - apply Forall_cons in Hlens as [Hl Hlens]. simpl in Hl. subst plen.
    rewrite fmap_cons in Hd. simpl in Hd.
    assert (Hlen : k + length para <= length full).
    { apply (f_equal (@length N)) in Hd.
      rewrite length_drop, length_app in Hd. lia. }
    apply (IH (k + length para)); [exact Hlens | exact Hlen | | |].
    + rewrite <- drop_drop, Hd. apply drop_app_length.
    + by eapply para_step_inv.
    + by eapply Hstep.
Qed.

(** What [chunk_pages] returns, in terms of the loop. *)
Lemma chunk_pages_unfold (pages : list chunker.PageText)
    (target_chars overlap_chars : Z) :
  pages <> [] ->
  chunker.blank (spec.full_text pages) = false ->
  let full := spec.full_text pages in
  let offs := spec_chunker.page_offsets pages in
  let st :=
    foldl (chunker.para_step target_chars overlap_chars offs)
      (chunker.mkLoopState [] [] 0 0) (chunker._split_paragraphs full) in
  chunker.chunk_pages pages target_chars overlap_chars
  = if chunker.blank (chunker.buf st) then chunker.chunks st
    else chunker._emit_chunk (chunker.chunks st) (chunker.buf st)
           (chunker.buf_start st) offs.
Proof.
  unfold chunker.chunk_pages, spec.full_text, spec_chunker.page_offsets.
  destruct pages as [|p pages']; [done |]. intros _.
  destruct (chunker.build_full_text (p :: pages')) as [full offs].
  simpl. by intros ->.
Qed.

Lemma chunk_pages_blank (pages : list chunker.PageText)
    (target_chars overlap_chars : Z) :
  pages = [] \/ chunker.blank (spec.full_text pages) = true ->
  chunker.chunk_pages pages target_chars overlap_chars = [].
Proof.
  unfold chunker.chunk_pages, spec.full_text.
  intros [-> | H]; [reflexivity |].
  destruct pages as [|p pages']; [reflexivity |].
  destruct (chunker.build_full_text (p :: pages')) as [full offs].
  simpl in H. by rewrite H.
Qed.

(** The chunk emitted for the buffer is well formed. *)
Lemma emit_well_formed (full : list N) (k : nat) (offs : list (Z * Z))
    (st : chunker.LoopState) :
  k <= length full ->
  spec.loop_inv full k st ->
  Forall (spec_chunker.well_formed full offs) (chunker.chunks st) ->
  Forall (spec_chunker.well_formed full offs)
    (chunker._emit_chunk (chunker.chunks st) (chunker.buf st)
       (chunker.buf_start st) offs).
Proof.
  intros Hk (_ & _ & n & Hstart & Hnk & Hbuf & _) Hall.
  rewrite emit_chunk_spec.
  destruct (chunker.blank (chunker.buf st)) eqn:Hb; [exact Hall |].
  apply Forall_app. split; [exact Hall |]. apply Forall_singleton.
  assert (Hlen : length (chunker.buf st) = k - n).
  { rewrite Hbuf, length_drop, length_take. lia. }
  assert (Hne : chunker.buf st <> []).
  { intros E. rewrite E in Hb. discriminate. }
  assert (Hpos : 0 < length (chunker.buf st))
    by (destruct (chunker.buf st); [done | simpl; lia]).
  unfold spec_chunker.well_formed, py.len. simpl.
  rewrite Hstart, Hlen.
  replace (Z.of_nat n + Z.of_nat (k - n))%Z with (Z.of_nat k) by lia.
  rewrite slice_nat, <- Hbuf.
  split_and!; try lia; try reflexivity.
  unfold chunker.blank in Hb. by destruct (py.strip (chunker.buf st)).
Qed.

Lemma para_step_well_formed (full : list N) (target_chars overlap_chars : Z)
    (offs : list (Z * Z)) (k : nat) (st : chunker.LoopState)
    (para rest : list N) :
  k <= length full -> drop k full = para ++ rest ->
  spec.loop_inv full k st ->
  Forall (spec_chunker.well_formed full offs) (chunker.chunks st) ->
  Forall (spec_chunker.well_formed full offs)
    (chunker.chunks
       (chunker.para_step target_chars overlap_chars offs st
          (para, py.len para))).
Proof.
  intros Hk _ Hinv Hall. unfold chunker.para_step.
  destruct (chunker.blank para); [exact Hall |].
  destruct (negb _ && _); [| exact Hall].
  simpl. by eapply emit_well_formed.
Qed.

Lemma chunk_pages_wf (pages : list chunker.PageText)
    (target_chars overlap_chars : Z) :
  Forall (spec_chunker.well_formed (spec.full_text pages)
            (spec_chunker.page_offsets pages))
    (chunker.chunk_pages pages target_chars overlap_chars).
Proof.
  destruct (decide (pages = [])) as [-> | Hne]; [by constructor |].
  destruct (chunker.blank (spec.full_text pages)) eqn:Hfull.
  { rewrite chunk_pages_blank by auto. constructor. }
  rewrite (chunk_pages_unfold pages target_chars overlap_chars Hne Hfull).
  cbn zeta.
  set (full := spec.full_text pages).
  set (offs := spec_chunker.page_offsets pages).
  destruct (split_paragraphs_spec full) as [Hc Hl].
  pose proof (para_loop_inv full target_chars overlap_chars offs
                (chunker._split_paragraphs full) 0 _ Hl (Nat.le_0_l _)
                (eq_sym Hc) (loop_inv_init full)) as Hinv.
  pose proof (para_loop_keeps
                (fun _ st =>
                   Forall (spec_chunker.well_formed full offs)
                     (chunker.chunks st))
                full target_chars overlap_chars offs
                (para_step_well_formed full target_chars overlap_chars offs)
                (chunker._split_paragraphs full) 0 _ Hl (Nat.le_0_l _)
                (eq_sym Hc) (loop_inv_init full) (Forall_nil_2 _)) as Hwf.
  simpl in Hwf. clear Hfull.
  set (st := foldl _ _ _) in *.
  destruct (chunker.blank (chunker.buf st)); [exact Hwf |].
  by apply (emit_well_formed full (length full)).
Qed.

(** X12. Every chunk [chunk_pages] returns is well formed: its range
    [[char_start, char_end)] is a non-empty range of the concatenated text,
    its content is the text of that range with the whitespace at both ends
    removed and is not empty, its token count is the length of the content
    divided by four, rounded down, and its page is the one [_lookup_page]
    finds for the start of the range. *)
Theorem chunk_pages_well_formed (pages : list chunker.PageText)
    (target_chars overlap_chars : Z) :
  Forall (spec_chunker.well_formed (spec.full_text pages)
            (spec_chunker.page_offsets pages))
    (chunker.chunk_pages pages target_chars overlap_chars).
Proof. apply chunk_pages_wf. Qed.

(** *** Pages *)

Lemma fold_add_page (pages : list chunker.PageText) (full : list N)
    (offs : list (Z * Z)) :
  foldl chunker.add_page (full, offs) pages
  = (full ++ spec_chunker.pages_text pages,
     offs ++ spec_chunker.offsets_from (py.len full) pages).
Proof.
  revert full offs. induction pages as [|p ps IH]; intros full offs.
  - simpl. by rewrite !app_nil_r.
  - cbn [foldl chunker.add_page]. rewrite IH.
    change (spec_chunker.pages_text (p :: ps))
      with ((chunker.text p ++ [chunker.nl]) ++ spec_chunker.pages_text ps).
    cbn [spec_chunker.offsets_from].
    rewrite <- !app_assoc. cbn [app]. do 3 f_equal.
    unfold py.len. rewrite !length_app. cbn [length]. f_equal. lia.
Qed.

Lemma full_text_pages_text (pages : list chunker.PageText) :
  spec.full_text pages = spec_chunker.pages_text pages.
Proof.
  unfold spec.full_text, chunker.build_full_text. by rewrite fold_add_page.
Qed.

Lemma page_offsets_from (pages : list chunker.PageText) :
  spec_chunker.page_offsets pages = spec_chunker.offsets_from 0 pages.
Proof.
  unfold spec_chunker.page_offsets, chunker.build_full_text.
  by rewrite fold_add_page.
Qed.

Lemma pages_text_app (a b : list chunker.PageText) :
  spec_chunker.pages_text (a ++ b)
  = spec_chunker.pages_text a ++ spec_chunker.pages_text b.
Proof. unfold spec_chunker.pages_text. by rewrite fmap_app, concat_app. Qed.

Lemma offset_after_snoc (pre : list chunker.PageText) (p : chunker.PageText) :
  spec_chunker.offset_after (pre ++ [p])
  = (spec_chunker.offset_after pre + py.len (chunker.text p) + 1)%Z.
Proof.
  unfold spec_chunker.offset_after. rewrite !full_text_pages_text.
  rewrite pages_text_app.
  change (spec_chunker.pages_text [p]) with ((chunker.text p ++ [chunker.nl]) ++ []).
  unfold py.len. rewrite !length_app. cbn [length]. lia.
Qed.

Lemma offset_after_cons (p : chunker.PageText) (pre : list chunker.PageText) :
  spec_chunker.offset_after (p :: pre)
  = (py.len (chunker.text p) + 1 + spec_chunker.offset_after pre)%Z.
Proof.
  unfold spec_chunker.offset_after. rewrite !full_text_pages_text.
  change (spec_chunker.pages_text (p :: pre))
    with ((chunker.text p ++ [chunker.nl]) ++ spec_chunker.pages_text pre).
  unfold py.len. rewrite !length_app. cbn [length]. lia.
Qed.

(** The lookup loop on the offsets of [pre ++ p :: post] stops at [p] for
    an offset inside the text of [p] (or beyond it, when [p] is last). *)
Lemma lookup_page_loop_from (pre : list chunker.PageText)
    (p : chunker.PageText) (post : list chunker.PageText)
    (start x : Z) (result : option Z) :
  (start + spec_chunker.offset_after pre <= x)%Z ->
  (post = []
   \/ x < start + spec_chunker.offset_after pre
          + py.len (chunker.text p) + 1)%Z ->
  chunker._lookup_page_loop result x
    (spec_chunker.offsets_from start (pre ++ p :: post))
  = Some (chunker.page_number p).
Proof.
  revert start result. induction pre as [|q pre IH]; intros start result.
  - change (spec_chunker.offset_after []) with 0%Z. simpl. intros Hx Hend.
    rewrite (proj2 (Z.leb_le start x)) by lia.
    destruct post as [|q post]; [reflexivity |]. simpl.
    destruct Hend as [? | Hend]; [done |].
    rewrite (proj2 (Z.leb_gt _ _)); [reflexivity | lia].
  - rewrite offset_after_cons. simpl. intros Hx Hend.
    assert (0 <= py.len (chunker.text q))%Z by (unfold py.len; lia).
    assert (0 <= spec_chunker.offset_after pre)%Z
      by (unfold spec_chunker.offset_after, py.len; lia).
    rewrite (proj2 (Z.leb_le start x)) by lia.
    apply IH; [lia |]. destruct Hend; [by left | right; lia].
Qed.

Lemma lookup_page_of_offset (pre : list chunker.PageText)
    (p : chunker.PageText) (post : list chunker.PageText) (x : Z) :
  (spec_chunker.offset_after pre <= x)%Z ->
  (post = [] \/ x < spec_chunker.offset_after (pre ++ [p]))%Z ->
  chunker._lookup_page x (spec_chunker.page_offsets (pre ++ p :: post))
  = Some (chunker.page_number p).
Proof.
  intros Hx Hend. rewrite page_offsets_from. unfold chunker._lookup_page.
  apply lookup_page_loop_from; [lia |].
  rewrite offset_after_snoc in Hend. destruct Hend; [by left | right; lia].
Qed.

(** Every offset inside the text lies in the text of one of the pages. *)
Lemma offset_in_some_page (pages : list chunker.PageText) (x : Z) :
  (0 <= x < spec_chunker.offset_after pages)%Z ->
  exists pre p post,
    pages = pre ++ p :: post
    /\ (spec_chunker.offset_after pre <= x
        < spec_chunker.offset_after (pre ++ [p]))%Z.
Proof.
  induction pages as [|q pages IH] using rev_ind; intros Hx.
  - change (spec_chunker.offset_after []) with 0%Z in Hx. lia.
  - destruct (decide (spec_chunker.offset_after pages <= x)%Z) as [Hge | Hlt].
    + exists pages, q, []. split; [reflexivity | lia].
    + destruct IH as (pre & p & post & -> & Hr); [lia |].
      exists pre, p, (post ++ [q]). split; [| exact Hr].
      by rewrite <- app_assoc.
Qed.

(** X13. The page of a chunk is the page in which its range starts: the
    start of every chunk lies in the text of one page of the input (the
    page text and the newline added after it), and the chunk carries the
    number of the page for which that holds; in particular no chunk is
    without a page. *)
Theorem chunk_page_is_page_of_start (pages : list chunker.PageText)
    (target_chars overlap_chars : Z) (c : chunker.ChunkData) :
  c ∈ chunker.chunk_pages pages target_chars overlap_chars ->
  (exists pre p post,
      pages = pre ++ p :: post
      /\ (spec_chunker.offset_after pre <= chunker.char_start c
          < spec_chunker.offset_after (pre ++ [p]))%Z)
  /\ (forall pre p post,
        pages = pre ++ p :: post ->
        (spec_chunker.offset_after pre <= chunker.char_start c
         < spec_chunker.offset_after (pre ++ [p]))%Z ->
        chunker.c_page_number c = Some (chunker.page_number p)).
Proof.
  intros Hc.
  assert (Hwf : spec_chunker.well_formed (spec.full_text pages)
                  (spec_chunker.page_offsets pages) c).
  { pose proof (chunk_pages_wf pages target_chars overlap_chars) as Hall.
    rewrite Forall_forall in Hall. by apply Hall. }
  destruct Hwf as (Hs & He & _ & _ & _ & Hpage).
  split.
  - apply offset_in_some_page. unfold spec_chunker.offset_after. lia.
  - intros pre p post -> Hr. rewrite Hpage.
    apply lookup_page_of_offset; [lia | right; lia].
Qed.

Lemma chunk_page_is_page_of_start_witness :
  let pages := [chunker.mkPageText 1 [65; 46; 10; 10; 66; 46]%N] in
  let c := chunker.mkChunkData 0 [65; 46; 10; 10; 66; 46]%N (Some 1%Z) 0 7 1 in
  c ∈ chunker.chunk_pages pages 100 10
  /\ (exists pre p post,
        pages = pre ++ p :: post
        /\ (spec_chunker.offset_after pre <= chunker.char_start c
            < spec_chunker.offset_after (pre ++ [p]))%Z)
  /\ (forall pre p post,
        pages = pre ++ p :: post ->
        (spec_chunker.offset_after pre <= chunker.char_start c
         < spec_chunker.offset_after (pre ++ [p]))%Z ->
        chunker.c_page_number c = Some (chunker.page_number p)).
Proof.
  intros pages c.
  assert (Hc : c ∈ chunker.chunk_pages pages 100 10)
    by apply list_elem_of_here.
  split; [exact Hc |].
  exact (chunk_page_is_page_of_start pages 100 10 c Hc).
Defined.

(** *** Texts that fit into one chunk *)

Lemma para_step_fits (full : list N) (target_chars overlap_chars : Z)
    (offs : list (Z * Z)) (k : nat) (st : chunker.LoopState)
    (para rest : list N) :
  (py.len full <= target_chars)%Z ->
  k <= length full -> drop k full = para ++ rest ->
  spec.loop_inv full k st ->
  chunker.chunks st = [] /\ chunker.buf_start st = 0%Z
  /\ chunker.buf st = take k full ->
  let st' :=
    chunker.para_step target_chars overlap_chars offs st
      (para, py.len para) in
  chunker.chunks st' = [] /\ chunker.buf_start st' = 0%Z
  /\ chunker.buf st' = take (k + length para) full.
Proof.
  intros Hfit Hk Hd _ (Hcs & Hstart & Hbuf). cbn zeta.
  assert (Hext : take (k + length para) full = take k full ++ para)
    by (by eapply take_extend).
  assert (Hlen : k + length para <= length full).
  { apply (f_equal (@length N)) in Hd.
    rewrite length_drop, length_app in Hd. lia. }
  unfold chunker.para_step.
  destruct (chunker.blank para);
    [cbn; rewrite Hbuf, Hext; auto |].
  destruct (negb _ && _) eqn:E.
  - exfalso. apply andb_true_iff in E as [_ E]. apply Z.ltb_lt in E.
    rewrite Hbuf in E. unfold py.len in *. rewrite length_take in E. lia.
  - cbn. rewrite Hbuf, Hext. auto.
Qed.

(** X14. A text that fits into the target is one chunk: when the
    concatenated text is not blank and is not longer than [target_chars],
    [chunk_pages] returns exactly one chunk, with index 0, the range of the
    whole text, the text without the whitespace at its ends as content, and
    the number of the first page. *)
Theorem chunk_pages_single_chunk (pages : list chunker.PageText)
    (target_chars overlap_chars : Z) :
  chunker.blank (spec.full_text pages) = false ->
  (py.len (spec.full_text pages) <= target_chars)%Z ->
  chunker.chunk_pages pages target_chars overlap_chars
  = [chunker.mkChunkData 0 (py.strip (spec.full_text pages))
       (chunker.page_number <$> head pages) 0 (py.len (spec.full_text pages))
       (py.len (py.strip (spec.full_text pages)) / 4)].
Proof.
  intros Hfull Hfit.
  destruct pages as [|p pages']; [discriminate |].
  rewrite (chunk_pages_unfold (p :: pages') target_chars overlap_chars
             ltac:(done) Hfull).
  cbn zeta.
  set (full := spec.full_text (p :: pages')) in *.
  set (offs := spec_chunker.page_offsets (p :: pages')).
  destruct (split_paragraphs_spec full) as [Hc Hl].
  pose proof (para_loop_keeps
                (fun k st =>
                   chunker.chunks st = [] /\ chunker.buf_start st = 0%Z
                   /\ chunker.buf st = take k full)
                full target_chars overlap_chars offs
                (fun k st para rest =>
                   para_step_fits full target_chars overlap_chars offs k st
                     para rest Hfit)
                (chunker._split_paragraphs full) 0 _ Hl (Nat.le_0_l _)
                (eq_sym Hc) (loop_inv_init full)
                (conj eq_refl (conj eq_refl eq_refl)))
    as (Hcs & Hstart & Hbuf).
  set (st := foldl _ _ _) in *.
  rewrite firstn_all in Hbuf. rewrite Hcs, Hstart, Hbuf, Hfull.
  rewrite emit_chunk_spec, Hfull. cbn [app py.len length].
  do 2 f_equal.
  - unfold offs.
    apply (lookup_page_of_offset [] p pages' 0); [reflexivity |].
    right. rewrite offset_after_snoc. unfold spec_chunker.offset_after, py.len.
    lia.
Qed.

Lemma chunk_pages_single_chunk_witness :
  let pages := [chunker.mkPageText 1 [65; 46; 10; 10; 66; 46]%N] in
  chunker.blank (spec.full_text pages) = false
  /\ (py.len (spec.full_text pages) <= 100)%Z
  /\ chunker.chunk_pages pages 100 10
     = [chunker.mkChunkData 0 (py.strip (spec.full_text pages))
          (chunker.page_number <$> head pages) 0
          (py.len (spec.full_text pages))
          (py.len (py.strip (spec.full_text pages)) / 4)].
Proof.
  intros pages. split; [reflexivity |]. split; [vm_compute; discriminate |].
  apply (chunk_pages_single_chunk pages 100 10);
    [reflexivity | vm_compute; discriminate].
Defined.

(** *** The overlap between chunks *)

Lemma emit_chunk_starts (cs : list chunker.ChunkData) (text : list N)
    (start : Z) (offs : list (Z * Z)) (P : Z -> Prop) :
  Forall (fun c => P (chunker.char_start c)) cs -> P start ->
  Forall (fun c => P (chunker.char_start c))
    (chunker._emit_chunk cs text start offs).
Proof.
  intros Hall Hs. rewrite emit_chunk_spec.
  destruct (chunker.blank text); [exact Hall |].
  apply Forall_app. split; [exact Hall |]. by apply Forall_singleton.
Qed.

Lemma para_step_no_overlap (full : list N) (target_chars : Z)
    (offs : list (Z * Z)) (k : nat) (st : chunker.LoopState)
    (para rest : list N) :
  k <= length full -> drop k full = para ++ rest ->
  spec.loop_inv full k st ->
  chunker.buf_start st = 0%Z
  /\ Forall (fun c => chunker.char_start c = 0%Z) (chunker.chunks st) ->
  let st' := chunker.para_step target_chars 0 offs st (para, py.len para) in
  chunker.buf_start st' = 0%Z
  /\ Forall (fun c => chunker.char_start c = 0%Z) (chunker.chunks st').
Proof.
  intros _ _ _ [Hstart Hall]. cbn zeta. unfold chunker.para_step.
  destruct (chunker.blank para); [by split |].
  destruct (negb _ && _); [| by split].
  cbn [chunker.buf_start chunker.chunks]. split.
  - assert (Hsame : (if (0 <? py.len (chunker.buf st))%Z
                     then py.slice_from (chunker.buf st) (- 0)
                     else chunker.buf st) = chunker.buf st).
    { destruct (0 <? py.len (chunker.buf st))%Z; [| reflexivity].
      unfold py.slice_from. cbn zeta. change (- 0 <? 0)%Z with false.
      cbv iota. rewrite Z.min_l by (unfold py.len; lia). reflexivity. }
    rewrite Hsame. lia.
  - apply (emit_chunk_starts _ _ _ _ (fun s => s = 0%Z)); assumption.
Qed.

(** X15. With [overlap_chars = 0] the chunks are not disjoint: the code
    takes [buf[-0:]], which is the whole buffer, as the overlap, so the
    buffer is never cut and every chunk [chunk_pages] returns starts at
    offset 0 of the text. *)
Theorem chunk_pages_zero_overlap_keeps_everything
    (pages : list chunker.PageText) (target_chars : Z) :
  Forall (fun c => chunker.char_start c = 0%Z)
    (chunker.chunk_pages pages target_chars 0).
Proof.
  destruct (decide (pages = [])) as [-> | Hne]; [by constructor |].
  destruct (chunker.blank (spec.full_text pages)) eqn:Hfull.
  { rewrite chunk_pages_blank by auto. constructor. }
  rewrite (chunk_pages_unfold pages target_chars 0 Hne Hfull).
  cbn zeta. clear Hfull.
  set (full := spec.full_text pages).
  set (offs := spec_chunker.page_offsets pages).
  destruct (split_paragraphs_spec full) as [Hc Hl].
  pose proof (para_loop_keeps
                (fun _ st =>
                   chunker.buf_start st = 0%Z
                   /\ Forall (fun c => chunker.char_start c = 0%Z)
                        (chunker.chunks st))
                full target_chars 0 offs
                (para_step_no_overlap full target_chars offs)
                (chunker._split_paragraphs full) 0 _ Hl (Nat.le_0_l _)
                (eq_sym Hc) (loop_inv_init full)
                (conj eq_refl (Forall_nil_2 _))) as [Hstart Hall].
  set (st := foldl _ _ _) in *.
  destruct (chunker.blank (chunker.buf st)); [exact Hall |].
  apply (emit_chunk_starts _ _ _ _ (fun s => s = 0%Z)); assumption.
Qed.

Lemma adjacent_ok_snoc (overlap_chars : Z) (cs : list chunker.ChunkData)
    (d : chunker.ChunkData) :
  spec_chunker.adjacent_ok overlap_chars cs ->
  match last cs with
  | None => True
  | Some a =>
      chunker.char_start d
      = Z.max (chunker.char_start a) (chunker.char_end a - overlap_chars)
      /\ (chunker.char_end a < chunker.char_end d)%Z
  end ->
  spec_chunker.adjacent_ok overlap_chars (cs ++ [d]).
Proof.
  intros Hadj Hlast i a b Ha Hb.
  destruct (decide (S i < length cs)) as [Hlt | Hge].
  - rewrite lookup_app_l in Ha by lia. rewrite lookup_app_l in Hb by lia.
    by apply (Hadj i).
  - assert (Hi : S i = length cs).
    { apply lookup_lt_Some in Hb. rewrite length_app in Hb. simpl in Hb.
      lia. }
    rewrite lookup_app_l in Ha by lia.
    rewrite lookup_app_r, Hi, Nat.sub_diag in Hb by lia.
    injection Hb as <-.
    rewrite last_lookup in Hlast.
    replace (pred (length cs)) with i in Hlast by lia.
    by rewrite Ha in Hlast.
Qed.

(** The chunk emitted for the buffer continues the sequence. *)
Lemma emit_adjacent (full : list N) (k : nat) (offs : list (Z * Z))
    (overlap_chars : Z) (st : chunker.LoopState) :
  k <= length full ->
  spec.loop_inv full k st ->
  spec_chunker.adjacent_ok overlap_chars (chunker.chunks st) ->
  spec_chunker.follows_last overlap_chars k st ->
  spec_chunker.adjacent_ok overlap_chars
    (chunker._emit_chunk (chunker.chunks st) (chunker.buf st)
       (chunker.buf_start st) offs).
Proof.
  intros Hk (_ & _ & n & Hstart & Hnk & Hbuf & _) Hadj Hfl.
  rewrite emit_chunk_spec.
  destruct (chunker.blank (chunker.buf st)); [exact Hadj |].
  apply adjacent_ok_snoc; [exact Hadj |].
  unfold spec_chunker.follows_last in Hfl.
  destruct (last (chunker.chunks st)) as [a|]; [| done].
  destruct Hfl as [Hs He]. cbn [chunker.char_start chunker.char_end].
  split; [exact Hs |].
  assert (length (chunker.buf st) = k - n)
    by (rewrite Hbuf, length_drop, length_take; lia).
  unfold py.len. lia.
Qed.

Lemma para_step_adjacent (full : list N) (target_chars overlap_chars : Z)
    (offs : list (Z * Z)) (k : nat) (st : chunker.LoopState)
    (para rest : list N) :
  (0 < overlap_chars)%Z ->
  k <= length full -> drop k full = para ++ rest ->
  spec.loop_inv full k st ->
  spec_chunker.adjacent_ok overlap_chars (chunker.chunks st)
  /\ spec_chunker.follows_last overlap_chars k st ->
  let st' :=
    chunker.para_step target_chars overlap_chars offs st
      (para, py.len para) in
  spec_chunker.adjacent_ok overlap_chars (chunker.chunks st')
  /\ spec_chunker.follows_last overlap_chars (k + length para) st'.
Proof.
  intros Ho Hk Hd Hinv [Hadj Hfl]. cbn zeta.
  assert (Hkeep : forall b,
             spec_chunker.follows_last overlap_chars (k + length para)
               (chunker.mkLoopState (chunker.chunks st) b
                  (chunker.buf_start st)
                  (chunker.text_cursor st + py.len para))).
  { intros b. unfold spec_chunker.follows_last in *.
    cbn [chunker.chunks chunker.buf_start].
    destruct (last (chunker.chunks st)); [| done].
    destruct Hfl. split; [done | lia]. }
  unfold chunker.para_step.
  destruct (chunker.blank para) eqn:Hpara; [split; [exact Hadj | apply Hkeep] |].
  destruct (negb _ && _); [| split; [exact Hadj | apply Hkeep]].
  cbn [chunker.chunks].
  split; [by apply (emit_adjacent full k) |].
  pose proof Hinv as (_ & _ & n & Hstart & Hnk & Hbuf & Hcov).
  assert (Hlen : length (chunker.buf st) = k - n)
    by (rewrite Hbuf, length_drop, length_take; lia).
  assert (Hpos : 0 < length para).
  { destruct para; [discriminate | simpl; lia]. }
  unfold spec_chunker.follows_last.
  cbn [chunker.chunks chunker.buf_start].
  rewrite emit_chunk_spec.
  destruct (chunker.blank (chunker.buf st)) eqn:Hb.
  - destruct Hcov as [[Hnil _] | [Hnb _]]; [| congruence].
    by rewrite Hnil.
  - rewrite last_snoc. cbn [chunker.char_start chunker.char_end].
    split; [| unfold py.len; lia].
    destruct (overlap_chars <? py.len (chunker.buf st))%Z eqn:Ho'.
    + apply Z.ltb_lt in Ho'.
      assert (Hov : py.len (py.slice_from (chunker.buf st) (- overlap_chars))
                    = overlap_chars).
      { unfold py.slice_from. cbn zeta.
        rewrite (proj2 (Z.ltb_lt (- overlap_chars) 0)) by lia.
        unfold py.len in *. rewrite length_drop. lia. }
      rewrite Hov. unfold py.len in *. lia.
    + apply Z.ltb_ge in Ho'. unfold py.len in *. lia.
Qed.

(** X16. How consecutive chunks overlap, for a positive [overlap_chars]:
    each chunk after the first starts [overlap_chars] characters before
    the end of the chunk before it, or where that chunk started when it is
    not longer than [overlap_chars]; and each chunk ends after the one
    before it. *)
Theorem chunk_pages_adjacent_overlap (pages : list chunker.PageText)
    (target_chars overlap_chars : Z) :
  (0 < overlap_chars)%Z ->
  spec_chunker.adjacent_ok overlap_chars
    (chunker.chunk_pages pages target_chars overlap_chars).
Proof.
  intros Ho.
  destruct (decide (pages = [])) as [-> | Hne]; [by intros i a b ? |].
  destruct (chunker.blank (spec.full_text pages)) eqn:Hfull.
  { rewrite chunk_pages_blank by auto. by intros i a b ?. }
  rewrite (chunk_pages_unfold pages target_chars overlap_chars Hne Hfull).
  cbn zeta. clear Hfull.
  set (full := spec.full_text pages).
  set (offs := spec_chunker.page_offsets pages).
  destruct (split_paragraphs_spec full) as [Hc Hl].
  pose proof (para_loop_inv full target_chars overlap_chars offs
                (chunker._split_paragraphs full) 0 _ Hl (Nat.le_0_l _)
                (eq_sym Hc) (loop_inv_init full)) as Hinv.
  assert (Hinit : spec_chunker.adjacent_ok overlap_chars []
                  /\ spec_chunker.follows_last overlap_chars 0
                       (chunker.mkLoopState [] [] 0 0)).
  { split; [by intros i a b ? | exact I]. }
  pose proof (para_loop_keeps
                (fun k st =>
                   spec_chunker.adjacent_ok overlap_chars (chunker.chunks st)
                   /\ spec_chunker.follows_last overlap_chars k st)
                full target_chars overlap_chars offs
                (fun k st para rest =>
                   para_step_adjacent full target_chars overlap_chars offs
                     k st para rest Ho)
                (chunker._split_paragraphs full) 0 _ Hl (Nat.le_0_l _)
                (eq_sym Hc) (loop_inv_init full) Hinit) as [Hadj Hfl].
  set (st := foldl _ _ _) in *.
  destruct (chunker.blank (chunker.buf st)); [exact Hadj |].
  by apply (emit_adjacent full (length full)).
Qed.

Lemma chunk_pages_adjacent_overlap_witness :
  (0 < 2)%Z
  /\ spec_chunker.adjacent_ok 2
       (chunker.chunk_pages spec_chunker.pages_two_paragraphs 5 2).
Proof.
  split; [lia |].
  apply (chunk_pages_adjacent_overlap spec_chunker.pages_two_paragraphs 5 2).
  lia.
Defined.

(** On the page "AAAA\n\nBBBB" with a target of 5 and an overlap of 2 the
    second chunk starts two characters before the end of the first. *)
Lemma chunk_pages_two_paragraphs :
  (fun c => (chunker.char_start c, chunker.char_end c))
    <$> chunker.chunk_pages spec_chunker.pages_two_paragraphs 5 2
  = [(0, 6); (4, 11)]%Z.
Proof. reflexivity. Qed.

(** *** Paragraphs *)

Lemma sum_lengths (ps : list (list N * Z)) :
  Forall (fun p => p.2 = py.len p.1) ps ->
  foldr Z.add 0%Z (snd <$> ps) = py.len (concat (fst <$> ps)).
Proof.
  induction 1 as [|[para n] ps Hn _ IH]; [reflexivity |].
  rewrite !fmap_cons. cbn [foldr concat fst snd]. rewrite IH.
  simpl in Hn. subst n. unfold py.len. rewrite length_app. lia.
Qed.

(** X17. [_split_paragraphs] loses nothing: the paragraphs it returns,
    concatenated in order, are the text; the length it reports with each
    paragraph is the length of that paragraph, delimiter included; and the
    reported lengths add up to the length of the text, so that the cursor
    [chunk_pages] advances by them ends at the end of the text. *)
Theorem split_paragraphs_round_trip (text : list N) :
  let ps := chunker._split_paragraphs text in
  concat (fst <$> ps) = text
  /\ Forall (fun p => p.2 = py.len p.1) ps
  /\ foldr Z.add 0%Z (snd <$> ps) = py.len text.
Proof.
  cbn zeta. destruct (split_paragraphs_spec text) as [Hc Hl].
  split; [exact Hc |]. split; [exact Hl |].
  by rewrite sum_lengths, Hc.
Qed.

(** ** The pipeline: chunk rows and vectors *)


(** X18. Embedding in batches: given as many chunk ids as chunks,
    [embed_batches] adds a prefix of the ids to the vector store, in their
    order, each once, and changes nothing else; every batch added was
    accepted by the vector store; when it returns, the prefix is all the
    ids; when it raises, the prefix ends at a multiple of the batch size,
    before the end, with the batch the vector store refused. *)
Theorem embed_batches_adds_prefix (env : external.Env) (doc_id : string)
    (cs : list chunker.ChunkData) (ids : list string) (db : sqlite.DB) :
  length ids = length cs ->
  exists (r : sqlite.Result unit) (n : nat),
    ingestion.embed_batches (length cs) env doc_id cs ids db
    = (r, spec_pipeline.add_vectors doc_id (take n ids) db)
    /\ (forall m, m < n -> (ingestion.CHROMA_BATCH_SIZE | m) ->
          external.chroma_add env
            (take ingestion.CHROMA_BATCH_SIZE (drop m ids)) = true)
    /\ match r with
       | sqlite.Return _ => take n ids = ids
       | sqlite.Raise =>
           n < length ids /\ (ingestion.CHROMA_BATCH_SIZE | n)
           /\ external.chroma_add env
                (take ingestion.CHROMA_BATCH_SIZE (drop n ids)) = false
       end.
Proof. intros Hlen. by apply embed_batches_prefix. Qed.

Lemma embed_batches_adds_prefix_witness :
  let cs := [sqlite.data (spec.row "c0" "d1" 0 120 false)] in
  length ["u0"] = length cs
  /\ exists (r : sqlite.Result unit) (n : nat),
      ingestion.embed_batches (length cs) spec.env_ok "d1" cs ["u0"]
        (spec.db_with sqlite.EMBEDDING)
      = (r, spec_pipeline.add_vectors "d1" (take n ["u0"])
              (spec.db_with sqlite.EMBEDDING))
      /\ (forall m, m < n -> (ingestion.CHROMA_BATCH_SIZE | m) ->
            external.chroma_add spec.env_ok
              (take ingestion.CHROMA_BATCH_SIZE (drop m ["u0"])) = true)
      /\ match r with
         | sqlite.Return _ => take n ["u0"] = ["u0"]
         | sqlite.Raise =>
             n < length ["u0"] /\ (ingestion.CHROMA_BATCH_SIZE | n)
             /\ external.chroma_add spec.env_ok
                  (take ingestion.CHROMA_BATCH_SIZE (drop n ["u0"])) = false
         end.
Proof.
  intros cs. split; [reflexivity |].
  apply (embed_batches_adds_prefix spec.env_ok "d1" cs ["u0"]
           (spec.db_with sqlite.EMBEDDING)).
  reflexivity.
Defined.

(** X19. What a run of [process_document] leaves in the chunk table and
    the vector store, for a document whose PDF opens, has enough text and
    gives at least one chunk.  The run always returns.  Either a batch was
    refused by the vector store: the document is in [error], the rows of
    the new chunks are in the table with [has_embedding = 0] with the rows
    that were there untouched, and the vector store holds, after the purge
    of the document's old vectors, the ids of the batches before the
    refused one.  Or every batch was accepted: the document is in [ready]
    or [concepts_ready], the rows of the new chunks follow the rows that
    were there (nothing is deleted, so a second run adds the chunks
    again), every row of the document has [has_embedding = 1], and the
    vector store holds, after the purge, exactly the new ids in order. *)
Theorem process_document_stores_chunks (env : external.Env)
    (doc_id : string) (db : sqlite.DB) (d : sqlite.Document)
    (f : pdf_extractor.FitzDoc) :
  sqlite.documents db !! doc_id = Some d ->
  external.fitz_open env (sqlite.file_path d) = Some f ->
  pdf_extractor.needs_ocr (pdf_extractor.extract_pdf f) = false ->
  let cs :=
    chunker.chunk_pages (pdf_extractor.pages (pdf_extractor.extract_pdf f))
      chunker.TARGET_CHARS chunker.OVERLAP_CHARS in
  cs <> [] ->
  let ids := spec_pipeline.new_ids (external.uuid4 env) db (length cs) in
  exists db',
    ingestion.process_document env doc_id db = (sqlite.Return tt, db')
    /\ ((spec.status_of doc_id db' = Some sqlite.ERROR
         /\ sqlite.chunks db'
            = sqlite.chunks db
              ++ spec_pipeline.new_rows (external.uuid4 env) doc_id db cs false
         /\ exists n,
             n < length cs
             /\ (ingestion.CHROMA_BATCH_SIZE | n)
             /\ external.chroma_add env
                  (take ingestion.CHROMA_BATCH_SIZE (drop n ids)) = false
             /\ sqlite.chroma db'
                = spec_pipeline.purged env doc_id (sqlite.chroma db)
                  ++ spec_pipeline.vectors doc_id (take n ids))
        \/ ((spec.status_of doc_id db' = Some sqlite.READY
             \/ spec.status_of doc_id db' = Some sqlite.CONCEPTS_READY)
            /\ sqlite.chunks db'
               = spec_pipeline.flagged doc_id (sqlite.chunks db)
                 ++ spec_pipeline.new_rows (external.uuid4 env) doc_id db cs
                      true
            /\ sqlite.chroma db'
               = spec_pipeline.purged env doc_id (sqlite.chroma db)
                 ++ spec_pipeline.vectors doc_id ids
            /\ forall m, (ingestion.CHROMA_BATCH_SIZE | m) ->
                 m < length cs ->
                 external.chroma_add env
                   (take ingestion.CHROMA_BATCH_SIZE (drop m ids)) = true)).
Proof. apply process_document_chunks_and_vectors. Qed.

Lemma process_document_stores_chunks_witness :
  let env := spec.env_ok in
  let db := spec.db_with sqlite.PENDING in
  let cs :=
    chunker.chunk_pages
      (pdf_extractor.pages (pdf_extractor.extract_pdf spec.fitz1))
      chunker.TARGET_CHARS chunker.OVERLAP_CHARS in
  let ids := spec_pipeline.new_ids (external.uuid4 env) db (length cs) in
  sqlite.documents db !! "d1" = Some (spec.doc_in sqlite.PENDING)
  /\ external.fitz_open env (sqlite.file_path (spec.doc_in sqlite.PENDING))
     = Some spec.fitz1
  /\ pdf_extractor.needs_ocr (pdf_extractor.extract_pdf spec.fitz1) = false
  /\ cs <> []
  /\ exists db',
      ingestion.process_document env "d1" db = (sqlite.Return tt, db')
      /\ ((spec.status_of "d1" db' = Some sqlite.ERROR
           /\ sqlite.chunks db'
              = sqlite.chunks db
                ++ spec_pipeline.new_rows (external.uuid4 env) "d1" db cs false
           /\ exists n,
               n < length cs
               /\ (ingestion.CHROMA_BATCH_SIZE | n)
               /\ external.chroma_add env
                    (take ingestion.CHROMA_BATCH_SIZE (drop n ids)) = false
               /\ sqlite.chroma db'
                  = spec_pipeline.purged env "d1" (sqlite.chroma db)
                    ++ spec_pipeline.vectors "d1" (take n ids))
          \/ ((spec.status_of "d1" db' = Some sqlite.READY
               \/ spec.status_of "d1" db' = Some sqlite.CONCEPTS_READY)
              /\ sqlite.chunks db'
                 = spec_pipeline.flagged "d1" (sqlite.chunks db)
                   ++ spec_pipeline.new_rows (external.uuid4 env) "d1" db cs
                        true
              /\ sqlite.chroma db'
                 = spec_pipeline.purged env "d1" (sqlite.chroma db)
                   ++ spec_pipeline.vectors "d1" ids
              /\ forall m, (ingestion.CHROMA_BATCH_SIZE | m) ->
                   m < length cs ->
                   external.chroma_add env
                     (take ingestion.CHROMA_BATCH_SIZE (drop m ids)) = true)).
Proof.
  intros env db cs ids.
  assert (Hcs : cs <> []) by (vm_compute; discriminate).
  split; [reflexivity |]. split; [reflexivity |].
  split; [vm_compute; reflexivity |]. split; [exact Hcs |].
  exact (process_document_stores_chunks env "d1" db
           (spec.doc_in sqlite.PENDING) spec.fitz1 eq_refl eq_refl
           ltac:(vm_compute; reflexivity) Hcs).
Defined.


(** X20. A run that stops before chunks are stored writes no data.  For a
    document in the table, when the PDF cannot be opened the run ends in
    [error]; when the text is too sparse it ends in [needs_ocr]; when the
    text gives no chunk it ends in [ready]; in the three cases the run
    returns and the chunk rows, the vector store (the old vectors of the
    document included), the flashcards and the identifiers drawn are as
    before, and the LLM is not called. *)
Theorem process_document_early_exit (env : external.Env) (doc_id : string)
    (db : sqlite.DB) (d : sqlite.Document) :
  sqlite.documents db !! doc_id = Some d ->
  match external.fitz_open env (sqlite.file_path d) with
  | None => True
  | Some f =>
      pdf_extractor.needs_ocr (pdf_extractor.extract_pdf f) = true
      \/ chunker.chunk_pages
           (pdf_extractor.pages (pdf_extractor.extract_pdf f))
           chunker.TARGET_CHARS chunker.OVERLAP_CHARS = []
  end ->
  exists db',
    ingestion.process_document env doc_id db = (sqlite.Return tt, db')
    /\ spec.status_of doc_id db'
       = Some match external.fitz_open env (sqlite.file_path d) with
              | None => sqlite.ERROR
              | Some f =>
                  if pdf_extractor.needs_ocr (pdf_extractor.extract_pdf f)
                  then sqlite.NEEDS_OCR else sqlite.READY
              end
    /\ sqlite.chunks db' = sqlite.chunks db
    /\ sqlite.chroma db' = sqlite.chroma db
    /\ sqlite.flashcards db' = sqlite.flashcards db
    /\ sqlite.uuid_counter db' = sqlite.uuid_counter db
    /\ sqlite.llm_calls db' = sqlite.llm_calls db.
Proof. apply process_document_no_chunks. Qed.

Lemma process_document_early_exit_witness :
  let env :=
    external.mkEnv (fun _ => None) (fun _ => "paper")
      (fun n => String.append "u" (pretty n))
      (fun _ => true) (fun _ => true) (fun _ => true)
      (fun _ => external.LLMItems 1) (fun _ => external.LLMItems 1) in
  let db := spec.db_with sqlite.PENDING in
  sqlite.documents db !! "d1" = Some (spec.doc_in sqlite.PENDING)
  /\ True
  /\ exists db',
      ingestion.process_document env "d1" db = (sqlite.Return tt, db')
      /\ spec.status_of "d1" db' = Some sqlite.ERROR
      /\ sqlite.chunks db' = sqlite.chunks db
      /\ sqlite.chroma db' = sqlite.chroma db
      /\ sqlite.flashcards db' = sqlite.flashcards db
      /\ sqlite.uuid_counter db' = sqlite.uuid_counter db
      /\ sqlite.llm_calls db' = sqlite.llm_calls db.
Proof.
  intros env db. split; [reflexivity |]. split; [exact I |].
  exact (process_document_early_exit env "d1" db
           (spec.doc_in sqlite.PENDING) eq_refl I).
Defined.


(** ** Text extraction *)

Lemma enumerate_pages_spec (texts : list (list N)) (i : Z) :
  chunker.text <$> pdf_extractor.enumerate_pages i texts = texts
  /\ chunker.page_number <$> pdf_extractor.enumerate_pages i texts
     = (fun k => (i + 1 + Z.of_nat k)%Z) <$> seq 0 (length texts).
Proof.
  revert i. induction texts as [|t texts IH]; intros i; [by split |].
  destruct (IH (i + 1)%Z) as [Ht Hn].
  cbn [pdf_extractor.enumerate_pages fmap list_fmap length seq
       chunker.text chunker.page_number].
  change (list_fmap _ _ ?f ?l) with (f <$> l).
  rewrite Ht, Hn. split; [reflexivity |].
  f_equal; [lia |]. rewrite <- fmap_S_seq, <- list_fmap_compose.
  apply list_fmap_ext. intros _ k _. simpl. lia.
Qed.

(** X21. What [extract_pdf] reports: the pages carry the texts of the
    document in order and are numbered from 1; the page count is their
    number; and the document is flagged [needs_ocr] exactly when it has at
    least one page and the characters of its pages, counted without the
    whitespace at the ends of each page, are fewer than 50 per page on
    average.  A document without pages is never flagged. *)
Theorem extract_pdf_spec (doc : pdf_extractor.FitzDoc) :
  let ex := pdf_extractor.extract_pdf doc in
  let n := length (pdf_extractor.page_texts doc) in
  chunker.text <$> pdf_extractor.pages ex = pdf_extractor.page_texts doc
  /\ chunker.page_number <$> pdf_extractor.pages ex
     = (fun k => Z.of_nat (S k)) <$> seq 0 n
  /\ pdf_extractor.page_count ex = Z.of_nat n
  /\ (pdf_extractor.needs_ocr ex = true
      <-> 0 < n
          /\ (spec_pipeline.stripped_chars (pdf_extractor.page_texts doc)
              < 50 * Z.of_nat n)%Z).
Proof.
  cbn zeta.
  destruct (enumerate_pages_spec (pdf_extractor.page_texts doc) 0)
    as [Ht Hn].
  split; [exact Ht |]. split.
  { cbn [pdf_extractor.extract_pdf pdf_extractor.pages]. rewrite Hn.
    apply list_fmap_ext. intros _ k _. lia. }
  split; [reflexivity |].
  unfold pdf_extractor.extract_pdf. cbn [pdf_extractor.needs_ocr].
  set (pages := pdf_extractor.enumerate_pages 0 (pdf_extractor.page_texts doc))
    in *.
  assert (Hlen : py.len pages = Z.of_nat (length (pdf_extractor.page_texts doc))).
  { unfold py.len. f_equal. rewrite <- Ht. by rewrite length_fmap. }
  assert (Htotal : foldr Z.add 0%Z
                     ((fun p => py.len (py.strip (chunker.text p))) <$> pages)
                   = spec_pipeline.stripped_chars
                       (pdf_extractor.page_texts doc)).
  { unfold spec_pipeline.stripped_chars. rewrite <- Ht.
    by rewrite <- list_fmap_compose. }
  rewrite Htotal, Hlen.
  set (total := spec_pipeline.stripped_chars _).
  set (n := length (pdf_extractor.page_texts doc)).
  rewrite andb_true_iff, Z.ltb_lt, Qltb_lt.
  unfold pdf_extractor._OCR_THRESHOLD_CHARS_PER_PAGE.
  split.
  - intros [Hpos Havg]. split; [lia |].
    assert (Hmax : py.max (Z.of_nat n) 1 = Z.of_nat n).
    { unfold py.max. destruct (Z.ltb_spec (Z.of_nat n) 1); lia. }
    rewrite Hmax in Havg.
    assert (Hn0 : (0 < inject_Z (Z.of_nat n))%Q).
    { change 0%Q with (inject_Z 0). rewrite <- Zlt_Qlt. lia. }
    apply (Qmult_lt_r _ _ (inject_Z (Z.of_nat n)) Hn0) in Havg.
    rewrite Qmult_comm, Qmult_div_r in Havg
      by (intros E; rewrite E in Hn0; discriminate).
    rewrite <- inject_Z_mult, <- Zlt_Qlt in Havg. exact Havg.
  - intros [Hpos Havg]. split; [lia |].
    assert (Hmax : py.max (Z.of_nat n) 1 = Z.of_nat n).
    { unfold py.max. destruct (Z.ltb_spec (Z.of_nat n) 1); lia. }
    rewrite Hmax.
    apply Qlt_shift_div_r.
    + change 0%Q with (inject_Z 0). rewrite <- Zlt_Qlt. lia.
    + rewrite <- inject_Z_mult, <- Zlt_Qlt. exact Havg.
Qed.
